(** * MESS_2024_Eibl_Etna: six-component seismogram and spectrogram figures

    A shallow embedding of [04 Wavefield Polarization/MESS_2024_Eibl_Etna.py].

    The script is a sequence of calls into ObsPy, NumPy, SciPy and
    Matplotlib.  The embedding keeps that shape:

    - sample values are rationals ([Q]); the script's float literals are the
      rationals they denote;
    - a [UTCDateTime] is its integer count of nanoseconds since the epoch;
    - the numerical routines whose result is not decided by the script
      (file reading, detrending, tapering, response removal, filtering,
      trimming, the spectrogram) are fields of a [Library] record, each of
      them fallible;
    - the routines whose result the script's behaviour depends on
      ([Stream.sort], [Trace.max], [Stream.integrate], list indexing, the
      pyplot figure bookkeeping) are written out;
    - every call into a library is recorded, in program order, in the
      [calls] log of the [World], next to the state of the current
      Matplotlib figure;
    - a Python exception is the left injection of a sum and stops the run. *)

From Stdlib Require Import List ZArith NArith QArith Qabs Qround String Ascii Bool.
From Stdlib Require Import Lia Permutation Sorting.Sorted.
Import ListNotations.


(** ** Times *)

Module UTC.

(** Nanoseconds since 1970-01-01T00:00:00Z. *)
Definition t := Z.

Definition days_from_civil (y m d : Z) : Z :=
  let y' := if (m <=? 2)%Z then (y - 1)%Z else y in
  let era := (y' / 400)%Z in
  let yoe := (y' - era * 400)%Z in
  let mp := if (m >? 2)%Z then (m - 3)%Z else (m + 9)%Z in
  let doy := ((153 * mp + 2) / 5 + d - 1)%Z in
  let doe := (yoe * 365 + yoe / 4 - yoe / 100 + doy)%Z in
  (era * 146097 + doe - 719468)%Z.

(** [UTCDateTime(year, month, day, hour, minute, second)]. *)
Definition make (y m d hh mi ss : Z) : t :=
  ((days_from_civil y m d * 86400 + hh * 3600 + mi * 60 + ss) * 10 ^ 9)%Z.

(** [t + secs] and [t - secs] for a whole number of seconds. *)
Definition add (x : t) (secs : Z) : t := (x + secs * 10 ^ 9)%Z.
Definition sub (x : t) (secs : Z) : t := (x - secs * 10 ^ 9)%Z.

(** [a - b] between two instants: seconds. *)
Definition diff (a b : t) : Q := Qmake (a - b) (10 ^ 9).

(** Python's [round]: to the nearest integer, ties to even. *)
Definition py_round (x : Q) : Z :=
  let f := Qfloor x in
  let r := (x - inject_Z f)%Q in
  match (r ?= 1 # 2)%Q with
  | Lt => f
  | Gt => (f + 1)%Z
  | Eq => if Z.even f then f else (f + 1)%Z
  end.

(** [t + secs] for a fractional number of seconds. *)
Definition addq (x : t) (secs : Q) : t :=
  (x + py_round (secs * inject_Z (10 ^ 9)))%Z.

End UTC.

(** ** Traces and streams *)

Record Stats := mkStats {
  network : string;
  station : string;
  location : string;
  channel : string;
  starttime : UTC.t;
  sampling_rate : Q
}.

Record Trace := mkTrace {
  stats : Stats;
  data : list Q
}.

Definition Stream := list Trace.

Definition npts (tr : Trace) : nat := List.length (data tr).

(** [stats.delta]: the sampling interval. *)
Definition delta (tr : Trace) : Q := / sampling_rate (stats tr).

(** [stats.endtime]: the time of the last sample. *)
Definition endtime (tr : Trace) : UTC.t :=
  match npts tr with
  | O => starttime (stats tr)
  | S n => UTC.addq (starttime (stats tr))
                    (inject_Z (Z.of_nat n) / sampling_rate (stats tr))
  end.

(** ** Exceptions *)

Inductive exception :=
| IndexError
| UnboundLocalError (name : string)
| ValueError
| LibraryError (what : string).

Definition result (A : Type) : Type := (exception + A)%type.

(** ** The figure *)

Inductive AxesPos :=
| SubplotPos (nrows ncols index : nat)
| RectPos (left bottom width height : Q).

(** What [signal.spectrogram] returns: frequencies, segment times, densities. *)
Record Spectrum := mkSpectrum {
  sp_f : list Q;
  sp_t : list Q;
  sp_Sxx : list (list Q)
}.

(** A [pcolormesh] image. *)
Record Mesh := mkMesh {
  mesh_x : list Q;
  mesh_y : list Q;
  mesh_c : list (list Q);
  mesh_vmin : Q;
  mesh_vmax : Q
}.

Inductive XLabel :=
| TimeOn (start : UTC.t)
| TimeFrom (start : UTC.t).

Record Axes := mkAxes {
  pos : AxesPos;
  lines : list Trace;
  meshes : list Mesh;
  ylim : option (Q * Q);
  ylabel : option string;
  xlabel : option XLabel;
  yscale : option string;
  xticklabels_visible : bool;
  time_axis_format : option (string * Z)
}.

Definition new_axes (p : AxesPos) : Axes :=
  mkAxes p [] [] None None None None true None.

Record Colorbar := mkColorbar {
  cb_mappable : Mesh;
  cb_cax : nat;
  cb_label : string
}.

Record Figure := mkFigure {
  axes : list Axes;
  colorbars : list Colorbar;
  gca : option nat
}.

Definition empty_figure : Figure := mkFigure [] [] None.

(** The name of the output file, before the f-string renders it:
    [localpath], the event start whose date fields are printed, and the
    band limits. *)
Record FileName := mkFileName {
  fn_dir : string;
  fn_tstart : UTC.t;
  fn_fmin : Q;
  fn_fmax : Q
}.

(** ** Library calls *)

Inductive recv := the_st_trans | the_st_rot.

Inductive call :=
| Call_read (pathname : string) (starttime endtime : UTC.t)
| Call_print (who : recv)
| Call_detrend (who : recv) (type : string)
| Call_taper (who : recv) (max_percentage : Q) (type : string)
| Call_read_inventory (path : string)
| Call_remove_response (pre_filt : list Q) (output : string)
| Call_filter (who : recv) (type : string) (freqmin freqmax : Q)
              (corners : Z) (zerophase : bool)
| Call_trim (who : recv) (starttime endtime : UTC.t)
| Call_sort (who : recv)
| Call_scale (who : recv) (index : nat) (factor : Q)
| Call_integrate (who : recv)
| Call_spectrogram (n : nat) (fs : Q) (nperseg : Z) (noverlap : Q)
| Call_savefig (name : FileName) (format : string) (dpi : Z) (fig : Figure)
| Call_show
| Call_close.

Record World := mkWorld {
  calls : list call;
  figure : Figure
}.

Definition initial_world : World := mkWorld [] empty_figure.

(** ** The monad: state and exceptions *)

Definition M (A : Type) : Type := World -> result A * World.

Definition ret {A} (a : A) : M A := fun w => (inr a, w).

Definition raise {A} (e : exception) : M A := fun w => (inl e, w).

Definition bind {A B} (m : M A) (k : A -> M B) : M B :=
  fun w =>
    match m w with
    | (inl e, w') => (inl e, w')
    | (inr a, w') => k a w'
    end.

Declare Scope monad_scope.
Delimit Scope monad_scope with monad.
Notation "x <- m ;; k" := (bind m (fun x => k))
  (at level 61, m at next level, right associativity) : monad_scope.
Notation "m ;;; k" := (bind m (fun _ => k))
  (at level 61, right associativity) : monad_scope.
Open Scope monad_scope.

Definition lift {A} (r : result A) : M A :=
  match r with
  | inl e => raise e
  | inr a => ret a
  end.

Definition tell (c : call) : M unit :=
  fun w => (inr tt, mkWorld (calls w ++ [c]) (figure w)).

Definition get_figure : M Figure := fun w => (inr (figure w), w).

Definition put_figure (f : Figure) : M unit :=
  fun w => (inr tt, mkWorld (calls w) f).

(** [for x in xs: body x]. *)
Fixpoint for_each {A} (xs : list A) (body : A -> M unit) : M unit :=
  match xs with
  | [] => ret tt
  | x :: xs' => body x ;;; for_each xs' body
  end.

(** [for tr in st: tr.method()] where the method changes the trace in
    place: the stream afterwards holds the changed traces. *)
Fixpoint for_each_trace (st : Stream) (body : Trace -> M Trace) : M Stream :=
  match st with
  | [] => ret []
  | tr :: st' =>
      tr' <- body tr ;;
      rest <- for_each_trace st' body ;;
      ret (tr' :: rest)
  end.

(** [xs[i]]. *)
Definition index {A} (xs : list A) (i : nat) : M A :=
  match nth_error xs i with
  | Some x => ret x
  | None => raise IndexError
  end.

(** [xs[i] = v] on a list that is already long enough. *)
Fixpoint set_nth {A} (xs : list A) (i : nat) (v : A) : list A :=
  match xs, i with
  | [], _ => []
  | _ :: xs', O => v :: xs'
  | x :: xs', S i' => x :: set_nth xs' i' v
  end.

(** ** NumPy, SciPy and ObsPy routines that the script depends on *)

Definition Qltb (a b : Q) : bool := negb (Qle_bool b a).

(** [ndarray.max()] and [ndarray.min()]: a [ValueError] on an empty array. *)
Fixpoint fold_max (acc : Q) (xs : list Q) : Q :=
  match xs with
  | [] => acc
  | x :: xs' => fold_max (if Qltb acc x then x else acc) xs'
  end.

Fixpoint fold_min (acc : Q) (xs : list Q) : Q :=
  match xs with
  | [] => acc
  | x :: xs' => fold_min (if Qltb x acc then x else acc) xs'
  end.

Definition ndarray_max (xs : list Q) : result Q :=
  match xs with
  | [] => inl ValueError
  | x :: xs' => inr (fold_max x xs')
  end.

Definition ndarray_min (xs : list Q) : result Q :=
  match xs with
  | [] => inl ValueError
  | x :: xs' => inr (fold_min x xs')
  end.

(** [Trace.max()]: the sample of largest absolute value, with its sign. *)
Definition Trace_max (tr : Trace) : result Q :=
  match ndarray_max (data tr), ndarray_min (data tr) with
  | inr value, inr _min =>
      if Qltb (Qabs value) (Qabs _min) then inr _min else inr value
  | inl e, _ => inl e
  | _, inl e => inl e
  end.

(** [np.abs]. *)
Definition np_abs (x : Q) : Q := Qabs x.

(** [ndarray * factor]. *)
Definition ndarray_mul (xs : list Q) (factor : Q) : list Q :=
  map (fun x => x * factor)%Q xs.

(** [scipy.integrate.cumtrapz(data, dx=dx, initial=0)]: the running sum of
    the trapezoid areas, behind a leading zero. *)
Fixpoint cumsum_trapz (acc dx : Q) (y : list Q) : list Q :=
  match y with
  | a :: (b :: _) as tl =>
      let acc' := (acc + dx * (b + a) / 2)%Q in
      acc' :: cumsum_trapz acc' dx tl
  | _ => []
  end.

Definition cumtrapz (y : list Q) (dx : Q) : list Q :=
  0%Q :: cumsum_trapz 0 dx y.

(** [Trace.integrate()], method [cumtrapz] with [dx = stats.delta]. *)
Definition Trace_integrate (tr : Trace) : Trace :=
  mkTrace (stats tr) (cumtrapz (data tr) (delta tr)).

(** [Stream.integrate()]: every trace. *)
Definition Stream_integrate (st : Stream) : Stream := map Trace_integrate st.

(** [Stream.sort()]: one stable [list.sort] per key, the last key first. *)
Inductive sort_key :=
| Key_network | Key_station | Key_location | Key_channel
| Key_starttime | Key_endtime.

Definition default_keys : list sort_key :=
  [Key_network; Key_station; Key_location; Key_channel;
   Key_starttime; Key_endtime].

Definition key_leb (k : sort_key) (a b : Trace) : bool :=
  match k with
  | Key_network => String.leb (network (stats a)) (network (stats b))
  | Key_station => String.leb (station (stats a)) (station (stats b))
  | Key_location => String.leb (location (stats a)) (location (stats b))
  | Key_channel => String.leb (channel (stats a)) (channel (stats b))
  | Key_starttime => (starttime (stats a) <=? starttime (stats b))%Z
  | Key_endtime => (endtime a <=? endtime b)%Z
  end.

(** A stable sort: an element goes in front of the first one that is not
    smaller, so in front of its equals that came later in the input. *)
Fixpoint insert_by (leb : Trace -> Trace -> bool) (x : Trace) (l : Stream)
  : Stream :=
  match l with
  | [] => [x]
  | y :: l' => if leb x y then x :: l else y :: insert_by leb x l'
  end.

Fixpoint list_sort (leb : Trace -> Trace -> bool) (l : Stream) : Stream :=
  match l with
  | [] => []
  | x :: l' => insert_by leb x (list_sort leb l')
  end.

Definition Stream_sort_keys (keys : list sort_key) (st : Stream) : Stream :=
  fold_left (fun traces k => list_sort (key_leb k) traces) (rev keys) st.

Definition Stream_sort (st : Stream) : Stream :=
  Stream_sort_keys default_keys st.

(** ** The routines left to the libraries *)

Record Library := mkLibrary {
  Inventory : Type;
  (** [obspy.read(pathname, starttime=, endtime=)] *)
  lib_read : string -> UTC.t -> UTC.t -> result Stream;
  (** [Stream.detrend(type)] *)
  lib_detrend : string -> Stream -> result Stream;
  (** [Stream.taper(max_percentage=, type=)] *)
  lib_taper : Q -> string -> Stream -> result Stream;
  (** [obspy.read_inventory(path)] *)
  lib_read_inventory : string -> result Inventory;
  (** [Trace.remove_response(inventory=, pre_filt=, output=)] *)
  lib_remove_response : Inventory -> list Q -> string -> Trace -> result Trace;
  (** [Stream.filter(type, freqmin=, freqmax=, corners=, zerophase=)] *)
  lib_filter : string -> Q -> Q -> Z -> bool -> Stream -> result Stream;
  (** [Stream.trim(starttime, endtime)] *)
  lib_trim : UTC.t -> UTC.t -> Stream -> result Stream;
  (** [scipy.signal.spectrogram(x, fs, nperseg=, noverlap=)] *)
  lib_spectrogram : list Q -> Q -> Z -> Q -> result Spectrum
}.

(** ** Module constants (first cell) *)

Definition localpath : string := "figure_output/".
Definition datapath : string := "2019_Etna/".

Definition prefilt : list Q := [8 # 1000; 1 # 100; 95; 99]%Q.
Definition fmin : Q := 1 # 2.
Definition fmax : Q := 20.
Definition ticks : Z := 30.
Definition wlen : Z := 128.
Definition overlap : Q := inject_Z wlen / 2.
Definition vmin1 : Q := 2 * 10 ^ (-15).
Definition vmax1 : Q := 1 * 10 ^ (-10).
Definition vmin : Q := 2 * 10 ^ (-17).
Definition vmax : Q := 3 * 10 ^ (-16).
Definition log : bool := false.

(** [for x in xs: body] where the body reads and rebinds variables that
    outlive an iteration: [s] carries them from one iteration to the next. *)
Fixpoint for_each_acc {A S} (xs : list A) (s : S) (body : A -> S -> M S)
  : M S :=
  match xs with
  | [] => ret s
  | x :: xs' => s' <- body x s ;; for_each_acc xs' s' body
  end.

(** ** pyplot *)

Definition same_pos (p q : AxesPos) : bool :=
  match p, q with
  | SubplotPos r c i, SubplotPos r' c' i' =>
      Nat.eqb r r' && Nat.eqb c c' && Nat.eqb i i'
  | RectPos l b w h, RectPos l' b' w' h' =>
      Qeq_bool l l' && Qeq_bool b b' && Qeq_bool w w' && Qeq_bool h h'
  | _, _ => false
  end.

Fixpoint find_axes (p : AxesPos) (k : nat) (l : list Axes) : option nat :=
  match l with
  | [] => None
  | a :: l' => if same_pos p (pos a) then Some k else find_axes p (S k) l'
  end.

(** [plt.figure()]: a new, empty current figure. *)
Definition plt_figure : M unit := put_figure empty_figure.

(** [plt.subplots()]: a new figure with a single subplot. *)
Definition plt_subplots : M nat :=
  put_figure (mkFigure [new_axes (SubplotPos 1 1 1)] [] (Some 0%nat)) ;;;
  ret 0%nat.

(** [plt.subplot(nrows, ncols, index)]: the axes of the current figure at
    that grid cell, made if it is not there yet; it becomes current. *)
Definition plt_subplot (nrows ncols idx : nat) : M nat :=
  fig <- get_figure ;;
  match find_axes (SubplotPos nrows ncols idx) 0 (axes fig) with
  | Some k =>
      put_figure (mkFigure (axes fig) (colorbars fig) (Some k)) ;;; ret k
  | None =>
      let k := List.length (axes fig) in
      put_figure (mkFigure (axes fig ++ [new_axes (SubplotPos nrows ncols idx)])
                           (colorbars fig) (Some k)) ;;;
      ret k
  end.

(** [fig.add_axes([left, bottom, width, height])]: a new axes each time. *)
Definition fig_add_axes (l b w h : Q) : M nat :=
  fig <- get_figure ;;
  let k := List.length (axes fig) in
  put_figure (mkFigure (axes fig ++ [new_axes (RectPos l b w h)])
                       (colorbars fig) (Some k)) ;;;
  ret k.

(** A method call on an axes object. *)
Definition update_axes (ax : nat) (f : Axes -> Axes) : M unit :=
  fig <- get_figure ;;
  match nth_error (axes fig) ax with
  | Some a =>
      put_figure (mkFigure (set_nth (axes fig) ax (f a)) (colorbars fig)
                           (gca fig))
  | None => raise (LibraryError "no such axes")
  end.

Definition ax_plot (tr : Trace) (a : Axes) : Axes :=
  mkAxes (pos a) (lines a ++ [tr]) (meshes a) (ylim a) (ylabel a) (xlabel a)
         (yscale a) (xticklabels_visible a) (time_axis_format a).

Definition ax_add_mesh (m : Mesh) (a : Axes) : Axes :=
  mkAxes (pos a) (lines a) (meshes a ++ [m]) (ylim a) (ylabel a) (xlabel a)
         (yscale a) (xticklabels_visible a) (time_axis_format a).

Definition ax_set_ylim (lo hi : Q) (a : Axes) : Axes :=
  mkAxes (pos a) (lines a) (meshes a) (Some (lo, hi)) (ylabel a) (xlabel a)
         (yscale a) (xticklabels_visible a) (time_axis_format a).

Definition ax_set_ylabel (s : string) (a : Axes) : Axes :=
  mkAxes (pos a) (lines a) (meshes a) (ylim a) (Some s) (xlabel a)
         (yscale a) (xticklabels_visible a) (time_axis_format a).

Definition ax_set_xlabel (x : XLabel) (a : Axes) : Axes :=
  mkAxes (pos a) (lines a) (meshes a) (ylim a) (ylabel a) (Some x)
         (yscale a) (xticklabels_visible a) (time_axis_format a).

Definition ax_set_yscale (s : string) (a : Axes) : Axes :=
  mkAxes (pos a) (lines a) (meshes a) (ylim a) (ylabel a) (xlabel a)
         (Some s) (xticklabels_visible a) (time_axis_format a).

Definition ax_hide_xticklabels (a : Axes) : Axes :=
  mkAxes (pos a) (lines a) (meshes a) (ylim a) (ylabel a) (xlabel a)
         (yscale a) false (time_axis_format a).

Definition ax_set_time_axis (fmt : string) (interval : Z) (a : Axes) : Axes :=
  mkAxes (pos a) (lines a) (meshes a) (ylim a) (ylabel a) (xlabel a)
         (yscale a) (xticklabels_visible a) (Some (fmt, interval)).

(** [plt.gca()]: the current axes, made if the figure has none. *)
Definition plt_gca : M nat :=
  fig <- get_figure ;;
  match gca fig with
  | Some k => ret k
  | None => plt_subplot 1 1 1
  end.

(** [plt.pcolormesh(x, y, C, vmin=, vmax=)] draws on the current axes. *)
Definition plt_pcolormesh (x y : list Q) (c : list (list Q)) (lo hi : Q)
  : M Mesh :=
  let img := mkMesh x y c lo hi in
  k <- plt_gca ;;
  update_axes k (ax_add_mesh img) ;;;
  ret img.

(** [plt.colorbar(img, cax=, label=)]. *)
Definition plt_colorbar (img : Mesh) (cax : nat) (label : string)
  : M Colorbar :=
  fig <- get_figure ;;
  let cb := mkColorbar img cax label in
  put_figure (mkFigure (axes fig) (colorbars fig ++ [cb]) (gca fig)) ;;;
  ret cb.

Definition plt_savefig (name : FileName) (format : string) (dpi : Z)
  : M unit :=
  fig <- get_figure ;;
  tell (Call_savefig name format dpi fig).

Definition plt_show : M unit := tell Call_show.
(** [plt.close()]: the current figure is gone. *)
Definition plt_close : M unit := tell Call_close ;;; put_figure empty_figure.

(** ** The script *)

Section Script.

Variable L : Library.

(** *** Calls into ObsPy and SciPy: logged, then answered by the library *)

Definition read (pathname : string) (starttime endtime : UTC.t) : M Stream :=
  tell (Call_read pathname starttime endtime) ;;;
  lift (lib_read L pathname starttime endtime).

Definition print (who : recv) : M unit := tell (Call_print who).

Definition detrend (who : recv) (type : string) (st : Stream) : M Stream :=
  tell (Call_detrend who type) ;;; lift (lib_detrend L type st).

Definition taper (who : recv) (max_percentage : Q) (type : string)
  (st : Stream) : M Stream :=
  tell (Call_taper who max_percentage type) ;;;
  lift (lib_taper L max_percentage type st).

Definition read_inventory (path : string) : M (Inventory L) :=
  tell (Call_read_inventory path) ;;; lift (lib_read_inventory L path).

Definition remove_response (inv : Inventory L) (pre_filt : list Q)
  (output : string) (tr : Trace) : M Trace :=
  tell (Call_remove_response pre_filt output) ;;;
  lift (lib_remove_response L inv pre_filt output tr).

Definition filter (who : recv) (type : string) (freqmin freqmax : Q)
  (corners : Z) (zerophase : bool) (st : Stream) : M Stream :=
  tell (Call_filter who type freqmin freqmax corners zerophase) ;;;
  lift (lib_filter L type freqmin freqmax corners zerophase st).

Definition trim (who : recv) (starttime endtime : UTC.t) (st : Stream)
  : M Stream :=
  tell (Call_trim who starttime endtime) ;;;
  lift (lib_trim L starttime endtime st).

Definition sort (who : recv) (st : Stream) : M Stream :=
  tell (Call_sort who) ;;; ret (Stream_sort st).

(** [st[i].data = st[i].data * factor]. *)
Definition scale (who : recv) (i : nat) (factor : Q) (st : Stream)
  : M Stream :=
  tr <- index st i ;;
  tell (Call_scale who i factor) ;;;
  ret (set_nth st i (mkTrace (stats tr) (ndarray_mul (data tr) factor))).

Definition integrate (who : recv) (st : Stream) : M Stream :=
  tell (Call_integrate who) ;;; ret (Stream_integrate st).

Definition spectrogram (x : list Q) (fs : Q) (nperseg : Z) (noverlap : Q)
  : M Spectrum :=
  tell (Call_spectrogram (List.length x) fs nperseg noverlap) ;;;
  lift (lib_spectrogram L x fs nperseg noverlap).

(** *** Second cell: [read_data] *)

Definition read_data (tstart tend : UTC.t) (fmin fmax : Q)
  : M (Stream * Q * Q * FileName) :=
  let filename := mkFileName localpath tstart fmin fmax in
  (* we define a wider time window for the plotting *)
  let tstart_early := UTC.sub tstart (1 * 30) in
  let tend_late := UTC.add tend (1 * 30) in
  (* we read in the seismometer data *)
  let fullpath := (datapath ++ "ZR.RS1..HH*")%string in
  st_trans <- read fullpath tstart_early tend_late ;;
  (* we do further preprocessing of the seismometer data *)
  print the_st_trans ;;;
  st_trans <- detrend the_st_trans "demean" st_trans ;;
  st_trans <- detrend the_st_trans "linear" st_trans ;;
  st_trans <- taper the_st_trans (1 # 100) "cosine" st_trans ;;
  st_trans <- taper the_st_trans (1 # 100) "cosine" st_trans ;;
  (* we remove the instrument response using a stationxml file *)
  st_trans <- for_each_trace st_trans (fun tr =>
    inv <- read_inventory (datapath ++ "Stations_Etna_2019_seis.xml")%string ;;
    let pre_filt := [nth 0 prefilt 0; nth 1 prefilt 0;
                     nth 2 prefilt 0; nth 3 prefilt 0]%Q in
    remove_response inv pre_filt "VEL" tr) ;;
  (* we do further preprocessing of the seismometer data *)
  st_trans <- detrend the_st_trans "demean" st_trans ;;
  st_trans <- detrend the_st_trans "linear" st_trans ;;
  st_trans <- taper the_st_trans (1 # 100) "cosine" st_trans ;;
  st_trans <- filter the_st_trans "bandpass" fmin fmax 2 true st_trans ;;
  st_trans <- trim the_st_trans tstart tend st_trans ;;
  st_trans <- sort the_st_trans st_trans ;;
  (* we read in the rotational sensor data *)
  let fullpath := (datapath ++ "ZR.RS1..HJ*")%string in
  st_rot <- read fullpath tstart tend ;;
  (* we do further preprocessing *)
  print the_st_rot ;;;
  st_rot <- detrend the_st_rot "demean" st_rot ;;
  st_rot <- detrend the_st_rot "linear" st_rot ;;
  st_rot <- taper the_st_rot (1 # 100) "cosine" st_rot ;;
  st_rot <- taper the_st_rot (1 # 100) "cosine" st_rot ;;
  st_rot <- detrend the_st_rot "demean" st_rot ;;
  st_rot <- detrend the_st_rot "linear" st_rot ;;
  st_rot <- taper the_st_rot (1 # 100) "cosine" st_rot ;;
  st_rot <- filter the_st_rot "bandpass" fmin fmax 2 true st_rot ;;
  st_rot <- trim the_st_rot tstart tend st_rot ;;
  st_rot <- sort the_st_rot st_rot ;;
  (* we convert the rotational sensor rotation rate data from nanorad/s
     to rad/s *)
  st_rot <- scale the_st_rot 0 (1 # 10 ^ 9) st_rot ;;
  st_rot <- scale the_st_rot 1 (1 # 10 ^ 9) st_rot ;;
  st_rot <- scale the_st_rot 2 (1 # 10 ^ 9) st_rot ;;
  (* we integrate to convert the rotational sensor data to rotation *)
  st_rot <- integrate the_st_rot st_rot ;;
  (* we derive the y axes limits *)
  tr0 <- index st_trans 0 ;;
  v <- lift (Trace_max tr0) ;;
  let trans_max := np_abs v in
  tr0 <- index st_rot 0 ;;
  v <- lift (Trace_max tr0) ;;
  let rot_max := np_abs v in
  (* we merge seismometer and rotational sensor data into one stream *)
  let st := st_trans ++ st_rot in
  ret (st, trans_max, rot_max, filename).

(** *** Third and fourth cell: one seismogram, one spectrogram *)

Definition plot_seismogram (axis : nat) (trace : Trace) : M unit :=
  update_axes axis (ax_plot trace).

Definition plot_spectrogram (axis : nat) (trace : Trace) (vmin vmax : Q)
  (tstart : UTC.t) (wlen : Z) (overlap : Q) : M Mesh :=
  let fs := sampling_rate (stats trace) in
  sp <- spectrogram (data trace) fs wlen overlap ;;
  let tshift := (UTC.diff (starttime (stats trace)) tstart * fs)%Q in
  img <- plt_pcolormesh (map (fun x => x + tshift / fs)%Q (sp_t sp))
                        (sp_f sp) (sp_Sxx sp) vmin vmax ;;
  update_axes axis (ax_set_ylim fmin fmax) ;;;
  update_axes axis (ax_set_ylabel "Frequency (Hz)") ;;;
  (if log then update_axes axis (ax_set_yscale "symlog") else ret tt) ;;;
  ret img.

(** *** [plotting_6C] *)

(** The six [if] statements that label the y axes: [chan] keeps the value it
    had when none of them fires. *)
Definition label_channel (name : string) (chan : option string)
  : option string :=
  let chan := if (name =? "HHE")%string
              then Some (name ++ " (m/s)")%string else chan in
  let chan := if (name =? "HHN")%string
              then Some (name ++ " (m/s)")%string else chan in
  let chan := if (name =? "HHZ")%string
              then Some (name ++ " (m/s)")%string else chan in
  let chan := if (name =? "HJ1")%string || (name =? "HJE")%string
              then Some " HJE (rad)"%string else chan in
  let chan := if (name =? "HJ2")%string || (name =? "HJN")%string
              then Some " HJN (rad)"%string else chan in
  let chan := if (name =? "HJ3")%string || (name =? "HJZ")%string
              then Some " HJZ (rad)"%string else chan in
  chan.

(** Reading a local variable. *)
Definition local {A} (name : string) (v : option A) : M A :=
  match v with
  | Some a => ret a
  | None => raise (UnboundLocalError name)
  end.

(** One pass of the loop body for panel [i]; [chan] is the value of the
    local variable of that name on entry (unbound: [None]), the result is
    its value on exit.  [tstart] is the module-level variable. *)
Definition plotting_6C_body (tstart : UTC.t) (st : Stream)
  (trans_max rot_max : Q) (i : nat) (chan : option string)
  : M (option string) :=
  ax0 <- plt_subplot 6 2 (1 + 2 * i) ;;
  (* We plot a column of seismograms. *)
  tr <- index st i ;;
  plot_seismogram ax0 tr ;;;
  (* we label the y axes *)
  tr <- index st i ;;
  let chan := label_channel (channel (stats tr)) chan in
  (* we set the y axes limits *)
  (if (i <? 3)%nat
   then update_axes ax0 (ax_set_ylim (- trans_max) trans_max)
   else update_axes ax0 (ax_set_ylim (- rot_max) rot_max)) ;;;
  tr <- index st i ;;
  c <- local "chan" chan ;;
  update_axes ax0 (ax_set_ylabel (station (stats tr) ++ ": " ++ c)%string) ;;;
  (* we format the seismometer time axis *)
  k <- plt_gca ;;
  update_axes k (ax_set_time_axis "%H:%M:%S" ticks) ;;;
  (* we plot the spectrograms *)
  ax1 <- plt_subplot 6 2 (2 + 2 * i) ;;
  let _vmin := vmin in
  let _vmax := vmax in
  let _vmin := if (i <? 3)%nat then vmin1 else _vmin in
  let _vmax := if (i <? 3)%nat then vmax1 else _vmax in
  tr <- index st i ;;
  img <- plot_spectrogram ax1 tr _vmin _vmax tstart wlen overlap ;;
  (* we label seismogram and spectrogram time axes *)
  (if (i =? 5)%nat
   then
     tr <- index st i ;;
     update_axes ax0 (ax_set_xlabel (TimeOn (starttime (stats tr)))) ;;;
     update_axes ax1 (ax_set_xlabel (TimeFrom (starttime (stats tr))))
   else ret tt) ;;;
  (* we remove some x axis labels *)
  (if negb (Z.of_nat i =? Z.of_nat (List.length st) - 1)%Z
   then
     update_axes ax0 ax_hide_xticklabels ;;;
     update_axes ax1 ax_hide_xticklabels
   else ret tt) ;;;
  (* we add a colorbar *)
  (if (i <? 3)%nat
   then
     cbaxes <- fig_add_axes (927 # 1000) (505 # 1000) (1 # 100) (37 # 100) ;;
     cb <- plt_colorbar img cbaxes "Spectral density ((m/s)$^2$/Hz)" ;;
     ret tt
   else
     cbaxes <- fig_add_axes (927 # 1000) (11 # 100) (1 # 100) (37 # 100) ;;
     cb <- plt_colorbar img cbaxes "Spectral density ((rad)$^2$/Hz)" ;;
     ret tt) ;;;
  ret chan.

Definition plotting_6C (tstart : UTC.t) (st : Stream) (trans_max rot_max : Q)
  (filename : FileName) : M unit :=
  (* we initialise the figure *)
  plt_figure ;;;
  for_each_acc (seq 0 6) None
    (plotting_6C_body tstart st trans_max rot_max) ;;;
  (* we save the figure *)
  plt_savefig filename "png" 500 ;;;
  plt_show.

(** *** The cells that run before the loop *)

Definition third_and_fourth_cell : M (UTC.t * UTC.t) :=
  let tstart := UTC.make 2019 9 4 15 52 0 in
  let tend := UTC.make 2019 9 4 15 54 0 in
  r <- read_data tstart tend fmin fmax ;;
  let '(stream, _, _, _) := r in
  axis <- plt_subplots ;;
  tr <- index stream 0 ;;
  plot_seismogram axis tr ;;;
  plt_show ;;;
  plt_close ;;;
  axis <- plt_subplots ;;
  tr <- index stream 0 ;;
  plot_spectrogram axis tr vmin1 vmax1 tstart wlen overlap ;;;
  plt_show ;;;
  plt_close ;;;
  ret (tstart, tend).

(** *** The loop over the six events *)

(** The [if]/[elif] chain: the new values of the module-level [tstart] and
    [tend]; they keep their values when no branch is taken. *)
Definition event_window (ii : nat) (cur : UTC.t * UTC.t) : UTC.t * UTC.t :=
  if (ii =? 0)%nat then (* VT *)
    let tstart := UTC.make 2019 9 4 15 52 0 in
    (tstart, UTC.add tstart 120)
  else if (ii =? 1)%nat then (* VT *)
    let tstart := UTC.make 2019 9 17 18 40 30 in
    (tstart, UTC.add tstart 120)
  else if (ii =? 2)%nat then (* LP *)
    let tstart := UTC.make 2019 8 27 14 21 0 in
    (tstart, UTC.add tstart 90)
  else if (ii =? 3)%nat then (* LP *)
    let tstart := UTC.make 2019 8 27 12 18 0 in
    (tstart, UTC.add tstart 90)
  else if (ii =? 4)%nat then (* no tremor *)
    let tstart := UTC.make 2019 9 8 12 18 0 in
    (tstart, UTC.add tstart 120)
  else if (ii =? 5)%nat then (* tremor *)
    let tstart := UTC.make 2019 9 9 12 18 0 in
    (tstart, UTC.add tstart 120)
  else cur.

Definition event_body (ii : nat) (cur : UTC.t * UTC.t)
  : M (UTC.t * UTC.t) :=
  let '(tstart, tend) := event_window ii cur in
  (* we read the data *)
  r <- read_data tstart tend fmin fmax ;;
  let '(st, trans_max, rot_max, filename) := r in
  (* we plot the data *)
  plotting_6C tstart st trans_max rot_max filename ;;;
  ret (tstart, tend).

Definition event_loop (cur : UTC.t * UTC.t) : M (UTC.t * UTC.t) :=
  for_each_acc (seq 0 6) cur event_body.

Definition main : M (UTC.t * UTC.t) :=
  cur <- third_and_fourth_cell ;;
  event_loop cur.

End Script.

(** ** A small library instance to run the script on

    Reading answers from two in-memory streams, chosen by the glob pattern;
    the signal-processing routines return their input; the spectrogram is a
    single cell. *)

Definition fixture_read (trans rot : Stream) (pathname : string)
  (starttime endtime : UTC.t) : result Stream :=
  if (pathname =? "2019_Etna/ZR.RS1..HH*")%string then inr trans
  else if (pathname =? "2019_Etna/ZR.RS1..HJ*")%string then inr rot
  else inl (LibraryError "No file matching file pattern").

Definition fixture_library (trans rot : Stream) : Library :=
  {| Inventory := unit;
     lib_read := fixture_read trans rot;
     lib_detrend := fun _ st => inr st;
     lib_taper := fun _ _ st => inr st;
     lib_read_inventory := fun _ => inr tt;
     lib_remove_response := fun _ _ _ tr => inr tr;
     lib_filter := fun _ _ _ _ _ st => inr st;
     lib_trim := fun _ _ st => inr st;
     lib_spectrogram := fun _ _ _ _ => inr (mkSpectrum [0] [0] [[1]])%Q |}.

Definition fixture_trace (chan : string) (samples : list Q) : Trace :=
  mkTrace (mkStats "ZR" "RS1" "" chan (UTC.make 2019 9 4 15 52 0) 100) samples.

Definition fixture_trans : Stream :=
  [fixture_trace "HHZ" [1; -1]%Q;
   fixture_trace "HHN" [5; -7]%Q;
   fixture_trace "HHE" [1; -2; 1]%Q].

Definition fixture_rot : Stream :=
  [fixture_trace "HJ1" [3; 3; 3]%Q;
   fixture_trace "HJ3" [9; -9]%Q;
   fixture_trace "HJ2" [4; 4]%Q].

Definition fixture : Library := fixture_library fixture_trans fixture_rot.

Definition fixture_tstart : UTC.t := UTC.make 2019 9 4 15 52 0.
Definition fixture_tend : UTC.t := UTC.add fixture_tstart 120.

(** ** Orders used to state the properties *)

Definition key_ltb (k : sort_key) (a b : Trace) : bool := negb (key_leb k b a).

(** The lexicographic order on the keys, the first key the most
    significant. *)
Fixpoint lex_leb (keys : list sort_key) (a b : Trace) : bool :=
  match keys with
  | [] => true
  | k :: keys' =>
      if key_ltb k a b then true
      else if key_ltb k b a then false
      else lex_leb keys' a b
  end.

Definition lex_le (keys : list sort_key) (a b : Trace) : Prop :=
  lex_leb keys a b = true.

(** The identifier of a trace: network, station, location, channel. *)
Definition id_keys : list sort_key :=
  [Key_network; Key_station; Key_location; Key_channel].

(** The world after one more logged call. *)
Definition logged (w : World) (cs : list call) : World :=
  mkWorld (calls w ++ cs) (figure w).

(** The calls [read_data] makes on the translational stream when the stream
    holds [n] traces at the time the response is removed, and the calls it
    makes on the rotational stream. *)
Definition trans_calls (tstart tend : UTC.t) (fmin fmax : Q) (n : nat)
  : list call :=
  [Call_read "2019_Etna/ZR.RS1..HH*" (UTC.sub tstart 30) (UTC.add tend 30);
   Call_print the_st_trans;
   Call_detrend the_st_trans "demean";
   Call_detrend the_st_trans "linear";
   Call_taper the_st_trans (1 # 100) "cosine";
   Call_taper the_st_trans (1 # 100) "cosine"]
  ++ List.concat (repeat
       [Call_read_inventory "2019_Etna/Stations_Etna_2019_seis.xml";
        Call_remove_response prefilt "VEL"] n)
  ++ [Call_detrend the_st_trans "demean";
      Call_detrend the_st_trans "linear";
      Call_taper the_st_trans (1 # 100) "cosine";
      Call_filter the_st_trans "bandpass" fmin fmax 2 true;
      Call_trim the_st_trans tstart tend;
      Call_sort the_st_trans].

Definition rot_calls (tstart tend : UTC.t) (fmin fmax : Q) : list call :=
  [Call_read "2019_Etna/ZR.RS1..HJ*" tstart tend;
   Call_print the_st_rot;
   Call_detrend the_st_rot "demean";
   Call_detrend the_st_rot "linear";
   Call_taper the_st_rot (1 # 100) "cosine";
   Call_taper the_st_rot (1 # 100) "cosine";
   Call_detrend the_st_rot "demean";
   Call_detrend the_st_rot "linear";
   Call_taper the_st_rot (1 # 100) "cosine";
   Call_filter the_st_rot "bandpass" fmin fmax 2 true;
   Call_trim the_st_rot tstart tend;
   Call_sort the_st_rot;
   Call_scale the_st_rot 0 (1 # 10 ^ 9);
   Call_scale the_st_rot 1 (1 # 10 ^ 9);
   Call_scale the_st_rot 2 (1 # 10 ^ 9);
   Call_integrate the_st_rot].

(** A trace with its samples multiplied by [factor]. *)
Definition scaled (factor : Q) (tr : Trace) : Trace :=
  mkTrace (stats tr) (ndarray_mul (data tr) factor).

(** The maximum absolute amplitude of a trace: [m] bounds every sample in
    absolute value and one sample attains it. *)
Definition is_max_abs (m : Q) (tr : Trace) : Prop :=
  (exists x, In x (data tr) /\ m = Qabs x) /\
  (forall x, In x (data tr) -> (Qabs x <= m)%Q).

(** ** The figure that [plotting_6C] draws

    What each of the six passes of the loop leaves in the figure: a
    seismogram panel, a spectrogram panel and a colour bar on an axes of its
    own.  [hide] says whether the x tick labels were switched off. *)

Definition seismogram_panel (i : nat) (tr : Trace) (label : string)
  (trans_max rot_max : Q) (hide : bool) : Axes :=
  mkAxes (SubplotPos 6 2 (1 + 2 * i)) [tr] []
         (Some (if (i <? 3)%nat then (- trans_max, trans_max)%Q
                else (- rot_max, rot_max)%Q))
         (Some (station (stats tr) ++ ": " ++ label)%string)
         (if (i =? 5)%nat then Some (TimeOn (starttime (stats tr))) else None)
         None (negb hide) (Some ("%H:%M:%S"%string, ticks)).

Definition spectrogram_image (i : nat) (tstart : UTC.t) (tr : Trace)
  (sp : Spectrum) : Mesh :=
  let fs := sampling_rate (stats tr) in
  let tshift := (UTC.diff (starttime (stats tr)) tstart * fs)%Q in
  mkMesh (map (fun x => x + tshift / fs)%Q (sp_t sp)) (sp_f sp) (sp_Sxx sp)
         (if (i <? 3)%nat then vmin1 else vmin)
         (if (i <? 3)%nat then vmax1 else vmax).

Definition spectrogram_panel (i : nat) (tstart : UTC.t) (tr : Trace)
  (sp : Spectrum) (hide : bool) : Axes :=
  mkAxes (SubplotPos 6 2 (2 + 2 * i)) [] [spectrogram_image i tstart tr sp]
         (Some (fmin, fmax)) (Some "Frequency (Hz)"%string)
         (if (i =? 5)%nat then Some (TimeFrom (starttime (stats tr)))
          else None)
         None (negb hide) None.

Definition colorbar_axes (i : nat) : Axes :=
  new_axes (if (i <? 3)%nat
            then RectPos (927 # 1000) (505 # 1000) (1 # 100) (37 # 100)
            else RectPos (927 # 1000) (11 # 100) (1 # 100) (37 # 100)).

Definition panel_colorbar (i : nat) (tstart : UTC.t) (tr : Trace)
  (sp : Spectrum) : Colorbar :=
  mkColorbar (spectrogram_image i tstart tr sp) (3 * i + 2)
             (if (i <? 3)%nat then "Spectral density ((m/s)$^2$/Hz)"%string
              else "Spectral density ((rad)$^2$/Hz)"%string).

(** What is drawn in panel [i]: the trace, its spectrum and its label. *)
Record Panel := mkPanel {
  p_index : nat;
  p_trace : Trace;
  p_spectrum : Spectrum;
  p_label : string
}.

Definition panel_axes (tstart : UTC.t) (trans_max rot_max : Q) (len : nat)
  (p : Panel) : list Axes :=
  let hide := negb (Z.of_nat (p_index p) =? Z.of_nat len - 1)%Z in
  [seismogram_panel (p_index p) (p_trace p) (p_label p) trans_max rot_max hide;
   spectrogram_panel (p_index p) tstart (p_trace p) (p_spectrum p) hide;
   colorbar_axes (p_index p)].

Definition figure_6C (tstart : UTC.t) (trans_max rot_max : Q) (len : nat)
  (ps : list Panel) : Figure :=
  mkFigure (flat_map (panel_axes tstart trans_max rot_max len) ps)
           (map (fun p => panel_colorbar (p_index p) tstart (p_trace p)
                                          (p_spectrum p)) ps)
           (Some (3 * List.length ps - 1)%nat).

(** The label a channel gets when [chan] is already bound to [c]. *)
Definition relabel (name : string) (c : string) : string :=
  match label_channel name (Some c) with
  | Some c' => c'
  | None => c
  end.

(** The six panels of a stream whose first six traces are [t0] to [t5]. *)
Definition panels_6C (t0 t1 t2 t3 t4 t5 : Trace)
  (s0 s1 s2 s3 s4 s5 : Spectrum) (c0 : string) : list Panel :=
  let c1 := relabel (channel (stats t1)) c0 in
  let c2 := relabel (channel (stats t2)) c1 in
  let c3 := relabel (channel (stats t3)) c2 in
  let c4 := relabel (channel (stats t4)) c3 in
  let c5 := relabel (channel (stats t5)) c4 in
  [mkPanel 0 t0 s0 c0; mkPanel 1 t1 s1 c1; mkPanel 2 t2 s2 c2;
   mkPanel 3 t3 s3 c3; mkPanel 4 t4 s4 c4; mkPanel 5 t5 s5 c5].

Definition spectrogram_call (tr : Trace) : call :=
  Call_spectrogram (npts tr) (sampling_rate (stats tr)) wlen overlap.

(** ** The log of calls *)

Definition is_read (c : call) : bool :=
  match c with Call_read _ _ _ => true | _ => false end.

Definition on_rot (c : call) : bool :=
  match c with
  | Call_print the_st_rot | Call_detrend the_st_rot _
  | Call_taper the_st_rot _ _ | Call_filter the_st_rot _ _ _ _ _
  | Call_trim the_st_rot _ _ | Call_sort the_st_rot
  | Call_scale the_st_rot _ _ | Call_integrate the_st_rot => true
  | _ => false
  end.

(** The steps of the processing of the rotational stream. *)
Definition is_rot_detrend_taper (c : call) : bool :=
  match c with
  | Call_detrend the_st_rot _ | Call_taper the_st_rot _ _ => true
  | _ => false
  end.

Definition is_rot_conversion (c : call) : bool :=
  match c with
  | Call_scale the_st_rot _ _ | Call_integrate the_st_rot => true
  | _ => false
  end.

Definition is_rot_filter_trim (c : call) : bool :=
  match c with
  | Call_filter the_st_rot _ _ _ _ _ | Call_trim the_st_rot _ _ => true
  | _ => false
  end.

Definition is_rot_sort (c : call) : bool :=
  match c with Call_sort the_st_rot => true | _ => false end.

(** Every call of kind [P] comes before every call of kind [Q]: from a call
    of kind [Q] on, no call is of kind [P]. *)
Definition precedes (P Q : call -> bool) (log : list call) : Prop :=
  forall l1 d l2, log = l1 ++ d :: l2 -> Q d = true ->
    Forall (fun c => P c = false) (d :: l2).

Fixpoint precedesb (P Q : call -> bool) (log : list call) : bool :=
  match log with
  | [] => true
  | d :: l =>
      (negb (Q d) || forallb (fun c => negb (P c)) (d :: l))
      && precedesb P Q l
  end.

(** ** Amplitudes of a group of channels *)

(** [m] is the maximum absolute amplitude over all the traces of [trs]. *)
Definition is_group_max (m : Q) (trs : list Trace) : Prop :=
  (exists tr x, In tr trs /\ In x (data tr) /\ m = Qabs x) /\
  (forall tr x, In tr trs -> In x (data tr) -> (Qabs x <= m)%Q).

(** ** Reading a figure *)

Definition count {A} (p : A -> bool) (l : list A) : nat :=
  List.length (List.filter p l).

Definition is_subplot (a : Axes) : bool :=
  match pos a with SubplotPos _ _ _ => true | RectPos _ _ _ _ => false end.

(** The column of a grid cell, counted from 0: [plt.subplot] numbers the
    cells from 1, row by row. *)
Definition in_column (col : nat) (a : Axes) : bool :=
  match pos a with
  | SubplotPos _ ncols idx => ((idx - 1) mod ncols =? col)%nat
  | RectPos _ _ _ _ => false
  end.

Definition is_seismogram (a : Axes) : bool :=
  match lines a, meshes a with _ :: _, [] => true | _, _ => false end.

Definition is_spectrogram (a : Axes) : bool :=
  match lines a, meshes a with [], _ :: _ => true | _, _ => false end.

(** Where the colour bars of a figure are drawn. *)
Definition colorbar_positions (fig : Figure) : list (option AxesPos) :=
  map (fun cb => option_map pos (nth_error (axes fig) (cb_cax cb)))
      (colorbars fig).

(** ** Channel names that [plotting_6C] has a label for *)

Definition known_channel (name : string) : bool :=
  existsb (String.eqb name)
    ["HHE"; "HHN"; "HHZ"; "HJ1"; "HJE"; "HJ2"; "HJN"; "HJ3"; "HJZ"]%string.

Definition label_of (name : string) : string :=
  if existsb (String.eqb name) ["HHE"; "HHN"; "HHZ"]%string
  then (name ++ " (m/s)")%string
  else if existsb (String.eqb name) ["HJ1"; "HJE"]%string then " HJE (rad)"
  else if existsb (String.eqb name) ["HJ2"; "HJN"]%string then " HJN (rad)"
  else " HJZ (rad)".

(** ** The six event windows *)

Definition event_windows : list (UTC.t * UTC.t) :=
  [(UTC.make 2019 9 4 15 52 0, UTC.add (UTC.make 2019 9 4 15 52 0) 120);
   (UTC.make 2019 9 17 18 40 30, UTC.add (UTC.make 2019 9 17 18 40 30) 120);
   (UTC.make 2019 8 27 14 21 0, UTC.add (UTC.make 2019 8 27 14 21 0) 90);
   (UTC.make 2019 8 27 12 18 0, UTC.add (UTC.make 2019 8 27 12 18 0) 90);
   (UTC.make 2019 9 8 12 18 0, UTC.add (UTC.make 2019 9 8 12 18 0) 120);
   (UTC.make 2019 9 9 12 18 0, UTC.add (UTC.make 2019 9 9 12 18 0) 120)].

(** Event [ii] runs from world [w] to world [w']: the data are read, then
    plotted. *)
Definition event_run (L : Library) (ii : nat) (w w' : World) : Prop :=
  exists tstart tend st trans_max rot_max filename w1,
    nth_error event_windows ii = Some (tstart, tend) /\
    read_data L tstart tend fmin fmax w
      = (inr (st, trans_max, rot_max, filename), w1) /\
    plotting_6C L tstart st trans_max rot_max filename w1 = (inr tt, w').

(** Event [ii] fails with [e] in world [w']: in [read_data], or in
    [plotting_6C] after [read_data] has returned. *)
Definition event_fails (L : Library) (ii : nat) (w : World) (e : exception)
  (w' : World) : Prop :=
  exists tstart tend,
    nth_error event_windows ii = Some (tstart, tend) /\
    (read_data L tstart tend fmin fmax w = (inl e, w') \/
     exists st trans_max rot_max filename w1,
       read_data L tstart tend fmin fmax w
         = (inr (st, trans_max, rot_max, filename), w1) /\
       plotting_6C L tstart st trans_max rot_max filename w1 = (inl e, w')).

(** ** Runs on the small library instance *)

Definition fixture_read_data : result (Stream * Q * Q * FileName) * World :=
  Eval vm_compute in
    read_data fixture fixture_tstart fixture_tend fmin fmax initial_world.

Definition fixture_st : Stream :=
  Eval vm_compute in
    match fst fixture_read_data with
    | inr (st, _, _, _) => st
    | inl _ => []
    end.

Definition fixture_trans_max : Q :=
  Eval vm_compute in
    match fst fixture_read_data with
    | inr (_, m, _, _) => m
    | inl _ => 0
    end.

Definition fixture_rot_max : Q :=
  Eval vm_compute in
    match fst fixture_read_data with
    | inr (_, _, m, _) => m
    | inl _ => 0
    end.

Definition fixture_filename : FileName :=
  mkFileName localpath fixture_tstart fmin fmax.

Definition fixture_world1 : World := Eval vm_compute in snd fixture_read_data.

Definition fixture_world2 : World :=
  Eval vm_compute in
    snd (plotting_6C fixture fixture_tstart fixture_st fixture_trans_max
           fixture_rot_max fixture_filename fixture_world1).

(** A stream whose first channel has a name that [plotting_6C] does not
    know. *)
Definition fixture_unknown : Stream :=
  fixture_trace "BHZ" [1; 2]%Q :: fixture_st.

(** ** What [read_data] computes, without the log

    The processing of the two streams up to their [sort], as functions of
    the library's answers alone. *)

Definition bind_result {A B} (r : result A) (k : A -> result B) : result B :=
  match r with
  | inl e => inl e
  | inr a => k a
  end.

Fixpoint map_result {A B} (f : A -> result B) (l : list A) : result (list B) :=
  match l with
  | [] => inr []
  | x :: l' =>
      bind_result (f x) (fun y =>
      bind_result (map_result f l') (fun l'' => inr (y :: l'')))
  end.

(** The stream handed to the loop that removes the instrument response. *)
Definition trans_before_response (L : Library) (tstart tend : UTC.t)
  : result Stream :=
  bind_result (lib_read L "2019_Etna/ZR.RS1..HH*" (UTC.sub tstart 30)
                        (UTC.add tend 30)) (fun st =>
  bind_result (lib_detrend L "demean" st) (fun st =>
  bind_result (lib_detrend L "linear" st) (fun st =>
  bind_result (lib_taper L (1 # 100) "cosine" st) (fun st =>
  lib_taper L (1 # 100) "cosine" st)))).

Definition trans_stream (L : Library) (tstart tend : UTC.t) (fmin fmax : Q)
  : result Stream :=
  bind_result (trans_before_response L tstart tend) (fun st =>
  bind_result
    (map_result (fun tr =>
       bind_result
         (lib_read_inventory L "2019_Etna/Stations_Etna_2019_seis.xml")
         (fun inv => lib_remove_response L inv prefilt "VEL" tr)) st)
    (fun st =>
  bind_result (lib_detrend L "demean" st) (fun st =>
  bind_result (lib_detrend L "linear" st) (fun st =>
  bind_result (lib_taper L (1 # 100) "cosine" st) (fun st =>
  bind_result (lib_filter L "bandpass" fmin fmax 2 true st) (fun st =>
  bind_result (lib_trim L tstart tend st) (fun st =>
  inr (Stream_sort st)))))))).

Definition rot_stream (L : Library) (tstart tend : UTC.t) (fmin fmax : Q)
  : result Stream :=
  bind_result (lib_read L "2019_Etna/ZR.RS1..HJ*" tstart tend) (fun st =>
  bind_result (lib_detrend L "demean" st) (fun st =>
  bind_result (lib_detrend L "linear" st) (fun st =>
  bind_result (lib_taper L (1 # 100) "cosine" st) (fun st =>
  bind_result (lib_taper L (1 # 100) "cosine" st) (fun st =>
  bind_result (lib_detrend L "demean" st) (fun st =>
  bind_result (lib_detrend L "linear" st) (fun st =>
  bind_result (lib_taper L (1 # 100) "cosine" st) (fun st =>
  bind_result (lib_filter L "bandpass" fmin fmax 2 true st) (fun st =>
  bind_result (lib_trim L tstart tend st) (fun st =>
  inr (Stream_sort st))))))))))).

(** The rotational stream after the unit conversion of its first three
    traces and the integration of all of them. *)
Definition rot_converted (x0 x1 x2 : Trace) (rest : Stream) : Stream :=
  Stream_integrate (scaled (1 # 10 ^ 9) x0 :: scaled (1 # 10 ^ 9) x1
                    :: scaled (1 # 10 ^ 9) x2 :: rest).

(** A figure with the y limits of its seismogram axes taken out. *)
Definition without_seismogram_ylim (fig : Figure) : Figure :=
  mkFigure
    (map (fun a =>
            if is_seismogram a
            then mkAxes (pos a) (lines a) (meshes a) None (ylabel a) (xlabel a)
                        (yscale a) (xticklabels_visible a) (time_axis_format a)
            else a)
         (axes fig))
    (colorbars fig) (gca fig).

(** Events [ii], [ii + 1], ... ([n] of them) run one after the other from
    world [w] to world [w']. *)
Fixpoint events_from (L : Library) (ii n : nat) (w w' : World) : Prop :=
  match n with
  | O => w = w'
  | S n' => exists w1, event_run L ii w w1 /\ events_from L (S ii) n' w1 w'
  end.

(** ** What a function may do to the world *)

(** [m] leaves the figure as it found it, whatever its outcome. *)
Definition keeps_figure {A} (m : M A) : Prop :=
  forall w, figure (snd (m w)) = figure w.

(** Whatever its outcome, the calls that [m] makes are all of kind [P]. *)
Definition calls_only {A} (P : call -> bool) (m : M A) : Prop :=
  forall w, exists cs,
    calls (snd (m w)) = calls w ++ cs /\ forallb P cs = true.

(** The calls of the signal processing, and those of the plotting. *)
Definition is_processing_call (c : call) : bool :=
  match c with
  | Call_spectrogram _ _ _ _ | Call_savefig _ _ _ _ | Call_show | Call_close =>
      false
  | _ => true
  end.

Definition is_plotting_call (c : call) : bool :=
  match c with
  | Call_spectrogram _ _ _ _ | Call_savefig _ _ _ _ | Call_show => true
  | _ => false
  end.

Definition is_read_inventory (c : call) : bool :=
  match c with Call_read_inventory _ => true | _ => false end.

Definition is_remove_response (c : call) : bool :=
  match c with Call_remove_response _ _ => true | _ => false end.

(** A library with a fourth rotational trace on file, one with only two,
    and one with no translational trace. *)
Definition fixture_four_rot : Library :=
  fixture_library fixture_trans
    (fixture_rot ++ [fixture_trace "HJ4" [2; 2]%Q]).

Definition fixture_two_rot : Library :=
  fixture_library fixture_trans
    [fixture_trace "HJ1" [3; 3; 3]%Q; fixture_trace "HJ2" [4; 4]%Q].

Definition fixture_no_trans : Library := fixture_library [] fixture_rot.

(** The run of [read_data] on the library with four rotational traces, and
    its sorted rotational stream. *)
Definition fixture_four_sorted : Stream :=
  [fixture_trace "HJ1" [3; 3; 3]%Q; fixture_trace "HJ2" [4; 4]%Q;
   fixture_trace "HJ3" [9; -9]%Q; fixture_trace "HJ4" [2; 2]%Q].

Definition fixture_four_st : Stream :=
  Eval vm_compute in
    match fst (read_data fixture_four_rot fixture_tstart fixture_tend fmin fmax
                 initial_world) with
    | inr (st, _, _, _) => st
    | inl _ => []
    end.

Definition fixture_four_rot_max : Q :=
  Eval vm_compute in
    match fst (read_data fixture_four_rot fixture_tstart fixture_tend fmin fmax
                 initial_world) with
    | inr (_, _, m, _) => m
    | inl _ => 0
    end.

Definition fixture_four_world : World :=
  Eval vm_compute in
    snd (read_data fixture_four_rot fixture_tstart fixture_tend fmin fmax
           initial_world).

(** The same library with a spectrogram routine that refuses a trace that is
    not longer than the overlap, and a trace it refuses. *)
Definition fixture_strict : Library :=
  {| Inventory := unit;
     lib_read := fixture_read fixture_trans fixture_rot;
     lib_detrend := fun _ st => inr st;
     lib_taper := fun _ _ st => inr st;
     lib_read_inventory := fun _ => inr tt;
     lib_remove_response := fun _ _ _ tr => inr tr;
     lib_filter := fun _ _ _ _ _ st => inr st;
     lib_trim := fun _ _ st => inr st;
     lib_spectrogram := fun x _ _ noverlap =>
       if Qle_bool (inject_Z (Z.of_nat (List.length x))) noverlap
       then inl ValueError
       else inr (mkSpectrum [0] [0] [[1]])%Q |}.

(** A library that finds no file. *)
Definition fixture_missing : Library :=
  {| Inventory := unit;
     lib_read := fun _ _ _ => inl (LibraryError "No file matching file pattern");
     lib_detrend := fun _ st => inr st;
     lib_taper := fun _ _ st => inr st;
     lib_read_inventory := fun _ => inr tt;
     lib_remove_response := fun _ _ _ tr => inr tr;
     lib_filter := fun _ _ _ _ _ st => inr st;
     lib_trim := fun _ _ st => inr st;
     lib_spectrogram := fun _ _ _ _ => inr (mkSpectrum [0] [0] [[1]])%Q |}.

(** * Properties *)

(** ** The order of [Stream.sort] *)

Lemma ascii_compare_lt_trans a b c :
  Ascii.compare a b = Lt -> Ascii.compare b c = Lt -> Ascii.compare a c = Lt.
Proof.
  unfold Ascii.compare. rewrite !N.compare_lt_iff. lia.
Qed.

Lemma string_compare_lt_trans : forall a b c,
  String.compare a b = Lt -> String.compare b c = Lt -> String.compare a c = Lt.
Proof.
  induction a as [|x a IH]; intros [|y b] [|z c]; simpl; try discriminate; auto.
  destruct (Ascii.compare x y) eqn:Exy; try discriminate;
  destruct (Ascii.compare y z) eqn:Eyz; try discriminate; intros H1 H2.
  - apply Ascii.compare_eq_iff in Exy, Eyz. subst.
    assert (E : Ascii.compare z z = Eq) by (unfold Ascii.compare; apply N.compare_refl).
    rewrite E. eauto.
  - apply Ascii.compare_eq_iff in Exy. subst. now rewrite Eyz.
  - apply Ascii.compare_eq_iff in Eyz. subst. now rewrite Exy.
  - now rewrite (ascii_compare_lt_trans _ _ _ Exy Eyz).
Qed.

Lemma string_compare_refl : forall a, String.compare a a = Eq.
Proof.
  induction a as [|x a IH]; simpl; auto.
  assert (E : Ascii.compare x x = Eq) by (unfold Ascii.compare; apply N.compare_refl).
  now rewrite E.
Qed.

Lemma string_leb_trans a b c :
  String.leb a b = true -> String.leb b c = true -> String.leb a c = true.
Proof.
  unfold String.leb.
  destruct (String.compare a b) eqn:Eab; try discriminate;
  destruct (String.compare b c) eqn:Ebc; try discriminate; intros _ _.
  - apply String.compare_eq_iff in Eab, Ebc. subst.
    now rewrite string_compare_refl.
  - apply String.compare_eq_iff in Eab. subst. now rewrite Ebc.
  - apply String.compare_eq_iff in Ebc. subst. now rewrite Eab.
  - now rewrite (string_compare_lt_trans _ _ _ Eab Ebc).
Qed.

Lemma key_leb_total k a b : key_leb k a b = true \/ key_leb k b a = true.
Proof.
  destruct k; simpl; try apply String.leb_total; lia.
Qed.

Lemma key_leb_trans k a b c :
  key_leb k a b = true -> key_leb k b c = true -> key_leb k a c = true.
Proof.
  destruct k; simpl; try apply string_leb_trans; lia.
Qed.

Lemma key_ltb_leb k a b : key_ltb k a b = true -> key_leb k a b = true.
Proof.
  unfold key_ltb. intros H. destruct (key_leb_total k a b) as [E|E]; auto.
  rewrite E in H. discriminate.
Qed.

Lemma lex_le_key k keys a b : lex_le (k :: keys) a b -> key_leb k a b = true.
Proof.
  unfold lex_le. simpl.
  destruct (key_ltb k a b) eqn:E1; [intros _; now apply key_ltb_leb|].
  destruct (key_ltb k b a) eqn:E2; [discriminate|].
  intros _. unfold key_ltb in E2. now destruct (key_leb k a b).
Qed.

Lemma lex_le_cons k keys a b :
  key_leb k a b = true -> lex_le keys a b -> lex_le (k :: keys) a b.
Proof.
  unfold lex_le. simpl. intros H1 H2.
  destruct (key_ltb k a b); auto.
  unfold key_ltb. rewrite H1. simpl. exact H2.
Qed.

Lemma lex_le_lt k keys a b : key_leb k b a = false -> lex_le (k :: keys) a b.
Proof.
  unfold lex_le. simpl. unfold key_ltb. intros ->. reflexivity.
Qed.

Lemma insert_by_perm leb x l : Permutation (x :: l) (insert_by leb x l).
Proof.
  induction l as [|y l IH]; simpl; auto.
  destruct (leb x y); auto.
  eapply perm_trans; [apply perm_swap|]. now constructor.
Qed.

Lemma list_sort_perm leb l : Permutation l (list_sort leb l).
Proof.
  induction l as [|x l IH]; simpl; auto.
  eapply perm_trans; [|apply insert_by_perm]. now constructor.
Qed.

Lemma insert_by_sorted k keys x l :
  Forall (lex_le keys x) l ->
  StronglySorted (lex_le (k :: keys)) l ->
  StronglySorted (lex_le (k :: keys)) (insert_by (key_leb k) x l).
Proof.
  induction l as [|y l IH]; simpl; intros Hx Hl.
  - repeat constructor.
  - inversion Hx as [|? ? Hxy Hxl]; subst.
    inversion Hl as [|? ? Hl' Hyl]; subst.
    destruct (key_leb k x y) eqn:E.
    + constructor; [exact Hl|].
      constructor; [now apply lex_le_cons|].
      rewrite Forall_forall in *. intros z Hz.
      apply lex_le_cons; [|now apply Hxl].
      eapply key_leb_trans; [exact E|]. eapply lex_le_key. now apply Hyl.
    + constructor; [now apply IH|].
      eapply Permutation_Forall; [apply insert_by_perm|].
      constructor; [now apply lex_le_lt | exact Hyl].
Qed.

Lemma list_sort_sorted k keys l :
  StronglySorted (lex_le keys) l ->
  StronglySorted (lex_le (k :: keys)) (list_sort (key_leb k) l).
Proof.
  induction l as [|x l IH]; simpl; intros Hl.
  - constructor.
  - inversion Hl as [|? ? Hl' Hx]; subst.
    apply insert_by_sorted; [|now apply IH].
    eapply Permutation_Forall; [apply list_sort_perm | exact Hx].
Qed.

Lemma Stream_sort_keys_cons k keys st :
  Stream_sort_keys (k :: keys) st =
  list_sort (key_leb k) (Stream_sort_keys keys st).
Proof.
  unfold Stream_sort_keys. simpl. now rewrite fold_left_app.
Qed.

Lemma lex_le_nil_sorted l : StronglySorted (lex_le []) l.
Proof.
  induction l; constructor; auto. apply Forall_forall. intros; reflexivity.
Qed.

Lemma Stream_sort_keys_sorted keys st :
  StronglySorted (lex_le keys) (Stream_sort_keys keys st).
Proof.
  induction keys as [|k keys IH].
  - apply lex_le_nil_sorted.
  - rewrite Stream_sort_keys_cons. now apply list_sort_sorted.
Qed.

Lemma Stream_sort_keys_perm keys st : Permutation st (Stream_sort_keys keys st).
Proof.
  induction keys as [|k keys IH].
  - apply Permutation_refl.
  - rewrite Stream_sort_keys_cons.
    eapply perm_trans; [exact IH | apply list_sort_perm].
Qed.

Lemma lex_le_prefix keys keys' a b :
  lex_le (keys ++ keys') a b -> lex_le keys a b.
Proof.
  unfold lex_le. induction keys as [|k keys IH]; simpl; auto.
  destruct (key_ltb k a b); auto. destruct (key_ltb k b a); auto.
Qed.

Lemma StronglySorted_weaken {A} (R R' : A -> A -> Prop) l :
  (forall a b, R a b -> R' a b) -> StronglySorted R l -> StronglySorted R' l.
Proof.
  intros HR. induction 1; constructor; auto.
  eapply Forall_impl; [|eassumption]. auto.
Qed.

Lemma Stream_sort_sorted st : StronglySorted (lex_le default_keys) (Stream_sort st).
Proof. apply Stream_sort_keys_sorted. Qed.

Lemma Stream_sort_sorted_id st : StronglySorted (lex_le id_keys) (Stream_sort st).
Proof.
  eapply StronglySorted_weaken; [|apply Stream_sort_sorted].
  intros a b. apply (lex_le_prefix id_keys [Key_starttime; Key_endtime]).
Qed.

(** ** Running the monad *)

Lemma bind_inr {A B} (m : M A) (k : A -> M B) w b w' :
  bind m k w = (inr b, w') ->
  exists a w1, m w = (inr a, w1) /\ k a w1 = (inr b, w').
Proof.
  unfold bind. destruct (m w) as [[e|a] w1]; [discriminate|]. eauto.
Qed.

Lemma bind_run {A B} (m : M A) (k : A -> M B) w a w1 :
  m w = (inr a, w1) -> bind m k w = k a w1.
Proof. unfold bind. now intros ->. Qed.

Lemma bind_fail {A B} (m : M A) (k : A -> M B) w e w1 :
  m w = (inl e, w1) -> bind m k w = (inl e, w1).
Proof. unfold bind. now intros ->. Qed.

Lemma call_inr {A} c (r : result A) w a w' :
  (tell c ;;; lift r) w = (inr a, w') -> r = inr a /\ w' = logged w [c].
Proof.
  unfold bind, tell, lift, logged. destruct r; cbn; intros H; inversion H; auto.
Qed.

Lemma call_run {A} c (r : result A) w a :
  r = inr a -> (tell c ;;; lift r) w = (inr a, logged w [c]).
Proof. intros ->. reflexivity. Qed.

Lemma logged_logged w cs cs' : logged (logged w cs) cs' = logged w (cs ++ cs').
Proof. unfold logged. cbn. now rewrite app_assoc. Qed.

Lemma logged_nil w : logged w [] = w.
Proof. unfold logged. rewrite app_nil_r. now destruct w. Qed.

Lemma ret_inr {A} (a b : A) w w' :
  ret a w = (inr b, w') -> a = b /\ w = w'.
Proof. unfold ret. intros H. now inversion H. Qed.

Lemma tuple4_eq {A B C D} (a a' : A) (b b' : B) (c c' : C) (d d' : D) :
  (a, b, c, d) = (a', b', c', d') -> a = a' /\ b = b' /\ c = c' /\ d = d'.
Proof. intros H. now inversion H. Qed.

Lemma index_inr {A} (xs : list A) i w a w' :
  index xs i w = (inr a, w') -> nth_error xs i = Some a /\ w' = w.
Proof.
  unfold index. destruct (nth_error xs i); cbn; intros H; inversion H; auto.
Qed.

Lemma lift_inr {A} (r : result A) w a w' :
  lift r w = (inr a, w') -> r = inr a /\ w' = w.
Proof. destruct r; cbn; intros H; inversion H; auto. Qed.

Section ReadData.

Variable L : Library.

Lemma scale_inr who i f st w st' w' :
  scale who i f st w = (inr st', w') ->
  exists tr, nth_error st i = Some tr /\
             st' = set_nth st i (scaled f tr) /\
             w' = logged w [Call_scale who i f].
Proof.
  unfold scale. intros H.
  apply bind_inr in H. destruct H as (tr & w1 & H1 & H).
  apply index_inr in H1. destruct H1 as [H1 ->].
  cbn in H. inversion H. eauto.
Qed.

Lemma remove_response_loop_inr p pf out st : forall w st' w',
  for_each_trace st (fun tr =>
    inv <- read_inventory L p ;; remove_response L inv pf out tr) w
  = (inr st', w') ->
  List.length st' = List.length st /\
  w' = logged w (List.concat (repeat
         [Call_read_inventory p; Call_remove_response pf out] (List.length st))).
Proof.
  induction st as [|tr st IH]; intros w st' w' H.
  - cbn in H. inversion H. split; auto. now rewrite logged_nil.
  - cbn [for_each_trace] in H.
    apply bind_inr in H. destruct H as (tr' & w1 & H1 & H).
    apply bind_inr in H. destruct H as (rest & w2 & H2 & H).
    cbn in H. inversion H; subst. clear H.
    apply bind_inr in H1. destruct H1 as (inv & w3 & H1 & H3).
    apply call_inr in H1. destruct H1 as [_ ->].
    apply call_inr in H3. destruct H3 as [_ ->].
    apply IH in H2. destruct H2 as [Hlen ->].
    split; [cbn; now rewrite Hlen|].
    rewrite !logged_logged. reflexivity.
Qed.

End ReadData.

Lemma set_nth_3 {A} (s : list A) x0 x1 x2 (f : A -> A) :
  nth_error s 0 = Some x0 ->
  nth_error (set_nth s 0 (f x0)) 1 = Some x1 ->
  nth_error (set_nth (set_nth s 0 (f x0)) 1 (f x1)) 2 = Some x2 ->
  exists rest, s = x0 :: x1 :: x2 :: rest /\
    set_nth (set_nth (set_nth s 0 (f x0)) 1 (f x1)) 2 (f x2)
    = f x0 :: f x1 :: f x2 :: rest.
Proof.
  destruct s as [|y0 [|y1 [|y2 rest]]]; cbn; try discriminate.
  intros H0 H1 H2. inversion H0; inversion H1; inversion H2; subst. eauto.
Qed.

Lemma print_inr who w u w' :
  print who w = (inr u, w') -> w' = logged w [Call_print who].
Proof. cbn. intros H. now inversion H. Qed.

Lemma sort_inr who st w st' w' :
  sort who st w = (inr st', w') ->
  st' = Stream_sort st /\ w' = logged w [Call_sort who].
Proof. cbn. intros H. now inversion H. Qed.

Lemma integrate_inr who st w st' w' :
  integrate who st w = (inr st', w') ->
  st' = Stream_integrate st /\ w' = logged w [Call_integrate who].
Proof. cbn. intros H. now inversion H. Qed.

Section ReadDataInv.

Variable L : Library.

Lemma read_inr p ts te w st w' :
  read L p ts te w = (inr st, w') ->
  lib_read L p ts te = inr st /\ w' = logged w [Call_read p ts te].
Proof. apply call_inr. Qed.

Lemma detrend_inr who ty st w st' w' :
  detrend L who ty st w = (inr st', w') ->
  lib_detrend L ty st = inr st' /\ w' = logged w [Call_detrend who ty].
Proof. apply call_inr. Qed.

Lemma taper_inr who p ty st w st' w' :
  taper L who p ty st w = (inr st', w') ->
  lib_taper L p ty st = inr st' /\ w' = logged w [Call_taper who p ty].
Proof. apply call_inr. Qed.

Lemma filter_inr who ty lo hi c z st w st' w' :
  filter L who ty lo hi c z st w = (inr st', w') ->
  lib_filter L ty lo hi c z st = inr st' /\
  w' = logged w [Call_filter who ty lo hi c z].
Proof. apply call_inr. Qed.

Lemma trim_inr who ts te st w st' w' :
  trim L who ts te st w = (inr st', w') ->
  lib_trim L ts te st = inr st' /\ w' = logged w [Call_trim who ts te].
Proof. apply call_inr. Qed.

Ltac run_op H :=
  lazymatch type of H with
  | print _ _ = _ => apply print_inr in H
  | sort _ _ _ = _ => apply sort_inr in H; destruct H as [? H]
  | integrate _ _ _ = _ => apply integrate_inr in H; destruct H as [? H]
  | scale _ _ _ _ _ = _ => apply scale_inr in H; destruct H as (? & ? & ? & H)
  | for_each_trace _ _ _ = _ =>
      apply remove_response_loop_inr in H; destruct H as [? H]
  | index _ _ _ = _ => apply index_inr in H; destruct H as [? H]
  | lift _ _ = _ => apply lift_inr in H; destruct H as [? H]
  | read _ _ _ _ _ = _ => apply read_inr in H; destruct H as [? H]
  | detrend _ _ _ _ _ = _ => apply detrend_inr in H; destruct H as [? H]
  | taper _ _ _ _ _ _ = _ => apply taper_inr in H; destruct H as [? H]
  | filter _ _ _ _ _ _ _ _ _ = _ => apply filter_inr in H; destruct H as [? H]
  | trim _ _ _ _ _ _ = _ => apply trim_inr in H; destruct H as [? H]
  end.

Ltac run_step H :=
  let x := fresh "x" in
  let w1 := fresh "w" in
  let H1 := fresh "E" in
  apply bind_inr in H; destruct H as (x & w1 & H1 & H);
  run_op H1; rewrite H1 in H; clear H1; try rewrite logged_logged in H.

(** What a run of [read_data] that returns has done. *)
Lemma read_data_inr tstart tend fmin fmax w st trans_max rot_max filename w' :
  read_data L tstart tend fmin fmax w
  = (inr (st, trans_max, rot_max, filename), w') ->
  exists t_raw t_f t_in r_raw r_f r_in n x0 x1 x2 rest ta va tb vb,
    lib_read L "2019_Etna/ZR.RS1..HH*" (UTC.sub tstart 30) (UTC.add tend 30)
      = inr t_raw /\
    lib_read L "2019_Etna/ZR.RS1..HJ*" tstart tend = inr r_raw /\
    Stream_sort r_in = x0 :: x1 :: x2 :: rest /\
    st = Stream_sort t_in ++
         Stream_integrate (scaled (1 # 10 ^ 9) x0 :: scaled (1 # 10 ^ 9) x1
                           :: scaled (1 # 10 ^ 9) x2 :: rest) /\
    lib_trim L tstart tend t_f = inr t_in /\
    lib_trim L tstart tend r_f = inr r_in /\
    nth_error (Stream_sort t_in) 0 = Some ta /\
    Trace_max ta = inr va /\ trans_max = np_abs va /\
    tb = Trace_integrate (scaled (1 # 10 ^ 9) x0) /\
    Trace_max tb = inr vb /\ rot_max = np_abs vb /\
    filename = mkFileName localpath tstart fmin fmax /\
    w' = logged w (trans_calls tstart tend fmin fmax n
                   ++ rot_calls tstart tend fmin fmax).
Proof.
  unfold read_data. intros H.
  repeat run_step H.
  apply ret_inr in H. destruct H as [H <-].
  apply tuple4_eq in H. destruct H as (<- & <- & <- & <-).
  subst.
  match goal with
  | H0 : nth_error (Stream_sort ?s) 0 = Some _,
    H1 : nth_error (set_nth (Stream_sort ?s) 0 _) 1 = Some _,
    H2 : nth_error (set_nth (set_nth (Stream_sort ?s) 0 _) 1 _) 2 = Some _
    |- _ =>
      destruct (set_nth_3 _ _ _ _ (scaled (1 # 10 ^ 9)) H0 H1 H2)
        as (rest & Hs & Hs');
      rewrite Hs' in *; clear H0 H1 H2
  end.
  match goal with
  | H : nth_error (Stream_integrate (_ :: _)) 0 = Some _ |- _ =>
      cbn in H; inversion H; subst; clear H
  end.
  do 15 eexists.
  repeat match goal with |- _ /\ _ => split end;
    first [eassumption | reflexivity | idtac].
  f_equal. unfold trans_calls, rot_calls.
  repeat rewrite <- app_assoc. cbn [app]. reflexivity.
Qed.

End ReadDataInv.

(** ** [Trace.max] *)

Lemma Qltb_true a b : Qltb a b = true -> (a < b)%Q.
Proof.
  unfold Qltb. destruct (Qle_bool b a) eqn:E; [discriminate|]. intros _.
  apply Qnot_le_lt. intros H. apply Qle_bool_iff in H. congruence.
Qed.

Lemma Qltb_false a b : Qltb a b = false -> (b <= a)%Q.
Proof.
  unfold Qltb. destruct (Qle_bool b a) eqn:E; [|discriminate]. intros _.
  now apply Qle_bool_iff.
Qed.

Lemma fold_max_spec xs : forall x,
  In (fold_max x xs) (x :: xs) /\
  (forall y, In y (x :: xs) -> (y <= fold_max x xs)%Q).
Proof.
  induction xs as [|a xs IH]; intros x; cbn [fold_max].
  - split; [now left|]. intros y [<-|[]]. apply Qle_refl.
  - destruct (IH (if Qltb x a then a else x)) as [Hin Hle].
    destruct (Qltb x a) eqn:E.
    + apply Qltb_true in E. split.
      * destruct Hin as [<-|Hin]; [right; now left | right; now right].
      * intros y [<-|[<-|Hy]].
        -- eapply Qle_trans; [apply Qlt_le_weak, E | apply Hle; now left].
        -- apply Hle. now left.
        -- apply Hle. now right.
    + apply Qltb_false in E. split.
      * destruct Hin as [<-|Hin]; [now left | right; now right].
      * intros y [<-|[<-|Hy]].
        -- apply Hle. now left.
        -- eapply Qle_trans; [exact E | apply Hle; now left].
        -- apply Hle. now right.
Qed.

Lemma fold_min_spec xs : forall x,
  In (fold_min x xs) (x :: xs) /\
  (forall y, In y (x :: xs) -> (fold_min x xs <= y)%Q).
Proof.
  induction xs as [|a xs IH]; intros x; cbn [fold_min].
  - split; [now left|]. intros y [<-|[]]. apply Qle_refl.
  - destruct (IH (if Qltb a x then a else x)) as [Hin Hle].
    destruct (Qltb a x) eqn:E.
    + apply Qltb_true in E. split.
      * destruct Hin as [<-|Hin]; [right; now left | right; now right].
      * intros y [<-|[<-|Hy]].
        -- eapply Qle_trans; [apply Hle; now left | apply Qlt_le_weak, E].
        -- apply Hle. now left.
        -- apply Hle. now right.
    + apply Qltb_false in E. split.
      * destruct Hin as [<-|Hin]; [now left | right; now right].
      * intros y [<-|[<-|Hy]].
        -- apply Hle. now left.
        -- eapply Qle_trans; [apply Hle; now left | exact E].
        -- apply Hle. now right.
Qed.

Lemma Qabs_between lo hi y m :
  (lo <= y)%Q -> (y <= hi)%Q -> (Qabs lo <= m)%Q -> (Qabs hi <= m)%Q ->
  (Qabs y <= m)%Q.
Proof.
  intros Hlo Hhi Hl Hh.
  apply Qabs_Qle_condition in Hl. apply Qabs_Qle_condition in Hh.
  apply Qabs_Qle_condition. split.
  - eapply Qle_trans; [apply Hl | exact Hlo].
  - eapply Qle_trans; [exact Hhi | apply Hh].
Qed.

(** [np.abs(tr.max())] is the maximum absolute amplitude of [tr]. *)
Lemma Trace_max_is_max_abs tr v :
  Trace_max tr = inr v -> is_max_abs (np_abs v) tr.
Proof.
  unfold Trace_max, ndarray_max, ndarray_min, is_max_abs, np_abs.
  destruct (data tr) as [|x xs]; [discriminate|].
  destruct (fold_max_spec xs x) as [Hmax_in Hmax].
  destruct (fold_min_spec xs x) as [Hmin_in Hmin].
  destruct (Qltb (Qabs (fold_max x xs)) (Qabs (fold_min x xs))) eqn:E;
    intros H; injection H as <-.
  - apply Qltb_true in E. split; [eauto|].
    intros y Hy. apply (Qabs_between (fold_min x xs) (fold_max x xs)); auto.
    + apply Qle_refl.
    + now apply Qlt_le_weak.
  - apply Qltb_false in E. split; [eauto|].
    intros y Hy. apply (Qabs_between (fold_min x xs) (fold_max x xs)); auto.
    apply Qle_refl.
Qed.

Lemma Trace_max_total tr :
  data tr <> [] -> exists v, Trace_max tr = inr v.
Proof.
  unfold Trace_max, ndarray_max, ndarray_min.
  destruct (data tr) as [|x xs]; [congruence|]. intros _.
  destruct (Qltb _ _); eauto.
Qed.

(** ** [Stream.integrate] *)

Lemma cumsum_trapz_const dx c : forall n acc k,
  (k < n)%nat ->
  (nth k (cumsum_trapz acc dx (repeat c (S n))) 0
   == acc + inject_Z (Z.of_nat (S k)) * (dx * c))%Q.
Proof.
  induction n as [|n IH]; intros acc k Hk; [lia|].
  cbn [repeat cumsum_trapz].
  destruct k as [|k].
  - cbn [nth]. change (inject_Z (Z.of_nat 1)) with 1%Q. field.
  - cbn [nth]. change (c :: repeat c n) with (repeat c (S n)).
    eapply Qeq_trans; [apply IH; lia|].
    rewrite (Nat2Z.inj_succ (S k)). unfold Z.succ. rewrite inject_Z_plus.
    change (inject_Z 1) with 1%Q. field.
Qed.

(** Integrating a constant: sample [k] of the result is [k * dx * c]. *)
Lemma cumtrapz_const dx c n k :
  (k < n)%nat ->
  (nth k (cumtrapz (repeat c n) dx) 0 == inject_Z (Z.of_nat k) * dx * c)%Q.
Proof.
  intros Hk. unfold cumtrapz. destruct n as [|n]; [lia|].
  destruct k as [|k].
  - cbn [nth]. change (inject_Z (Z.of_nat 0)) with 0%Q. ring.
  - cbn [nth]. eapply Qeq_trans; [apply cumsum_trapz_const; lia|]. ring.
Qed.

Lemma ndarray_mul_repeat c f n :
  ndarray_mul (repeat c n) f = repeat (c * f)%Q n.
Proof.
  unfold ndarray_mul. induction n; cbn; congruence.
Qed.

(** ** Running pyplot *)

Lemma bind_assoc {A B C} (m : M A) (k : A -> M B) (k' : B -> M C) w :
  bind (bind m k) k' w = bind m (fun a => bind (k a) k') w.
Proof. unfold bind. destruct (m w) as [[e|a] w1]; reflexivity. Qed.

Lemma index_run {A} (xs : list A) i a w :
  nth_error xs i = Some a -> index xs i w = (inr a, w).
Proof. unfold index. now intros ->. Qed.

Lemma nth_error_at {A} (pre : list A) a tl :
  nth_error (pre ++ a :: tl) (List.length pre) = Some a.
Proof. induction pre; cbn; auto. Qed.

Lemma set_nth_at {A} (pre : list A) a tl v :
  set_nth (pre ++ a :: tl) (List.length pre) v = pre ++ v :: tl.
Proof. induction pre; cbn; congruence. Qed.

Lemma update_axes_at0 cs pre a tl cbs g f :
  update_axes (List.length pre) f (mkWorld cs (mkFigure (pre ++ a :: tl) cbs g))
  = (inr tt, mkWorld cs (mkFigure (pre ++ f a :: tl) cbs g)).
Proof.
  unfold update_axes, bind, get_figure, put_figure. cbn [figure axes calls].
  rewrite nth_error_at, set_nth_at. reflexivity.
Qed.

Lemma update_axes_at1 cs pre a b tl cbs g f :
  update_axes (S (List.length pre)) f
    (mkWorld cs (mkFigure (pre ++ a :: b :: tl) cbs g))
  = (inr tt, mkWorld cs (mkFigure (pre ++ a :: f b :: tl) cbs g)).
Proof.
  pose proof (update_axes_at0 cs (pre ++ [a]) b tl cbs g f) as H.
  rewrite last_length, <- !app_assoc in H. exact H.
Qed.

Lemma find_axes_snoc_none p a : forall l k,
  find_axes p k l = None -> same_pos p (pos a) = false ->
  find_axes p k (l ++ [a]) = None.
Proof.
  induction l as [|b l IH]; intros k; cbn [find_axes app].
  - now intros _ ->.
  - destruct (same_pos p (pos b)); [discriminate|]. apply IH.
Qed.

Lemma subplot_pos_distinct i :
  same_pos (SubplotPos 6 2 (2 + 2 * i)) (SubplotPos 6 2 (1 + 2 * i)) = false.
Proof.
  unfold same_pos. rewrite !Nat.eqb_refl. cbn [andb]. apply Nat.eqb_neq. lia.
Qed.

Lemma plt_subplot_new r c i cs axs cbs g :
  find_axes (SubplotPos r c i) 0 axs = None ->
  plt_subplot r c i (mkWorld cs (mkFigure axs cbs g))
  = (inr (List.length axs),
     mkWorld cs (mkFigure (axs ++ [new_axes (SubplotPos r c i)]) cbs
                          (Some (List.length axs)))).
Proof.
  intros H. unfold plt_subplot, bind, get_figure. cbn [figure axes colorbars].
  rewrite H. reflexivity.
Qed.

Lemma plt_gca_run cs axs cbs k :
  plt_gca (mkWorld cs (mkFigure axs cbs (Some k)))
  = (inr k, mkWorld cs (mkFigure axs cbs (Some k))).
Proof. reflexivity. Qed.

Lemma fig_add_axes_run l b w h cs axs cbs g :
  fig_add_axes l b w h (mkWorld cs (mkFigure axs cbs g))
  = (inr (List.length axs),
     mkWorld cs (mkFigure (axs ++ [new_axes (RectPos l b w h)]) cbs
                          (Some (List.length axs)))).
Proof. reflexivity. Qed.

Lemma plt_colorbar_run img cax label cs axs cbs g :
  plt_colorbar img cax label (mkWorld cs (mkFigure axs cbs g))
  = (inr (mkColorbar img cax label),
     mkWorld cs (mkFigure axs (cbs ++ [mkColorbar img cax label]) g)).
Proof. reflexivity. Qed.

Lemma label_channel_bound name c :
  label_channel name (Some c) = Some (relabel name c).
Proof.
  unfold relabel, label_channel.
  repeat match goal with |- context [if ?b then _ else _] => destruct b end;
    reflexivity.
Qed.

Section Plotting.

Variable L : Library.

(** [plot_spectrogram] on the current axes, the last one of the figure. *)
Lemma plot_spectrogram_last tr lo hi tstart wl ov sp cs pre a cbs :
  lib_spectrogram L (data tr) (sampling_rate (stats tr)) wl ov = inr sp ->
  let fs := sampling_rate (stats tr) in
  let img := mkMesh (map (fun x => x + UTC.diff (starttime (stats tr)) tstart
                                       * fs / fs)%Q (sp_t sp))
                    (sp_f sp) (sp_Sxx sp) lo hi in
  plot_spectrogram L (List.length pre) tr lo hi tstart wl ov
    (mkWorld cs (mkFigure (pre ++ [a]) cbs (Some (List.length pre))))
  = (inr img,
     mkWorld (cs ++ [Call_spectrogram (npts tr) fs wl ov])
       (mkFigure (pre ++ [ax_set_ylabel "Frequency (Hz)"
                            (ax_set_ylim fmin fmax (ax_add_mesh img a))])
                 cbs (Some (List.length pre)))).
Proof.
  intros H fs img. unfold plot_spectrogram.
  erewrite bind_run by (unfold spectrogram; apply call_run; exact H).
  unfold logged. cbn [calls figure]. unfold plt_pcolormesh.
  rewrite bind_assoc. erewrite bind_run by apply plt_gca_run.
  rewrite bind_assoc. erewrite bind_run by apply update_axes_at0.
  erewrite bind_run by reflexivity.
  erewrite bind_run by apply update_axes_at0.
  erewrite bind_run by apply update_axes_at0.
  reflexivity.
Qed.

(** The same on the second of the two axes that a pass of the loop of
    [plotting_6C] adds. *)
Lemma plot_spectrogram_at1 tr lo hi tstart wl ov sp cs pre a0 a cbs :
  lib_spectrogram L (data tr) (sampling_rate (stats tr)) wl ov = inr sp ->
  let fs := sampling_rate (stats tr) in
  let img := mkMesh (map (fun x => x + UTC.diff (starttime (stats tr)) tstart
                                       * fs / fs)%Q (sp_t sp))
                    (sp_f sp) (sp_Sxx sp) lo hi in
  plot_spectrogram L (S (List.length pre)) tr lo hi tstart wl ov
    (mkWorld cs (mkFigure (pre ++ [a0; a]) cbs (Some (S (List.length pre)))))
  = (inr img,
     mkWorld (cs ++ [Call_spectrogram (npts tr) fs wl ov])
       (mkFigure (pre ++ [a0; ax_set_ylabel "Frequency (Hz)"
                                (ax_set_ylim fmin fmax (ax_add_mesh img a))])
                 cbs (Some (S (List.length pre))))).
Proof.
  intros H fs img.
  pose proof (plot_spectrogram_last tr lo hi tstart wl ov sp cs (pre ++ [a0])
                a cbs H) as E.
  cbv zeta in E. rewrite last_length, <- !app_assoc in E. exact E.
Qed.

Ltac norm_world :=
  cbv beta; cbn [calls figure axes colorbars gca];
  rewrite <- ?app_assoc; cbn [app]; rewrite ?last_length.

Ltac step :=
  lazymatch goal with
  | |- bind (bind _ _) _ _ = _ => rewrite bind_assoc
  | |- bind (if ?b then _ else _) _ _ = _ => destruct b
  | |- bind (index _ _) _ _ = _ =>
      erewrite bind_run by (apply index_run; eassumption)
  | |- bind (update_axes _ _) _ _ = _ =>
      erewrite bind_run by
        (first [apply update_axes_at0 | apply update_axes_at1])
  | |- bind (plot_seismogram _ _) _ _ = _ =>
      erewrite bind_run by (unfold plot_seismogram; apply update_axes_at0)
  | |- bind plt_gca _ _ = _ => erewrite bind_run by apply plt_gca_run
  | |- bind (fig_add_axes _ _ _ _) _ _ = _ =>
      erewrite bind_run by apply fig_add_axes_run
  | |- bind (plt_colorbar _ _ _) _ _ = _ =>
      erewrite bind_run by apply plt_colorbar_run
  | |- bind (plt_subplot _ _ _) _ _ = _ =>
      erewrite bind_run by
        (apply plt_subplot_new;
         first [ assumption
               | apply find_axes_snoc_none;
                 [assumption | apply subplot_pos_distinct] ])
  | |- bind (plot_spectrogram _ _ _ _ _ _ _ _) _ _ = _ =>
      erewrite bind_run by
        (apply plot_spectrogram_at1; eassumption)
  | |- bind _ _ _ = _ => erewrite bind_run by reflexivity
  end; norm_world.

(** One pass of the loop of [plotting_6C] on a figure that holds the panels
    of the passes before. *)
Lemma plotting_6C_body_run tstart st tm rm i chan cs axs cbs g tr sp c :
  nth_error st i = Some tr ->
  List.length axs = (3 * i)%nat ->
  find_axes (SubplotPos 6 2 (1 + 2 * i)) 0 axs = None ->
  find_axes (SubplotPos 6 2 (2 + 2 * i)) 0 axs = None ->
  lib_spectrogram L (data tr) (sampling_rate (stats tr)) wlen overlap = inr sp ->
  label_channel (channel (stats tr)) chan = Some c ->
  plotting_6C_body L tstart st tm rm i chan (mkWorld cs (mkFigure axs cbs g))
  = (inr (Some c),
     mkWorld (cs ++ [spectrogram_call tr])
       (mkFigure (axs ++ panel_axes tstart tm rm (List.length st)
                                    (mkPanel i tr sp c))
                 (cbs ++ [panel_colorbar i tstart tr sp])
                 (Some (3 * i + 2)%nat))).
Proof.
  intros Hi Hlen Hf0 Hf1 Hsp Hc.
  unfold plotting_6C_body, panel_axes, seismogram_panel, spectrogram_panel,
    colorbar_axes, panel_colorbar, spectrogram_image, spectrogram_call.
  cbn [p_index p_trace p_spectrum p_label]. cbv zeta.
  destruct (i <? 3)%nat, (i =? 5)%nat,
    (negb (Z.of_nat i =? Z.of_nat (List.length st) - 1)%Z).
  all: repeat (rewrite ?Hc; step).
  all: unfold ret; rewrite ?length_app, ?Hlen; cbn [List.length].
  all: reflexivity.
Qed.

Lemma plt_savefig_run name fmt dpi cs fig :
  plt_savefig name fmt dpi (mkWorld cs fig)
  = (inr tt, mkWorld (cs ++ [Call_savefig name fmt dpi fig]) fig).
Proof. reflexivity. Qed.

Ltac pass Hst Hc :=
  erewrite bind_run by
    (apply plotting_6C_body_run;
     [ rewrite Hst; reflexivity | reflexivity | reflexivity | reflexivity | eassumption
     | first [exact Hc | apply label_channel_bound] ]);
  norm_world.

(** A run of [plotting_6C] on a stream of at least six traces whose
    spectrograms can be computed and whose first channel has a label. *)
Lemma plotting_6C_run tstart st trans_max rot_max filename w
      t0 t1 t2 t3 t4 t5 rest s0 s1 s2 s3 s4 s5 c0 :
  st = t0 :: t1 :: t2 :: t3 :: t4 :: t5 :: rest ->
  lib_spectrogram L (data t0) (sampling_rate (stats t0)) wlen overlap = inr s0 ->
  lib_spectrogram L (data t1) (sampling_rate (stats t1)) wlen overlap = inr s1 ->
  lib_spectrogram L (data t2) (sampling_rate (stats t2)) wlen overlap = inr s2 ->
  lib_spectrogram L (data t3) (sampling_rate (stats t3)) wlen overlap = inr s3 ->
  lib_spectrogram L (data t4) (sampling_rate (stats t4)) wlen overlap = inr s4 ->
  lib_spectrogram L (data t5) (sampling_rate (stats t5)) wlen overlap = inr s5 ->
  label_channel (channel (stats t0)) None = Some c0 ->
  let fig := figure_6C tstart trans_max rot_max (List.length st)
               (panels_6C t0 t1 t2 t3 t4 t5 s0 s1 s2 s3 s4 s5 c0) in
  plotting_6C L tstart st trans_max rot_max filename w
  = (inr tt,
     mkWorld (calls w ++ map spectrogram_call [t0; t1; t2; t3; t4; t5]
                      ++ [Call_savefig filename "png" 500 fig; Call_show])
             fig).
Proof.
  intros Hst H0 H1 H2 H3 H4 H5 Hc fig. subst fig.
  destruct w as [cs f0]. cbn [calls].
  unfold plotting_6C, plt_figure.
  erewrite bind_run by reflexivity. norm_world.
  cbn [seq for_each_acc].
  repeat (rewrite bind_assoc; pass Hst Hc).
  erewrite bind_run by reflexivity. norm_world.
  erewrite bind_run by apply plt_savefig_run. norm_world.
  unfold plt_show, tell. norm_world. reflexivity.
Qed.

(** A pass of the loop that finds [chan] unbound stops before the
    spectrogram is computed. *)
Lemma plotting_6C_body_unbound tstart st tm rm i cs axs cbs g tr :
  nth_error st i = Some tr ->
  find_axes (SubplotPos 6 2 (1 + 2 * i)) 0 axs = None ->
  label_channel (channel (stats tr)) None = None ->
  plotting_6C_body L tstart st tm rm i None (mkWorld cs (mkFigure axs cbs g))
  = (inl (UnboundLocalError "chan"),
     mkWorld cs
       (mkFigure (axs ++ [ax_set_ylim (if (i <? 3)%nat then - tm else - rm)
                                      (if (i <? 3)%nat then tm else rm)
                            (ax_plot tr (new_axes (SubplotPos 6 2 (1 + 2 * i))))])
                 cbs (Some (List.length axs)))).
Proof.
  intros Hi Hf0 Hc. unfold plotting_6C_body. cbv zeta.
  destruct (i <? 3)%nat.
  all: repeat (rewrite ?Hc; step).
  all: reflexivity.
Qed.

(** A pass of the loop on a stream that has no trace [i]. *)
Lemma plotting_6C_body_index tstart st tm rm i chan cs axs cbs g :
  nth_error st i = None ->
  find_axes (SubplotPos 6 2 (1 + 2 * i)) 0 axs = None ->
  plotting_6C_body L tstart st tm rm i chan (mkWorld cs (mkFigure axs cbs g))
  = (inl IndexError,
     mkWorld cs (mkFigure (axs ++ [new_axes (SubplotPos 6 2 (1 + 2 * i))])
                          cbs (Some (List.length axs)))).
Proof.
  intros Hi Hf0. unfold plotting_6C_body. cbv zeta.
  step. unfold bind, index. rewrite Hi. reflexivity.
Qed.

(** [plotting_6C] on a stream whose first channel has no label. *)
Lemma plotting_6C_unbound tstart st trans_max rot_max filename w t0 :
  nth_error st 0 = Some t0 ->
  label_channel (channel (stats t0)) None = None ->
  plotting_6C L tstart st trans_max rot_max filename w
  = (inl (UnboundLocalError "chan"),
     mkWorld (calls w)
       (mkFigure [ax_set_ylim (- trans_max) trans_max
                    (ax_plot t0 (new_axes (SubplotPos 6 2 1)))]
                 [] (Some 0%nat))).
Proof.
  intros Ht Hc. destruct w as [cs f0]. cbn [calls].
  unfold plotting_6C, plt_figure.
  erewrite bind_run by reflexivity. norm_world.
  apply bind_fail. cbn [seq for_each_acc]. apply bind_fail.
  apply (plotting_6C_body_unbound tstart st trans_max rot_max 0 cs [] [] None t0);
    auto.
Qed.

End Plotting.

(** ** [read_data] and the two streams it processes *)

Lemma bind_result_inr {A B} (r : result A) (k : A -> result B) b :
  bind_result r k = inr b -> exists a, r = inr a /\ k a = inr b.
Proof. destruct r; cbn; [discriminate | eauto]. Qed.

Section Streams.

Variable L : Library.

Lemma remove_response_loop_run p pf out st : forall w st',
  map_result (fun tr =>
    bind_result (lib_read_inventory L p)
                (fun inv => lib_remove_response L inv pf out tr)) st
  = inr st' ->
  for_each_trace st (fun tr =>
    inv <- read_inventory L p ;; remove_response L inv pf out tr) w
  = (inr st',
     logged w (List.concat (repeat
       [Call_read_inventory p; Call_remove_response pf out] (List.length st)))).
Proof.
  induction st as [|tr st IH]; intros w st' H; cbn [map_result] in H.
  - injection H as <-. cbn. now rewrite logged_nil.
  - apply bind_result_inr in H. destruct H as (tr' & H1 & H).
    apply bind_result_inr in H. destruct H as (rest & H2 & H).
    injection H as <-.
    apply bind_result_inr in H1. destruct H1 as (inv & Hi & Hr).
    cbn [for_each_trace].
    rewrite bind_assoc.
    erewrite bind_run by (apply call_run; exact Hi).
    erewrite bind_run by (apply call_run; exact Hr).
    erewrite bind_run by (apply IH; exact H2).
    unfold ret. rewrite !logged_logged. reflexivity.
Qed.

Lemma remove_response_loop_pure p pf out st : forall w st' w',
  for_each_trace st (fun tr =>
    inv <- read_inventory L p ;; remove_response L inv pf out tr) w
  = (inr st', w') ->
  map_result (fun tr =>
    bind_result (lib_read_inventory L p)
                (fun inv => lib_remove_response L inv pf out tr)) st
  = inr st'.
Proof.
  induction st as [|tr st IH]; intros w st' w' H.
  - cbn in H. now inversion H.
  - cbn [for_each_trace] in H.
    apply bind_inr in H. destruct H as (tr' & w1 & H1 & H).
    apply bind_inr in H. destruct H as (rest & w2 & H2 & H).
    apply ret_inr in H. destruct H as [<- _].
    apply bind_inr in H1. destruct H1 as (inv & w3 & H1 & H3).
    apply call_inr in H1. destruct H1 as [Hi _].
    apply call_inr in H3. destruct H3 as [Hr _].
    apply IH in H2. cbn [map_result]. rewrite H2, Hi. cbn [bind_result].
    rewrite Hr. reflexivity.
Qed.

End Streams.

Lemma lift_run {A} (r : result A) a w : r = inr a -> lift r w = (inr a, w).
Proof. now intros ->. Qed.

Lemma print_run who w : print who w = (inr tt, logged w [Call_print who]).
Proof. reflexivity. Qed.

Lemma sort_run who st w :
  sort who st w = (inr (Stream_sort st), logged w [Call_sort who]).
Proof. reflexivity. Qed.

Lemma integrate_run who st w :
  integrate who st w = (inr (Stream_integrate st), logged w [Call_integrate who]).
Proof. reflexivity. Qed.

Lemma scale_run who i f st tr w :
  nth_error st i = Some tr ->
  scale who i f st w
  = (inr (set_nth st i (scaled f tr)), logged w [Call_scale who i f]).
Proof.
  intros H. unfold scale. erewrite bind_run by (apply index_run; exact H).
  reflexivity.
Qed.

Section ReadDataStreams.

Variable L : Library.

Lemma remove_response_loop_inr' p pf out st w st' w' :
  for_each_trace st (fun tr =>
    inv <- read_inventory L p ;; remove_response L inv pf out tr) w
  = (inr st', w') ->
  map_result (fun tr =>
    bind_result (lib_read_inventory L p)
                (fun inv => lib_remove_response L inv pf out tr)) st
  = inr st' /\
  w' = logged w (List.concat (repeat
         [Call_read_inventory p; Call_remove_response pf out] (List.length st))).
Proof.
  intros H. split.
  - eapply remove_response_loop_pure; eassumption.
  - eapply remove_response_loop_inr; eassumption.
Qed.

Ltac inv_op H :=
  lazymatch type of H with
  | print _ _ = _ => apply print_inr in H
  | sort _ _ _ = _ => apply sort_inr in H; destruct H as [? H]
  | integrate _ _ _ = _ => apply integrate_inr in H; destruct H as [? H]
  | scale _ _ _ _ _ = _ => apply scale_inr in H; destruct H as (? & ? & ? & H)
  | for_each_trace _ _ _ = _ =>
      apply remove_response_loop_inr' in H; destruct H as [? H]
  | index _ _ _ = _ => apply index_inr in H; destruct H as [? H]
  | lift _ _ = _ => apply lift_inr in H; destruct H as [? H]
  | read _ _ _ _ _ = _ => apply read_inr in H; destruct H as [? H]
  | detrend _ _ _ _ _ = _ => apply detrend_inr in H; destruct H as [? H]
  | taper _ _ _ _ _ _ = _ => apply taper_inr in H; destruct H as [? H]
  | filter _ _ _ _ _ _ _ _ _ = _ => apply filter_inr in H; destruct H as [? H]
  | trim _ _ _ _ _ _ = _ => apply trim_inr in H; destruct H as [? H]
  end.

Ltac inv_step H :=
  let x := fresh "x" in
  let w1 := fresh "w" in
  let H1 := fresh "E" in
  apply bind_inr in H; destruct H as (x & w1 & H1 & H);
  inv_op H1; rewrite H1 in H; clear H1; try rewrite logged_logged in H.

Ltac pure_step :=
  match goal with
  | E : ?l = inr _ |- context [bind_result ?l _] =>
      rewrite E; cbn [bind_result]
  end.

(** What a run of [read_data] that returns has computed. *)
Lemma read_data_pure tstart tend lo hi w st trans_max rot_max filename w' :
  read_data L tstart tend lo hi w
  = (inr (st, trans_max, rot_max, filename), w') ->
  exists a x0 x1 x2 rest ta va vb,
    trans_stream L tstart tend lo hi = inr a /\
    rot_stream L tstart tend lo hi = inr (x0 :: x1 :: x2 :: rest) /\
    st = a ++ rot_converted x0 x1 x2 rest /\
    nth_error a 0 = Some ta /\
    Trace_max ta = inr va /\ trans_max = np_abs va /\
    Trace_max (Trace_integrate (scaled (1 # 10 ^ 9) x0)) = inr vb /\
    rot_max = np_abs vb /\
    filename = mkFileName localpath tstart lo hi.
Proof.
  unfold read_data. intros H.
  change [nth 0 prefilt 0; nth 1 prefilt 0; nth 2 prefilt 0; nth 3 prefilt 0]%Q
    with prefilt in H.
  change (datapath ++ "ZR.RS1..HH*")%string
    with "2019_Etna/ZR.RS1..HH*"%string in H.
  change (datapath ++ "ZR.RS1..HJ*")%string
    with "2019_Etna/ZR.RS1..HJ*"%string in H.
  change (datapath ++ "Stations_Etna_2019_seis.xml")%string
    with "2019_Etna/Stations_Etna_2019_seis.xml"%string in H.
  change (1 * 30)%Z with 30%Z in H.
  repeat inv_step H.
  apply ret_inr in H. destruct H as [H <-].
  apply tuple4_eq in H. destruct H as (<- & <- & <- & <-).
  subst.
  match goal with
  | H0 : nth_error (Stream_sort ?s) 0 = Some _,
    H1 : nth_error (set_nth (Stream_sort ?s) 0 _) 1 = Some _,
    H2 : nth_error (set_nth (set_nth (Stream_sort ?s) 0 _) 1 _) 2 = Some _
    |- _ =>
      destruct (set_nth_3 _ _ _ _ (scaled (1 # 10 ^ 9)) H0 H1 H2)
        as (rest & Hs & Hs');
      rewrite Hs' in *; clear H0 H1 H2
  end.
  match goal with
  | H : nth_error (Stream_integrate (_ :: _)) 0 = Some _ |- _ =>
      cbn in H; inversion H; subst; clear H
  end.
  match goal with
  | Ha : nth_error (Stream_sort ?t) 0 = Some ?ta,
    Hva : Trace_max ?ta = inr ?va,
    Hvb : Trace_max (Trace_integrate (scaled _ ?x0)) = inr ?vb |- _ =>
      exists (Stream_sort t), x0; do 3 eexists; exists ta, va, vb
  end.
  repeat match goal with |- _ /\ _ => split end;
    try eassumption; try reflexivity.
  - unfold trans_stream, trans_before_response. repeat pure_step. reflexivity.
  - unfold rot_stream. repeat pure_step. f_equal. exact Hs.
Qed.

End ReadDataStreams.

Section ReadDataRun.

Variable L : Library.

Ltac chain H :=
  lazymatch type of H with
  | bind_result _ _ = inr _ =>
      let x := fresh "x" in
      let E := fresh "E" in
      apply bind_result_inr in H; destruct H as (x & E & H);
      chain E; chain H
  | _ => idtac
  end.

Ltac fwd :=
  lazymatch goal with
  | |- bind (for_each_trace _ _) _ _ = _ =>
      erewrite bind_run by (apply remove_response_loop_run; eassumption)
  | |- bind (index _ _) _ _ = _ =>
      erewrite bind_run by (apply index_run; first [eassumption | reflexivity])
  | |- bind (lift _) _ _ = _ =>
      erewrite bind_run by (apply lift_run; eassumption)
  | |- bind (print _) _ _ = _ => erewrite bind_run by apply print_run
  | |- bind (sort _ _) _ _ = _ => erewrite bind_run by apply sort_run
  | |- bind (integrate _ _) _ _ = _ => erewrite bind_run by apply integrate_run
  | |- bind (scale _ _ _ _) _ _ = _ =>
      erewrite bind_run by (apply scale_run; reflexivity)
  | |- bind _ _ _ = _ => erewrite bind_run by (apply call_run; eassumption)
  end; cbv beta; rewrite ?logged_logged; cbn [set_nth].

(** [read_data] returns when both streams can be processed, the rotational
    one has three traces and the first trace of each has a sample. *)
Lemma read_data_run tstart tend lo hi w a x0 x1 x2 rest ta va vb :
  trans_stream L tstart tend lo hi = inr a ->
  rot_stream L tstart tend lo hi = inr (x0 :: x1 :: x2 :: rest) ->
  nth_error a 0 = Some ta ->
  Trace_max ta = inr va ->
  Trace_max (Trace_integrate (scaled (1 # 10 ^ 9) x0)) = inr vb ->
  exists n,
    read_data L tstart tend lo hi w
    = (inr (a ++ rot_converted x0 x1 x2 rest, np_abs va, np_abs vb,
            mkFileName localpath tstart lo hi),
       logged w (trans_calls tstart tend lo hi n
                 ++ rot_calls tstart tend lo hi)).
Proof.
  intros Ht Hr Ha Hva Hvb.
  unfold trans_stream, trans_before_response in Ht. chain Ht.
  unfold rot_stream in Hr. chain Hr.
  injection Ht as <-. injection Hr as Hr.
  eexists. unfold read_data.
  change [nth 0 prefilt 0; nth 1 prefilt 0; nth 2 prefilt 0; nth 3 prefilt 0]%Q
    with prefilt.
  change (datapath ++ "ZR.RS1..HH*")%string
    with "2019_Etna/ZR.RS1..HH*"%string.
  change (datapath ++ "ZR.RS1..HJ*")%string
    with "2019_Etna/ZR.RS1..HJ*"%string.
  change (datapath ++ "Stations_Etna_2019_seis.xml")%string
    with "2019_Etna/Stations_Etna_2019_seis.xml"%string.
  change (1 * 30)%Z with 30%Z.
  repeat (fwd; rewrite ?Hr).
  unfold ret, rot_converted. f_equal. f_equal.
  unfold trans_calls, rot_calls.
  repeat rewrite <- app_assoc. cbn [app]. reflexivity.
Qed.

End ReadDataRun.

(** * The statements of the specification *)

Ltac chain_result H :=
  lazymatch type of H with
  | bind_result _ _ = inr _ =>
      let x := fresh "x" in
      let E := fresh "E" in
      apply bind_result_inr in H; destruct H as (x & E & H);
      chain_result E; chain_result H
  | _ => idtac
  end.

Lemma trans_stream_sorted L tstart tend lo hi a :
  trans_stream L tstart tend lo hi = inr a ->
  StronglySorted (lex_le id_keys) a.
Proof.
  unfold trans_stream. intros H. chain_result H. injection H as <-.
  apply Stream_sort_sorted_id.
Qed.

Lemma rot_stream_sorted L tstart tend lo hi a :
  rot_stream L tstart tend lo hi = inr a ->
  StronglySorted (lex_le id_keys) a.
Proof.
  unfold rot_stream. intros H. chain_result H. injection H as <-.
  apply Stream_sort_sorted_id.
Qed.

Lemma lex_leb_id_stats a b a' b' :
  stats a = stats a' -> stats b = stats b' ->
  lex_leb id_keys a b = lex_leb id_keys a' b'.
Proof.
  intros Ha Hb. unfold id_keys, lex_leb, key_ltb, key_leb. now rewrite Ha, Hb.
Qed.

Lemma Forall_id_stats a a' :
  stats a = stats a' -> forall l l', map stats l = map stats l' ->
  Forall (lex_le id_keys a) l -> Forall (lex_le id_keys a') l'.
Proof.
  intros Ha. induction l as [|b l IH]; intros [|b' l'] Hm Hl;
    try discriminate; constructor; cbn in Hm; injection Hm as Hb Hm;
    inversion Hl; subst.
  - unfold lex_le in *. now rewrite <- (lex_leb_id_stats a b a' b' Ha Hb).
  - now apply (IH l').
Qed.

(** Sortedness by identifier is a property of the metadata alone. *)
Lemma sorted_id_stats : forall l l',
  map stats l = map stats l' ->
  StronglySorted (lex_le id_keys) l -> StronglySorted (lex_le id_keys) l'.
Proof.
  induction l as [|a l IH]; intros [|a' l'] Hm Hl; try discriminate;
    constructor; cbn in Hm; injection Hm as Ha Hm; inversion Hl; subst.
  - now apply (IH l').
  - now apply (Forall_id_stats a a' Ha l l').
Qed.

Lemma rot_converted_stats x0 x1 x2 rest :
  map stats (rot_converted x0 x1 x2 rest) = map stats (x0 :: x1 :: x2 :: rest).
Proof.
  unfold rot_converted, Stream_integrate. cbn [map]. do 3 f_equal.
  rewrite map_map. apply map_ext. reflexivity.
Qed.

(** C4. For every event window, the stream that [read_data] returns is the
    sorted translational stream followed by the rotational stream, whose
    traces keep the metadata and the order of the sorted rotational stream:
    each group is sorted by identifier (network, station, location, channel)
    before the merge, and every translational trace comes before every
    rotational one. *)
Theorem C4_groups_sorted_then_merged
  L tstart tend lo hi w st trans_max rot_max filename w' :
  read_data L tstart tend lo hi w
  = (inr (st, trans_max, rot_max, filename), w') ->
  exists st_trans r_sorted st_rot,
    trans_stream L tstart tend lo hi = inr st_trans /\
    rot_stream L tstart tend lo hi = inr r_sorted /\
    map stats st_rot = map stats r_sorted /\
    st = st_trans ++ st_rot /\
    StronglySorted (lex_le id_keys) st_trans /\
    StronglySorted (lex_le id_keys) st_rot.
Proof.
  intros H. apply read_data_pure in H.
  destruct H as (a & x0 & x1 & x2 & rest & ta & va & vb &
                 Ht & Hr & Hst & _).
  exists a, (x0 :: x1 :: x2 :: rest), (rot_converted x0 x1 x2 rest).
  repeat split; auto.
  - apply rot_converted_stats.
  - eapply trans_stream_sorted; eassumption.
  - eapply sorted_id_stats;
      [symmetry; apply rot_converted_stats
      | eapply rot_stream_sorted; eassumption].
Qed.

Lemma C4_groups_sorted_then_merged_witness :
  read_data fixture fixture_tstart fixture_tend fmin fmax initial_world
  = (inr (fixture_st, fixture_trans_max, fixture_rot_max, fixture_filename),
     fixture_world1) /\
  exists st_trans r_sorted st_rot,
    trans_stream fixture fixture_tstart fixture_tend fmin fmax = inr st_trans /\
    rot_stream fixture fixture_tstart fixture_tend fmin fmax = inr r_sorted /\
    map stats st_rot = map stats r_sorted /\
    fixture_st = st_trans ++ st_rot /\
    StronglySorted (lex_le id_keys) st_trans /\
    StronglySorted (lex_le id_keys) st_rot.
Proof.
  assert (H : read_data fixture fixture_tstart fixture_tend fmin fmax
                initial_world
              = (inr (fixture_st, fixture_trans_max, fixture_rot_max,
                      fixture_filename), fixture_world1))
    by (vm_compute; reflexivity).
  split; [exact H|].
  exact (C4_groups_sorted_then_merged _ _ _ _ _ _ _ _ _ _ _ H).
Defined.

(** ** The calls of [read_data] *)

Lemma filter_response_calls (P : call -> bool) p pf out n :
  P (Call_read_inventory p) = false -> P (Call_remove_response pf out) = false ->
  List.filter P (List.concat (repeat
    [Call_read_inventory p; Call_remove_response pf out] n)) = [].
Proof.
  intros H1 H2. induction n as [|n IH]; cbn [repeat List.concat app List.filter].
  - reflexivity.
  - now rewrite H1, H2.
Qed.

Lemma filter_rot_trans_calls (P : call -> bool) tstart tend lo hi n :
  (forall c, on_rot c = false -> P c = false) ->
  List.filter P (trans_calls tstart tend lo hi n) = [].
Proof.
  intros HP. unfold trans_calls. rewrite !filter_app.
  rewrite filter_response_calls by (apply HP; reflexivity).
  cbn [List.filter app]. now rewrite !HP by reflexivity.
Qed.

Lemma Forall_filter_nil {A} (P : A -> bool) l :
  List.filter P l = [] -> Forall (fun c => P c = false) l.
Proof.
  induction l as [|a l IH]; cbn [List.filter]; [constructor|].
  destruct (P a) eqn:E; [discriminate|]. auto.
Qed.

Lemma precedesb_sound P Q : forall l1 d l2,
  precedesb P Q (l1 ++ d :: l2) = true -> Q d = true ->
  forallb (fun c => negb (P c)) (d :: l2) = true.
Proof.
  induction l1 as [|a l1 IH]; intros d l2 H Hq; cbn [app precedesb] in H;
    apply andb_true_iff in H; destruct H as [H1 H2].
  - rewrite Hq in H1. exact H1.
  - now apply IH.
Qed.

Lemma forallb_negb_Forall {A} (P : A -> bool) l :
  forallb (fun c => negb (P c)) l = true <-> Forall (fun c => P c = false) l.
Proof.
  rewrite forallb_forall, Forall_forall. split; intros H x Hx.
  - apply negb_true_iff. auto.
  - apply negb_true_iff. auto.
Qed.

Lemma precedesb_spec P Q log : precedesb P Q log = true <-> precedes P Q log.
Proof.
  split.
  - intros H l1 d l2 -> Hq. apply forallb_negb_Forall.
    eapply precedesb_sound; eassumption.
  - induction log as [|d l IH]; intros H; cbn [precedesb]; [reflexivity|].
    apply andb_true_iff. split.
    + destruct (Q d) eqn:Hq; [|reflexivity]. cbn [negb orb].
      apply forallb_negb_Forall. now apply (H [] d l).
    + apply IH. intros l1 d' l2 -> Hq. now apply (H (d :: l1) d' l2).
Qed.

Lemma precedesb_app_l P Q l1 l2 :
  List.filter Q l1 = [] -> precedesb P Q (l1 ++ l2) = precedesb P Q l2.
Proof.
  induction l1 as [|a l1 IH]; cbn [List.filter app precedesb]; [reflexivity|].
  destruct (Q a) eqn:E; [discriminate|]. intros H. cbn [negb orb andb]. auto.
Qed.

(** C6. For every event window, a run of [read_data] that returns has read
    the translational files over the window widened by 30 s on both sides
    and the rotational files over the window itself; these are its only two
    reads, in this order, and both were answered by the library. *)
Theorem C6_read_windows
  L tstart tend lo hi w st trans_max rot_max filename w' :
  read_data L tstart tend lo hi w
  = (inr (st, trans_max, rot_max, filename), w') ->
  exists t_raw r_raw cs,
    lib_read L "2019_Etna/ZR.RS1..HH*" (UTC.sub tstart 30) (UTC.add tend 30)
      = inr t_raw /\
    lib_read L "2019_Etna/ZR.RS1..HJ*" tstart tend = inr r_raw /\
    calls w' = calls w ++ cs /\
    List.filter is_read cs
    = [Call_read "2019_Etna/ZR.RS1..HH*" (tstart - 30 * 10 ^ 9)%Z
                 (tend + 30 * 10 ^ 9)%Z;
       Call_read "2019_Etna/ZR.RS1..HJ*" tstart tend].
Proof.
  intros H. apply read_data_inr in H.
  destruct H as (t_raw & t_f & t_in & r_raw & r_f & r_in & n & x0 & x1 & x2
                 & rest & ta & va & tb & vb & Ht & Hr & _ & _ & _ & _ & _ & _
                 & _ & _ & _ & _ & _ & ->).
  exists t_raw, r_raw,
    (trans_calls tstart tend lo hi n ++ rot_calls tstart tend lo hi).
  repeat split; auto.
  unfold trans_calls. rewrite !filter_app.
  rewrite filter_response_calls by reflexivity. reflexivity.
Qed.

Lemma C6_read_windows_witness :
  read_data fixture fixture_tstart fixture_tend fmin fmax initial_world
  = (inr (fixture_st, fixture_trans_max, fixture_rot_max, fixture_filename),
     fixture_world1) /\
  exists t_raw r_raw cs,
    lib_read fixture "2019_Etna/ZR.RS1..HH*" (UTC.sub fixture_tstart 30)
             (UTC.add fixture_tend 30) = inr t_raw /\
    lib_read fixture "2019_Etna/ZR.RS1..HJ*" fixture_tstart fixture_tend
      = inr r_raw /\
    calls fixture_world1 = calls initial_world ++ cs /\
    List.filter is_read cs
    = [Call_read "2019_Etna/ZR.RS1..HH*" (fixture_tstart - 30 * 10 ^ 9)%Z
                 (fixture_tend + 30 * 10 ^ 9)%Z;
       Call_read "2019_Etna/ZR.RS1..HJ*" fixture_tstart fixture_tend].
Proof.
  assert (H : read_data fixture fixture_tstart fixture_tend fmin fmax
                initial_world
              = (inr (fixture_st, fixture_trans_max, fixture_rot_max,
                      fixture_filename), fixture_world1))
    by (vm_compute; reflexivity).
  split; [exact H|].
  exact (C6_read_windows _ _ _ _ _ _ _ _ _ _ _ H).
Defined.

(** The order that claim C2 gives to the processing of the rotational
    stream does not hold in a run on the small library instance: the unit
    conversion and the integration come after the band-pass filter and the
    trim, not before. *)
Lemma C2_counterexample :
  read_data fixture fixture_tstart fixture_tend fmin fmax initial_world
  = (inr (fixture_st, fixture_trans_max, fixture_rot_max, fixture_filename),
     fixture_world1) /\
  ~ (precedes is_rot_detrend_taper is_rot_conversion (calls fixture_world1) /\
     precedes is_rot_conversion is_rot_filter_trim (calls fixture_world1)).
Proof.
  split; [vm_compute; reflexivity|].
  intros [_ H]. apply precedesb_spec in H. vm_compute in H. discriminate.
Qed.

(** C2 (amended). For every rotational stream processed by [read_data], the
    steps come in this order: detrending and tapering first, then the
    band-pass filter (freqmin = fmin, freqmax = fmax, 2 corners, zero phase)
    and the trim to the event window, then the sort, and only after that the
    unit conversion of the first three traces by the factor 1e-9 and the
    integration.  The calls on the rotational stream are, in order, exactly
    the fifteen listed. *)
Theorem C2_rot_processing_order
  L tstart tend lo hi w st trans_max rot_max filename w' :
  read_data L tstart tend lo hi w
  = (inr (st, trans_max, rot_max, filename), w') ->
  exists cs,
    calls w' = calls w ++ cs /\
    precedes is_rot_detrend_taper is_rot_filter_trim cs /\
    precedes is_rot_filter_trim is_rot_conversion cs /\
    List.filter is_rot_filter_trim cs
    = [Call_filter the_st_rot "bandpass" lo hi 2 true;
       Call_trim the_st_rot tstart tend] /\
    List.filter is_rot_conversion cs
    = [Call_scale the_st_rot 0 (1 # 10 ^ 9);
       Call_scale the_st_rot 1 (1 # 10 ^ 9);
       Call_scale the_st_rot 2 (1 # 10 ^ 9);
       Call_integrate the_st_rot] /\
    precedes is_rot_filter_trim is_rot_sort cs /\
    precedes is_rot_sort is_rot_conversion cs /\
    List.filter is_rot_sort cs = [Call_sort the_st_rot] /\
    List.filter on_rot cs
    = [Call_print the_st_rot;
       Call_detrend the_st_rot "demean";
       Call_detrend the_st_rot "linear";
       Call_taper the_st_rot (1 # 100) "cosine";
       Call_taper the_st_rot (1 # 100) "cosine";
       Call_detrend the_st_rot "demean";
       Call_detrend the_st_rot "linear";
       Call_taper the_st_rot (1 # 100) "cosine";
       Call_filter the_st_rot "bandpass" lo hi 2 true;
       Call_trim the_st_rot tstart tend;
       Call_sort the_st_rot;
       Call_scale the_st_rot 0 (1 # 10 ^ 9);
       Call_scale the_st_rot 1 (1 # 10 ^ 9);
       Call_scale the_st_rot 2 (1 # 10 ^ 9);
       Call_integrate the_st_rot].
Proof.
  intros H. apply read_data_inr in H.
  destruct H as (t_raw & t_f & t_in & r_raw & r_f & r_in & n & x0 & x1 & x2
                 & rest & ta & va & tb & vb & _ & _ & _ & _ & _ & _ & _ & _
                 & _ & _ & _ & _ & _ & ->).
  exists (trans_calls tstart tend lo hi n ++ rot_calls tstart tend lo hi).
  assert (Hf : List.filter is_rot_filter_trim (trans_calls tstart tend lo hi n)
               = [])
    by (apply filter_rot_trans_calls; intros [] Hc; try reflexivity;
        destruct who; try reflexivity; discriminate).
  assert (Hc : List.filter is_rot_conversion (trans_calls tstart tend lo hi n)
               = [])
    by (apply filter_rot_trans_calls; intros [] Hc; try reflexivity;
        destruct who; try reflexivity; discriminate).
  assert (Hs : List.filter is_rot_sort (trans_calls tstart tend lo hi n)
               = [])
    by (apply filter_rot_trans_calls; intros [] Hc'; try reflexivity;
        destruct who; try reflexivity; discriminate).
  assert (Ho : List.filter on_rot (trans_calls tstart tend lo hi n) = [])
    by (apply filter_rot_trans_calls; auto).
  split; [reflexivity|].
  split; [apply precedesb_spec; rewrite precedesb_app_l by exact Hf;
          reflexivity|].
  split; [apply precedesb_spec; rewrite precedesb_app_l by exact Hc;
          reflexivity|].
  split; [rewrite filter_app, Hf; reflexivity|].
  split; [rewrite filter_app, Hc; reflexivity|].
  split; [apply precedesb_spec; rewrite precedesb_app_l by exact Hs;
          reflexivity|].
  split; [apply precedesb_spec; rewrite precedesb_app_l by exact Hc;
          reflexivity|].
  split; [rewrite filter_app, Hs; reflexivity|].
  rewrite filter_app, Ho. reflexivity.
Qed.

Lemma C2_rot_processing_order_witness :
  read_data fixture fixture_tstart fixture_tend fmin fmax initial_world
  = (inr (fixture_st, fixture_trans_max, fixture_rot_max, fixture_filename),
     fixture_world1) /\
  exists cs,
    calls fixture_world1 = calls initial_world ++ cs /\
    precedes is_rot_detrend_taper is_rot_filter_trim cs /\
    precedes is_rot_filter_trim is_rot_conversion cs /\
    List.filter is_rot_filter_trim cs
    = [Call_filter the_st_rot "bandpass" fmin fmax 2 true;
       Call_trim the_st_rot fixture_tstart fixture_tend] /\
    List.filter is_rot_conversion cs
    = [Call_scale the_st_rot 0 (1 # 10 ^ 9);
       Call_scale the_st_rot 1 (1 # 10 ^ 9);
       Call_scale the_st_rot 2 (1 # 10 ^ 9);
       Call_integrate the_st_rot] /\
    precedes is_rot_filter_trim is_rot_sort cs /\
    precedes is_rot_sort is_rot_conversion cs /\
    List.filter is_rot_sort cs = [Call_sort the_st_rot] /\
    List.filter on_rot cs
    = [Call_print the_st_rot;
       Call_detrend the_st_rot "demean";
       Call_detrend the_st_rot "linear";
       Call_taper the_st_rot (1 # 100) "cosine";
       Call_taper the_st_rot (1 # 100) "cosine";
       Call_detrend the_st_rot "demean";
       Call_detrend the_st_rot "linear";
       Call_taper the_st_rot (1 # 100) "cosine";
       Call_filter the_st_rot "bandpass" fmin fmax 2 true;
       Call_trim the_st_rot fixture_tstart fixture_tend;
       Call_sort the_st_rot;
       Call_scale the_st_rot 0 (1 # 10 ^ 9);
       Call_scale the_st_rot 1 (1 # 10 ^ 9);
       Call_scale the_st_rot 2 (1 # 10 ^ 9);
       Call_integrate the_st_rot].
Proof.
  assert (H : read_data fixture fixture_tstart fixture_tend fmin fmax
                initial_world
              = (inr (fixture_st, fixture_trans_max, fixture_rot_max,
                      fixture_filename), fixture_world1))
    by (vm_compute; reflexivity).
  split; [exact H|].
  exact (C2_rot_processing_order _ _ _ _ _ _ _ _ _ _ _ H).
Defined.

(** The claim C7 gives every constant rotation-rate trace a slope equal to
    the converted rate.  On the library with four rotational traces the
    fourth trace, HJ4, has the constant rate 2: its rotation at sample 1 is
    2 * 0.01, the rate as it was read, not 2e-9 * 0.01. *)
Lemma C7_counterexample :
  read_data fixture_four_rot fixture_tstart fixture_tend fmin fmax
    initial_world
  = (inr (fixture_four_st, fixture_trans_max, fixture_four_rot_max,
          fixture_filename), fixture_four_world) /\
  rot_stream fixture_four_rot fixture_tstart fixture_tend fmin fmax
  = inr fixture_four_sorted /\
  ~ (forall j x y c n,
       nth_error fixture_four_sorted j = Some x ->
       nth_error fixture_four_st (3 + j) = Some y ->
       data x = repeat c n ->
       forall k, (k < n)%nat ->
         (nth k (data y) 0
          == (c * (1 # 10 ^ 9)) * (inject_Z (Z.of_nat k) * delta x))%Q).
Proof.
  split; [vm_compute; reflexivity|].
  split; [vm_compute; reflexivity|].
  intros H.
  specialize (H 3%nat (fixture_trace "HJ4" [2; 2]%Q)
                (nth 6 fixture_four_st (fixture_trace "HJ4" [])) 2%Q 2%nat
                eq_refl eq_refl eq_refl 1%nat).
  assert (Hk : (1 < 2)%nat) by lia. specialize (H Hk).
  vm_compute in H. discriminate.
Qed.

(** C7 (amended). For every constant rotation-rate trace with uniform
    sampling, the integration of [read_data] gives a rotation that grows
    linearly in time: sample [k], at time [k * delta] into the window, is the
    rate times that time.  The rate is the unit-converted one, [c * 1e-9],
    only for the first three traces of the sorted rotational stream; for
    every further trace it is the rate as it was read, [c]. *)
Theorem C7_constant_rate_integrates_linearly
  L tstart tend lo hi w st trans_max rot_max filename w' :
  read_data L tstart tend lo hi w
  = (inr (st, trans_max, rot_max, filename), w') ->
  exists st_trans x0 x1 x2 rest y0 y1 y2 rest',
    rot_stream L tstart tend lo hi = inr (x0 :: x1 :: x2 :: rest) /\
    st = st_trans ++ y0 :: y1 :: y2 :: rest' /\
    (forall x y c n,
       In (x, y) [(x0, y0); (x1, y1); (x2, y2)] ->
       data x = repeat c n ->
       stats y = stats x /\
       forall k, (k < n)%nat ->
         (nth k (data y) 0
          == (c * (1 # 10 ^ 9)) * (inject_Z (Z.of_nat k) * delta x))%Q) /\
    trans_stream L tstart tend lo hi = inr st_trans /\
    List.length rest' = List.length rest /\
    (forall j x y c n,
       nth_error rest j = Some x ->
       nth_error rest' j = Some y ->
       data x = repeat c n ->
       stats y = stats x /\
       forall k, (k < n)%nat ->
         (nth k (data y) 0 == c * (inject_Z (Z.of_nat k) * delta x))%Q).
Proof.
  intros H. apply read_data_pure in H.
  destruct H as (a & x0 & x1 & x2 & rest & ta & va & vb &
                 Ht & Hr & Hst & _).
  exists a, x0, x1, x2, rest,
    (Trace_integrate (scaled (1 # 10 ^ 9) x0)),
    (Trace_integrate (scaled (1 # 10 ^ 9) x1)),
    (Trace_integrate (scaled (1 # 10 ^ 9) x2)),
    (Stream_integrate rest).
  split; [exact Hr|]. split; [exact Hst|]. split.
  { intros x y c n Hin Hd.
    assert (Hy : y = Trace_integrate (scaled (1 # 10 ^ 9) x)).
    { cbn [In] in Hin.
      destruct Hin as [E|[E|[E|[]]]]; injection E as <- <-; reflexivity. }
    subst y. split; [reflexivity|].
    intros k Hk. unfold Trace_integrate, scaled. cbn [data].
    rewrite Hd, ndarray_mul_repeat.
    eapply Qeq_trans; [apply cumtrapz_const; exact Hk|].
    unfold delta. cbn [stats]. ring. }
  split; [exact Ht|].
  split; [unfold Stream_integrate; apply length_map|].
  intros j x y c n Hx Hy Hd.
  unfold Stream_integrate in Hy.
  rewrite (map_nth_error Trace_integrate j rest Hx) in Hy.
  injection Hy as <-. split; [reflexivity|].
  intros k Hk. unfold Trace_integrate. cbn [data]. rewrite Hd.
  eapply Qeq_trans; [apply cumtrapz_const; exact Hk|]. ring.
Qed.

Lemma C7_constant_rate_integrates_linearly_witness :
  read_data fixture_four_rot fixture_tstart fixture_tend fmin fmax
    initial_world
  = (inr (fixture_four_st, fixture_trans_max, fixture_four_rot_max,
          fixture_filename), fixture_four_world) /\
  exists st_trans x0 x1 x2 rest y0 y1 y2 rest',
    rot_stream fixture_four_rot fixture_tstart fixture_tend fmin fmax
    = inr (x0 :: x1 :: x2 :: rest) /\
    fixture_four_st = st_trans ++ y0 :: y1 :: y2 :: rest' /\
    (forall x y c n,
       In (x, y) [(x0, y0); (x1, y1); (x2, y2)] ->
       data x = repeat c n ->
       stats y = stats x /\
       forall k, (k < n)%nat ->
         (nth k (data y) 0
          == (c * (1 # 10 ^ 9)) * (inject_Z (Z.of_nat k) * delta x))%Q) /\
    trans_stream fixture_four_rot fixture_tstart fixture_tend fmin fmax
    = inr st_trans /\
    List.length rest' = List.length rest /\
    (forall j x y c n,
       nth_error rest j = Some x ->
       nth_error rest' j = Some y ->
       data x = repeat c n ->
       stats y = stats x /\
       forall k, (k < n)%nat ->
         (nth k (data y) 0 == c * (inject_Z (Z.of_nat k) * delta x))%Q).
Proof.
  assert (H : read_data fixture_four_rot fixture_tstart fixture_tend fmin fmax
                initial_world
              = (inr (fixture_four_st, fixture_trans_max, fixture_four_rot_max,
                      fixture_filename), fixture_four_world))
    by (vm_compute; reflexivity).
  split; [exact H|].
  exact (C7_constant_rate_integrates_linearly _ _ _ _ _ _ _ _ _ _ _ H).
Defined.

(** ** The figure of [plotting_6C] *)

Ltac six_cases i Hi :=
  destruct i as [|[|[|[|[|[|i]]]]]]; [ .. | exfalso; lia ].

(** The claim C3 gives the figure two colour bars; the figure drawn on the
    small library instance has six. *)
Lemma C3_counterexample :
  plotting_6C fixture fixture_tstart fixture_st fixture_trans_max
    fixture_rot_max fixture_filename fixture_world1 = (inr tt, fixture_world2) /\
  ~ (count is_subplot (axes (figure fixture_world2)) = 12%nat /\
     List.length (colorbars (figure fixture_world2)) = 2%nat).
Proof.
  split; [vm_compute; reflexivity|].
  intros [_ H]. vm_compute in H. discriminate.
Qed.

(** C3 (amended). For every event whose six traces can be plotted, the
    figure of [plotting_6C] holds exactly 12 subplots, 6 seismograms in the
    left column and 6 spectrograms in the right column, and exactly 6 colour
    bars, one per pass of the loop, each on an axes that was added for it and
    holds nothing else: the figure has 18 axes, the six that are no subplots
    are the axes of the six colour bars, all different, three at the upper
    rectangle, for the translational group, and three at the lower one, for
    the rotational group. *)
Theorem C3_twelve_subplots_six_colorbars
  L tstart st trans_max rot_max filename w
  t0 t1 t2 t3 t4 t5 rest s0 s1 s2 s3 s4 s5 c0 :
  st = t0 :: t1 :: t2 :: t3 :: t4 :: t5 :: rest ->
  lib_spectrogram L (data t0) (sampling_rate (stats t0)) wlen overlap = inr s0 ->
  lib_spectrogram L (data t1) (sampling_rate (stats t1)) wlen overlap = inr s1 ->
  lib_spectrogram L (data t2) (sampling_rate (stats t2)) wlen overlap = inr s2 ->
  lib_spectrogram L (data t3) (sampling_rate (stats t3)) wlen overlap = inr s3 ->
  lib_spectrogram L (data t4) (sampling_rate (stats t4)) wlen overlap = inr s4 ->
  lib_spectrogram L (data t5) (sampling_rate (stats t5)) wlen overlap = inr s5 ->
  label_channel (channel (stats t0)) None = Some c0 ->
  exists w',
    plotting_6C L tstart st trans_max rot_max filename w = (inr tt, w') /\
    count is_subplot (axes (figure w')) = 12%nat /\
    count (fun a => is_seismogram a && in_column 0 a) (axes (figure w'))
      = 6%nat /\
    count (fun a => is_spectrogram a && in_column 1 a) (axes (figure w'))
      = 6%nat /\
    List.length (colorbars (figure w')) = 6%nat /\
    colorbar_positions (figure w')
    = [Some (RectPos (927 # 1000) (505 # 1000) (1 # 100) (37 # 100));
       Some (RectPos (927 # 1000) (505 # 1000) (1 # 100) (37 # 100));
       Some (RectPos (927 # 1000) (505 # 1000) (1 # 100) (37 # 100));
       Some (RectPos (927 # 1000) (11 # 100) (1 # 100) (37 # 100));
       Some (RectPos (927 # 1000) (11 # 100) (1 # 100) (37 # 100));
       Some (RectPos (927 # 1000) (11 # 100) (1 # 100) (37 # 100))] /\
    List.length (axes (figure w')) = 18%nat /\
    count (fun a => negb (is_subplot a)) (axes (figure w')) = 6%nat /\
    map cb_cax (colorbars (figure w')) = [2; 5; 8; 11; 14; 17]%nat /\
    NoDup (map cb_cax (colorbars (figure w'))) /\
    (forall i, (i < 6)%nat ->
       nth_error (axes (figure w')) (3 * i + 2)
       = Some (new_axes
                 (if (i <? 3)%nat
                  then RectPos (927 # 1000) (505 # 1000) (1 # 100) (37 # 100)
                  else RectPos (927 # 1000) (11 # 100) (1 # 100)
                               (37 # 100)))).
Proof.
  intros Hst H0 H1 H2 H3 H4 H5 Hc. eexists. split.
  - eapply plotting_6C_run; eassumption.
  - cbn [figure].
    do 8 (split; [reflexivity|]).
    split.
    + cbn. repeat constructor; cbn; intuition lia.
    + intros i Hi. six_cases i Hi; reflexivity.
Qed.

Lemma C3_twelve_subplots_six_colorbars_witness :
  exists w',
    plotting_6C fixture fixture_tstart fixture_st fixture_trans_max
      fixture_rot_max fixture_filename fixture_world1 = (inr tt, w') /\
    count is_subplot (axes (figure w')) = 12%nat /\
    count (fun a => is_seismogram a && in_column 0 a) (axes (figure w'))
      = 6%nat /\
    count (fun a => is_spectrogram a && in_column 1 a) (axes (figure w'))
      = 6%nat /\
    List.length (colorbars (figure w')) = 6%nat /\
    colorbar_positions (figure w')
    = [Some (RectPos (927 # 1000) (505 # 1000) (1 # 100) (37 # 100));
       Some (RectPos (927 # 1000) (505 # 1000) (1 # 100) (37 # 100));
       Some (RectPos (927 # 1000) (505 # 1000) (1 # 100) (37 # 100));
       Some (RectPos (927 # 1000) (11 # 100) (1 # 100) (37 # 100));
       Some (RectPos (927 # 1000) (11 # 100) (1 # 100) (37 # 100));
       Some (RectPos (927 # 1000) (11 # 100) (1 # 100) (37 # 100))] /\
    List.length (axes (figure w')) = 18%nat /\
    count (fun a => negb (is_subplot a)) (axes (figure w')) = 6%nat /\
    map cb_cax (colorbars (figure w')) = [2; 5; 8; 11; 14; 17]%nat /\
    NoDup (map cb_cax (colorbars (figure w'))) /\
    (forall i, (i < 6)%nat ->
       nth_error (axes (figure w')) (3 * i + 2)
       = Some (new_axes
                 (if (i <? 3)%nat
                  then RectPos (927 # 1000) (505 # 1000) (1 # 100) (37 # 100)
                  else RectPos (927 # 1000) (11 # 100) (1 # 100)
                               (37 # 100)))).
Proof.
  eapply (C3_twelve_subplots_six_colorbars fixture fixture_tstart fixture_st
            fixture_trans_max fixture_rot_max fixture_filename fixture_world1);
    reflexivity.
Defined.

(** The claim C1 takes the translational scale over all three channels; on
    the small library instance it is 2, the largest amplitude of the first
    channel (HHE), while the second channel (HHN) has a sample -7. *)
Lemma C1_counterexample :
  read_data fixture fixture_tstart fixture_tend fmin fmax initial_world
  = (inr (fixture_st, fixture_trans_max, fixture_rot_max, fixture_filename),
     fixture_world1) /\
  ~ (is_group_max fixture_trans_max (firstn 3 fixture_st) /\
     is_group_max fixture_rot_max (skipn 3 fixture_st)).
Proof.
  split; [vm_compute; reflexivity|].
  intros [[_ H] _].
  specialize (H (fixture_trace "HHN" [5; -7]%Q) (-7)%Q).
  assert (E : (Qabs (-7) <= fixture_trans_max)%Q).
  { apply H; cbn; auto. }
  vm_compute in E. apply E. reflexivity.
Qed.

(** C1 (amended). For every event window, the translational amplitude scale
    that [read_data] returns is the maximum absolute amplitude of the first
    channel of the sorted translational stream alone, and the rotational
    scale that of the first channel of the converted rotational stream
    alone.  [plotting_6C] uses them only as the symmetric y limits
    (-max, +max) of the seismogram panels, the translational one for panels
    0 to 2 and the rotational one for panels 3 to 5: with other scales the
    figure is the same but for these limits. *)
Theorem C1_amplitude_scale_of_first_channel
  L tstart tend lo hi w st trans_max rot_max filename w1 :
  read_data L tstart tend lo hi w
  = (inr (st, trans_max, rot_max, filename), w1) ->
  (exists st_trans st_rot ta tb,
     trans_stream L tstart tend lo hi = inr st_trans /\
     st = st_trans ++ st_rot /\
     nth_error st_trans 0 = Some ta /\
     nth_error st_rot 0 = Some tb /\
     is_max_abs trans_max ta /\
     is_max_abs rot_max tb) /\
  (forall t0 t1 t2 t3 t4 t5 rest s0 s1 s2 s3 s4 s5 c0,
     st = t0 :: t1 :: t2 :: t3 :: t4 :: t5 :: rest ->
     lib_spectrogram L (data t0) (sampling_rate (stats t0)) wlen overlap
       = inr s0 ->
     lib_spectrogram L (data t1) (sampling_rate (stats t1)) wlen overlap
       = inr s1 ->
     lib_spectrogram L (data t2) (sampling_rate (stats t2)) wlen overlap
       = inr s2 ->
     lib_spectrogram L (data t3) (sampling_rate (stats t3)) wlen overlap
       = inr s3 ->
     lib_spectrogram L (data t4) (sampling_rate (stats t4)) wlen overlap
       = inr s4 ->
     lib_spectrogram L (data t5) (sampling_rate (stats t5)) wlen overlap
       = inr s5 ->
     label_channel (channel (stats t0)) None = Some c0 ->
     exists w2,
       plotting_6C L tstart st trans_max rot_max filename w1 = (inr tt, w2) /\
       (forall i, (i < 6)%nat ->
          exists a,
            nth_error (axes (figure w2)) (3 * i) = Some a /\
            is_seismogram a = true /\
            ylim a = Some (if (i <? 3)%nat then (- trans_max, trans_max)%Q
                           else (- rot_max, rot_max)%Q)) /\
       (forall trans_max' rot_max',
          exists w2',
            plotting_6C L tstart st trans_max' rot_max' filename w1
            = (inr tt, w2') /\
            without_seismogram_ylim (figure w2')
            = without_seismogram_ylim (figure w2))).
Proof.
  intros H. split.
  - apply read_data_pure in H.
    destruct H as (a & x0 & x1 & x2 & rest & ta & va & vb &
                   Ht & Hr & Hst & Ha & Hva & -> & Hvb & -> & _).
    exists a, (rot_converted x0 x1 x2 rest), ta,
      (Trace_integrate (scaled (1 # 10 ^ 9) x0)).
    split; [exact Ht|]. split; [exact Hst|]. split; [exact Ha|].
    split; [reflexivity|].
    split; apply Trace_max_is_max_abs; assumption.
  - intros t0 t1 t2 t3 t4 t5 rest s0 s1 s2 s3 s4 s5 c0
           Hst H0 H1 H2 H3 H4 H5 Hc.
    eexists. split; [eapply plotting_6C_run; eassumption|].
    cbn [figure]. split.
    + intros i Hi. six_cases i Hi; eexists; (split; [reflexivity|]);
        split; reflexivity.
    + intros tm' rm'. eexists.
      split; [eapply plotting_6C_run; eassumption|]. reflexivity.
Qed.

Lemma C1_amplitude_scale_of_first_channel_witness :
  read_data fixture fixture_tstart fixture_tend fmin fmax initial_world
  = (inr (fixture_st, fixture_trans_max, fixture_rot_max, fixture_filename),
     fixture_world1) /\
  exists st_trans st_rot ta tb,
    trans_stream fixture fixture_tstart fixture_tend fmin fmax = inr st_trans /\
    fixture_st = st_trans ++ st_rot /\
    nth_error st_trans 0 = Some ta /\
    nth_error st_rot 0 = Some tb /\
    is_max_abs fixture_trans_max ta /\
    is_max_abs fixture_rot_max tb.
Proof.
  assert (H : read_data fixture fixture_tstart fixture_tend fmin fmax
                initial_world
              = (inr (fixture_st, fixture_trans_max, fixture_rot_max,
                      fixture_filename), fixture_world1))
    by (vm_compute; reflexivity).
  split; [exact H|].
  exact (proj1 (C1_amplitude_scale_of_first_channel _ _ _ _ _ _ _ _ _ _ _ H)).
Defined.

(** The claim C8 puts the colour scales of the two groups two orders of
    magnitude apart; the upper bounds are not: 1e-10 against 3e-16. *)
Lemma C8_counterexample :
  ~ ((vmin1 == 100 * vmin)%Q /\ (vmax1 == 100 * vmax)%Q).
Proof. intros [_ H]. vm_compute in H. discriminate. Qed.

(** C8 (amended). The fixed colour-scale bounds of the translational group
    are the higher ones; the lower bounds are two orders of magnitude apart
    (vmin1 = 100 vmin), the upper bounds between five and six
    (3 vmax1 = 10^6 vmax).  In the figure of [plotting_6C] the spectrograms
    of panels 0 to 2 are drawn with (vmin1, vmax1) and those of panels 3 to
    5 with (vmin, vmax). *)
Theorem C8_color_scale_bounds
  L tstart st trans_max rot_max filename w
  t0 t1 t2 t3 t4 t5 rest s0 s1 s2 s3 s4 s5 c0 :
  st = t0 :: t1 :: t2 :: t3 :: t4 :: t5 :: rest ->
  lib_spectrogram L (data t0) (sampling_rate (stats t0)) wlen overlap = inr s0 ->
  lib_spectrogram L (data t1) (sampling_rate (stats t1)) wlen overlap = inr s1 ->
  lib_spectrogram L (data t2) (sampling_rate (stats t2)) wlen overlap = inr s2 ->
  lib_spectrogram L (data t3) (sampling_rate (stats t3)) wlen overlap = inr s3 ->
  lib_spectrogram L (data t4) (sampling_rate (stats t4)) wlen overlap = inr s4 ->
  lib_spectrogram L (data t5) (sampling_rate (stats t5)) wlen overlap = inr s5 ->
  label_channel (channel (stats t0)) None = Some c0 ->
  (vmin1 == 100 * vmin)%Q /\
  (3 * vmax1 == 10 ^ 6 * vmax)%Q /\
  (vmin < vmin1)%Q /\ (vmax < vmax1)%Q /\
  exists w',
    plotting_6C L tstart st trans_max rot_max filename w = (inr tt, w') /\
    forall i, (i < 6)%nat ->
      exists a m,
        nth_error (axes (figure w')) (3 * i + 1) = Some a /\
        is_spectrogram a = true /\
        meshes a = [m] /\
        mesh_vmin m = (if (i <? 3)%nat then vmin1 else vmin) /\
        mesh_vmax m = (if (i <? 3)%nat then vmax1 else vmax).
Proof.
  intros Hst H0 H1 H2 H3 H4 H5 Hc.
  split; [vm_compute; reflexivity|].
  split; [vm_compute; reflexivity|].
  split; [vm_compute; reflexivity|].
  split; [vm_compute; reflexivity|].
  eexists. split; [eapply plotting_6C_run; eassumption|].
  cbn [figure]. intros i Hi.
  six_cases i Hi; do 2 eexists; (split; [reflexivity|]);
    repeat split; reflexivity.
Qed.

Lemma C8_color_scale_bounds_witness :
  (vmin1 == 100 * vmin)%Q /\
  (3 * vmax1 == 10 ^ 6 * vmax)%Q /\
  (vmin < vmin1)%Q /\ (vmax < vmax1)%Q /\
  exists w',
    plotting_6C fixture fixture_tstart fixture_st fixture_trans_max
      fixture_rot_max fixture_filename fixture_world1 = (inr tt, w') /\
    forall i, (i < 6)%nat ->
      exists a m,
        nth_error (axes (figure w')) (3 * i + 1) = Some a /\
        is_spectrogram a = true /\
        meshes a = [m] /\
        mesh_vmin m = (if (i <? 3)%nat then vmin1 else vmin) /\
        mesh_vmax m = (if (i <? 3)%nat then vmax1 else vmax).
Proof.
  eapply (C8_color_scale_bounds fixture fixture_tstart fixture_st
            fixture_trans_max fixture_rot_max fixture_filename fixture_world1);
    reflexivity.
Defined.

(** ** [plot_spectrogram] on any figure *)

Lemma nth_error_set_nth_eq {A} : forall (l : list A) i a v,
  nth_error l i = Some a -> nth_error (set_nth l i v) i = Some v.
Proof.
  induction l as [|x l IH]; intros [|i] a v H; cbn in *; try discriminate;
    eauto.
Qed.

Lemma nth_error_set_nth_some {A} : forall (l : list A) i j b v,
  nth_error l j = Some b -> exists b', nth_error (set_nth l i v) j = Some b'.
Proof.
  induction l as [|x l IH]; intros [|i] [|j] b v H; cbn in *;
    try discriminate; eauto.
Qed.

Lemma update_axes_run ax f cs axs cbs g a :
  nth_error axs ax = Some a ->
  update_axes ax f (mkWorld cs (mkFigure axs cbs g))
  = (inr tt, mkWorld cs (mkFigure (set_nth axs ax (f a)) cbs g)).
Proof.
  intros H. unfold update_axes, bind, get_figure, put_figure.
  cbn [figure axes calls colorbars gca]. rewrite H. reflexivity.
Qed.

(** C5. For every input trace, [plot_spectrogram] as the script calls it
    asks for the spectral density with a window of 128 samples and an
    overlap of half of it, 64 samples, whatever the length of the trace;
    when the library answers, the y limits of the axis it was given are
    (fmin, fmax). *)
Theorem C5_spectrogram_window_and_band
  L axis tr lo hi tstart w k ak aa sp :
  gca (figure w) = Some k ->
  nth_error (axes (figure w)) k = Some ak ->
  nth_error (axes (figure w)) axis = Some aa ->
  lib_spectrogram L (data tr) (sampling_rate (stats tr)) wlen overlap = inr sp ->
  exists img w' a',
    plot_spectrogram L axis tr lo hi tstart wlen overlap w = (inr img, w') /\
    calls w'
    = calls w ++ [Call_spectrogram (npts tr) (sampling_rate (stats tr))
                                   128 overlap] /\
    (overlap == 64)%Q /\
    nth_error (axes (figure w')) axis = Some a' /\
    ylim a' = Some (fmin, fmax).
Proof.
  destruct w as [cs [axs cbs g]]. cbn [figure axes gca calls].
  intros -> Hk Ha Hsp.
  set (img := mkMesh (map (fun x => x + UTC.diff (starttime (stats tr)) tstart
                                        * sampling_rate (stats tr)
                                        / sampling_rate (stats tr))%Q (sp_t sp))
                     (sp_f sp) (sp_Sxx sp) lo hi).
  destruct (nth_error_set_nth_some axs k axis aa (ax_add_mesh img ak) Ha)
    as (a1 & Ha1).
  pose proof (nth_error_set_nth_eq _ _ _ (ax_set_ylim fmin fmax a1) Ha1) as Ha2.
  exists img. eexists.
  exists (ax_set_ylabel "Frequency (Hz)" (ax_set_ylim fmin fmax a1)).
  split; [|split; [|split; [|split]]].
  - unfold plot_spectrogram.
    erewrite bind_run by (unfold spectrogram; apply call_run; exact Hsp).
    unfold logged. cbn [calls figure]. unfold plt_pcolormesh.
    rewrite bind_assoc. erewrite bind_run by apply plt_gca_run.
    rewrite bind_assoc.
    erewrite bind_run by (apply update_axes_run; exact Hk).
    erewrite bind_run by reflexivity.
    erewrite bind_run by (apply update_axes_run; exact Ha1).
    erewrite bind_run by (apply update_axes_run; exact Ha2).
    reflexivity.
  - reflexivity.
  - reflexivity.
  - cbn [figure axes]. eapply nth_error_set_nth_eq. exact Ha2.
  - reflexivity.
Qed.

Lemma C5_spectrogram_window_and_band_witness :
  exists img w' a',
    plot_spectrogram fixture 1 (fixture_trace "HHZ" [1; -1]%Q) vmin1 vmax1
      fixture_tstart wlen overlap
      (mkWorld [] (mkFigure [new_axes (SubplotPos 6 2 1);
                             new_axes (SubplotPos 6 2 2)] [] (Some 1%nat)))
    = (inr img, w') /\
    calls w' = [] ++ [Call_spectrogram 2 100 128 overlap] /\
    (overlap == 64)%Q /\
    nth_error (axes (figure w')) 1 = Some a' /\
    ylim a' = Some (fmin, fmax).
Proof.
  eapply (C5_spectrogram_window_and_band fixture 1
            (fixture_trace "HHZ" [1; -1]%Q) vmin1 vmax1 fixture_tstart
            (mkWorld [] (mkFigure [new_axes (SubplotPos 6 2 1);
                                   new_axes (SubplotPos 6 2 2)] []
                                  (Some 1%nat))));
    reflexivity.
Defined.

(** ** The labels of [plotting_6C] *)

Lemma known_channel_cases name :
  known_channel name = true ->
  In name ["HHE"; "HHN"; "HHZ"; "HJ1"; "HJE"; "HJ2"; "HJN"; "HJ3"; "HJZ"]%string.
Proof.
  unfold known_channel. intros H. apply existsb_exists in H.
  destruct H as (x & Hx & E). apply String.eqb_eq in E. now subst.
Qed.

Lemma label_channel_known name chan :
  known_channel name = true ->
  label_channel name chan = Some (label_of name).
Proof.
  intros H. apply known_channel_cases in H. cbn [In] in H.
  repeat (destruct H as [<-|H]; [reflexivity|]). destruct H.
Qed.

Lemma label_channel_unknown name chan :
  known_channel name = false -> label_channel name chan = chan.
Proof.
  unfold known_channel. cbn [existsb]. intros H.
  repeat (apply orb_false_iff in H; destruct H as [? H]).
  unfold label_channel.
  repeat match goal with E : (name =? _)%string = false |- _ =>
    rewrite E; clear E end.
  reflexivity.
Qed.

Lemma relabel_known name c :
  known_channel name = true -> relabel name c = label_of name.
Proof. intros H. unfold relabel. now rewrite label_channel_known. Qed.

(** C10. The lookup of the y-axis label in [plotting_6C] is partial.  When
    the name of the first plotted channel is none of HHE, HHN, HHZ, HJ1,
    HJE, HJ2, HJN, HJ3, HJZ, [chan] is read before it is assigned and
    [plotting_6C] stops with an [UnboundLocalError], before any spectrogram
    is computed.  On a six-channel stream whose channel names are all in
    this set, and whose spectrograms can be computed, every panel gets the
    label of its channel. *)
Theorem C10_label_lookup_partial
  L tstart st trans_max rot_max filename w t0 :
  nth_error st 0 = Some t0 ->
  (known_channel (channel (stats t0)) = false ->
   exists w',
     plotting_6C L tstart st trans_max rot_max filename w
     = (inl (UnboundLocalError "chan"), w') /\
     calls w' = calls w) /\
  (forall t1 t2 t3 t4 t5 s0 s1 s2 s3 s4 s5,
     st = [t0; t1; t2; t3; t4; t5] ->
     Forall (fun tr => known_channel (channel (stats tr)) = true) st ->
     lib_spectrogram L (data t0) (sampling_rate (stats t0)) wlen overlap
       = inr s0 ->
     lib_spectrogram L (data t1) (sampling_rate (stats t1)) wlen overlap
       = inr s1 ->
     lib_spectrogram L (data t2) (sampling_rate (stats t2)) wlen overlap
       = inr s2 ->
     lib_spectrogram L (data t3) (sampling_rate (stats t3)) wlen overlap
       = inr s3 ->
     lib_spectrogram L (data t4) (sampling_rate (stats t4)) wlen overlap
       = inr s4 ->
     lib_spectrogram L (data t5) (sampling_rate (stats t5)) wlen overlap
       = inr s5 ->
     exists w',
       plotting_6C L tstart st trans_max rot_max filename w = (inr tt, w') /\
       forall i tr, nth_error st i = Some tr ->
         exists a,
           nth_error (axes (figure w')) (3 * i) = Some a /\
           is_seismogram a = true /\
           ylabel a = Some (station (stats tr) ++ ": "
                            ++ label_of (channel (stats tr)))%string).
Proof.
  intros Ht. split.
  - intros Hk. eexists. split.
    + eapply plotting_6C_unbound; [exact Ht|].
      now apply label_channel_unknown.
    + reflexivity.
  - intros t1 t2 t3 t4 t5 s0 s1 s2 s3 s4 s5 Hst Hall H0 H1 H2 H3 H4 H5.
    rewrite Hst in Hall.
    repeat match goal with
    | H : Forall _ (_ :: _) |- _ => inversion H; subst; clear H
    end.
    eexists. split.
    + eapply (plotting_6C_run L tstart _ _ _ _ _ t0 t1 t2 t3 t4 t5 []
                s0 s1 s2 s3 s4 s5 (label_of (channel (stats t0))));
        [ reflexivity | assumption .. | now apply label_channel_known ].
    + cbn [figure]. intros i tr Hi.
      destruct i as [|[|[|[|[|[|i]]]]]]; cbn in Hi;
        [ .. | destruct i; discriminate ];
        injection Hi as <-; eexists; (split; [reflexivity|]);
        (split; [reflexivity|]);
        cbn [ylabel seismogram_panel p_label p_trace p_index];
        rewrite ?relabel_known by assumption; reflexivity.
Qed.

Lemma C10_label_lookup_partial_witness :
  nth_error fixture_st 0 = Some (fixture_trace "HHE" [1; -2; 1]%Q) /\
  nth_error fixture_unknown 0 = Some (fixture_trace "BHZ" [1; 2]%Q) /\
  (exists w',
     plotting_6C fixture fixture_tstart fixture_unknown fixture_trans_max
       fixture_rot_max fixture_filename fixture_world1
     = (inl (UnboundLocalError "chan"), w') /\
     calls w' = calls fixture_world1) /\
  (exists w',
     plotting_6C fixture fixture_tstart fixture_st fixture_trans_max
       fixture_rot_max fixture_filename fixture_world1 = (inr tt, w') /\
     forall i tr, nth_error fixture_st i = Some tr ->
       exists a,
         nth_error (axes (figure w')) (3 * i) = Some a /\
         is_seismogram a = true /\
         ylabel a = Some (station (stats tr) ++ ": "
                          ++ label_of (channel (stats tr)))%string).
Proof.
  split; [reflexivity|]. split; [reflexivity|]. split.
  - apply (proj1 (C10_label_lookup_partial fixture fixture_tstart
                    fixture_unknown fixture_trans_max fixture_rot_max
                    fixture_filename fixture_world1
                    (fixture_trace "BHZ" [1; 2]%Q) eq_refl)).
    reflexivity.
  - eapply (proj2 (C10_label_lookup_partial fixture fixture_tstart
                     fixture_st fixture_trans_max fixture_rot_max
                     fixture_filename fixture_world1
                     (fixture_trace "HHE" [1; -2; 1]%Q) eq_refl));
      try reflexivity.
    unfold fixture_st. repeat constructor.
Defined.

(** ** The loop over the events *)

Lemma event_window_nth ii cur :
  (ii < 6)%nat ->
  nth_error event_windows ii = Some (event_window ii cur).
Proof.
  intros H. destruct ii as [|[|[|[|[|[|ii]]]]]]; [ reflexivity .. | lia ].
Qed.

Section Events.

Variable L : Library.

Lemma event_body_inr ii cur w s w' :
  (ii < 6)%nat ->
  event_body L ii cur w = (inr s, w') <->
  event_run L ii w w' /\ s = event_window ii cur.
Proof.
  intros Hii. pose proof (event_window_nth ii cur Hii) as Hn.
  unfold event_body, event_run.
  destruct (event_window ii cur) as [ts te]. unfold bind.
  destruct (read_data L ts te fmin fmax w)
    as [[e|[[[st tm] rm] fn]] w1] eqn:E.
  - split; [discriminate|].
    intros [(ts' & te' & st & tm & rm & fn & w1' & Hn' & Hr & _) _].
    rewrite Hn in Hn'. injection Hn' as <- <-. rewrite E in Hr. discriminate.
  - destruct (plotting_6C L ts st tm rm fn w1) as [[e|[]] w2] eqn:P.
    + split; [discriminate|].
      intros [(ts' & te' & st' & tm' & rm' & fn' & w1' & Hn' & Hr & Hp) _].
      rewrite Hn in Hn'. injection Hn' as <- <-. rewrite E in Hr.
      injection Hr as <- <- <- <- <-. rewrite P in Hp. discriminate.
    + unfold ret. split.
      * intros H. injection H as <- <-. split; [|reflexivity].
        exists ts, te, st, tm, rm, fn, w1. auto.
      * intros [(ts' & te' & st' & tm' & rm' & fn' & w1' & Hn' & Hr & Hp) ->].
        rewrite Hn in Hn'. injection Hn' as <- <-. rewrite E in Hr.
        injection Hr as <- <- <- <- <-. rewrite P in Hp.
        injection Hp as <-. reflexivity.
Qed.

Lemma event_body_inl ii cur w e w' :
  (ii < 6)%nat ->
  event_body L ii cur w = (inl e, w') <-> event_fails L ii w e w'.
Proof.
  intros Hii. pose proof (event_window_nth ii cur Hii) as Hn.
  unfold event_body, event_fails.
  destruct (event_window ii cur) as [ts te]. unfold bind.
  destruct (read_data L ts te fmin fmax w)
    as [[e0|[[[st tm] rm] fn]] w1] eqn:E.
  - split.
    + intros H. injection H as <- <-. exists ts, te. auto.
    + intros (ts' & te' & Hn' & H). rewrite Hn in Hn'.
      injection Hn' as <- <-. rewrite E in H.
      destruct H as [H|(st & tm & rm & fn & w1' & H & _)];
        [now injection H as <- <- | discriminate].
  - destruct (plotting_6C L ts st tm rm fn w1) as [[e0|[]] w2] eqn:P.
    + split.
      * intros H. injection H as <- <-. exists ts, te. split; [exact Hn|].
        right. exists st, tm, rm, fn, w1. auto.
      * intros (ts' & te' & Hn' & H). rewrite Hn in Hn'.
        injection Hn' as <- <-. rewrite E in H.
        destruct H as [H|(st' & tm' & rm' & fn' & w1' & H & Hp)];
          [discriminate|].
        injection H as <- <- <- <- <-. rewrite P in Hp.
        now injection Hp as <- <-.
    + unfold ret. split; [discriminate|].
      intros (ts' & te' & Hn' & H). rewrite Hn in Hn'.
      injection Hn' as <- <-. rewrite E in H.
      destruct H as [H|(st' & tm' & rm' & fn' & w1' & H & Hp)];
        [discriminate|].
      injection H as <- <- <- <- <-. rewrite P in Hp. discriminate.
Qed.

Lemma events_loop_from : forall n ii cur w,
  (ii + n <= 6)%nat ->
  (forall w',
     (exists r, for_each_acc (seq ii n) cur (event_body L) w = (inr r, w'))
     <-> events_from L ii n w w') /\
  (forall e w',
     for_each_acc (seq ii n) cur (event_body L) w = (inl e, w')
     <-> exists k w1, (k < n)%nat /\ events_from L ii k w w1 /\
                      event_fails L (ii + k) w1 e w').
Proof.
  induction n as [|n IH]; intros ii cur w Hle.
  - cbn [seq for_each_acc events_from]. unfold ret. split.
    + intros w'. split; [intros [r H]; now injection H | intros ->; eauto].
    + intros e w'. split; [discriminate|]. intros (k & _ & Hk & _). lia.
  - cbn [seq for_each_acc]. unfold bind.
    assert (Hii : (ii < 6)%nat) by lia.
    destruct (event_body L ii cur w) as [[e0|s] w1] eqn:B.
    + apply event_body_inl in B; [|exact Hii]. split.
      * intros w'. split; [intros [r H]; discriminate|].
        cbn [events_from]. intros (w1' & Hr & _).
        assert (Hb : event_body L ii cur w
                     = (inr (event_window ii cur), w1'))
          by (apply event_body_inr; auto).
        apply (event_body_inl ii cur) in B; [|exact Hii].
        rewrite B in Hb. discriminate.
      * intros e w'. split.
        -- intros H. injection H as <- <-. exists 0%nat, w.
           rewrite Nat.add_0_r. cbn [events_from]. repeat split; auto. lia.
        -- intros ([|k] & w2 & Hk & Hev & Hf).
           ++ cbn [events_from] in Hev. subst w2. rewrite Nat.add_0_r in Hf.
              apply (event_body_inl ii cur) in B, Hf; try exact Hii.
              rewrite B in Hf. exact Hf.
           ++ cbn [events_from] in Hev. destruct Hev as (w1' & Hr & _).
              assert (Hb : event_body L ii cur w
                           = (inr (event_window ii cur), w1'))
                by (apply event_body_inr; auto).
              apply (event_body_inl ii cur) in B; [|exact Hii].
              rewrite B in Hb. discriminate.
    + pose proof B as B'. apply event_body_inr in B'; [|exact Hii].
      destruct B' as [Hrun ->].
      destruct (IH (S ii) (event_window ii cur) w1) as [IHs IHf]; [lia|].
      assert (Hdet : forall w1', event_run L ii w w1' -> w1' = w1).
      { intros w1' Hr.
        assert (Hb : event_body L ii cur w
                     = (inr (event_window ii cur), w1'))
          by (apply event_body_inr; auto).
        rewrite B in Hb. now injection Hb. }
      split.
      * intros w'. rewrite IHs. cbn [events_from]. split.
        -- intros H. exists w1. auto.
        -- intros (w1' & Hr & H). now rewrite (Hdet w1' Hr) in H.
      * intros e w'. rewrite IHf. split.
        -- intros (k & w2 & Hk & Hev & Hf). exists (S k), w2.
           rewrite Nat.add_succ_r. cbn [events_from].
           repeat split; [lia | exists w1; auto | exact Hf].
        -- intros ([|k] & w2 & Hk & Hev & Hf).
           ++ cbn [events_from] in Hev. subst w2. rewrite Nat.add_0_r in Hf.
              apply (event_body_inl ii cur) in Hf; [|exact Hii].
              rewrite B in Hf. discriminate.
           ++ cbn [events_from] in Hev. destruct Hev as (w1' & Hr & Hev).
              rewrite (Hdet w1' Hr) in Hev. exists k, w2.
              rewrite Nat.add_succ_r in Hf. repeat split; [lia | auto ..].
Qed.

End Events.

(** C9. The event driver goes once, in order, through six windows that are
    written in the script, each a start time plus 120 s or 90 s; for each it
    runs [read_data], then [plotting_6C].  It returns exactly when all six
    events run; it recovers from nothing: the first failure of [read_data]
    or of [plotting_6C], in whatever event, is the result of the whole loop
    and no later event is started. *)
Theorem C9_event_loop_runs_six_events_or_aborts L cur w :
  map (fun ii => event_window ii cur) (seq 0 6) = event_windows /\
  Forall (fun p => snd p = UTC.add (fst p) 120 \/ snd p = UTC.add (fst p) 90)
         event_windows /\
  (forall w',
     (exists r, event_loop L cur w = (inr r, w')) <->
     events_from L 0 6 w w') /\
  (forall e w',
     event_loop L cur w = (inl e, w') <->
     exists k w1, (k < 6)%nat /\ events_from L 0 k w w1 /\
                  event_fails L k w1 e w').
Proof.
  split; [reflexivity|].
  split.
  { repeat constructor; cbn [fst snd];
      first [left; reflexivity | right; reflexivity]. }
  unfold event_loop.
  destruct (events_loop_from L 6 0 cur w) as [Hs Hf]; [lia|].
  split; [exact Hs | exact Hf].
Qed.

(** * Further properties of [read_data] *)

Ltac read_data_literals :=
  change [nth 0 prefilt 0; nth 1 prefilt 0; nth 2 prefilt 0; nth 3 prefilt 0]%Q
    with prefilt;
  change (datapath ++ "ZR.RS1..HH*")%string
    with "2019_Etna/ZR.RS1..HH*"%string;
  change (datapath ++ "ZR.RS1..HJ*")%string
    with "2019_Etna/ZR.RS1..HJ*"%string;
  change (datapath ++ "Stations_Etna_2019_seis.xml")%string
    with "2019_Etna/Stations_Etna_2019_seis.xml"%string;
  change (1 * 30)%Z with 30%Z.

Ltac fwd_step :=
  lazymatch goal with
  | |- bind (for_each_trace _ _) _ _ = _ =>
      erewrite bind_run by (apply remove_response_loop_run; eassumption)
  | |- bind (index _ _) _ _ = _ =>
      erewrite bind_run by (apply index_run; first [eassumption | reflexivity])
  | |- bind (lift _) _ _ = _ =>
      erewrite bind_run by (apply lift_run; eassumption)
  | |- bind (print _) _ _ = _ => erewrite bind_run by apply print_run
  | |- bind (sort _ _) _ _ = _ => erewrite bind_run by apply sort_run
  | |- bind (integrate _ _) _ _ = _ => erewrite bind_run by apply integrate_run
  | |- bind (scale _ _ _ _) _ _ = _ =>
      erewrite bind_run by (apply scale_run; reflexivity)
  | |- bind _ _ _ = _ => erewrite bind_run by (apply call_run; eassumption)
  end; cbv beta; rewrite ?logged_logged; cbn [set_nth].

Lemma Trace_max_inr_nonempty tr v : Trace_max tr = inr v -> data tr <> [].
Proof.
  unfold Trace_max, ndarray_max. destruct (data tr); [discriminate|].
  intros _. discriminate.
Qed.

Lemma Trace_max_empty tr : data tr = [] -> Trace_max tr = inl ValueError.
Proof. unfold Trace_max, ndarray_max. now intros ->. Qed.

Lemma Trace_integrate_nonempty tr : data (Trace_integrate tr) <> [].
Proof. unfold Trace_integrate, cumtrapz. cbn [data]. discriminate. Qed.

Lemma scale_fail who i f st w :
  nth_error st i = None -> scale who i f st w = (inl IndexError, w).
Proof. intros H. unfold scale, bind, index. rewrite H. reflexivity. Qed.

Lemma index_fail {A} (xs : list A) i w :
  nth_error xs i = None -> index xs i w = (@inl _ A IndexError, w).
Proof. intros H. unfold index. rewrite H. reflexivity. Qed.

Lemma lift_fail {A} (r : result A) e w :
  r = inl e -> lift r w = (inl e, w).
Proof. now intros ->. Qed.

(** X1. [read_data] returns a result exactly when the library can process
    both streams, the sorted rotational stream has at least three traces and
    the first trace of the sorted translational stream has at least one
    sample. *)
Theorem read_data_returns_iff L tstart tend lo hi w :
  (exists r w', read_data L tstart tend lo hi w = (inr r, w')) <->
  exists a x0 x1 x2 rest ta,
    trans_stream L tstart tend lo hi = inr a /\
    rot_stream L tstart tend lo hi = inr (x0 :: x1 :: x2 :: rest) /\
    nth_error a 0 = Some ta /\
    data ta <> [].
Proof.
  split.
  - intros ([[[st tm] rm] fn] & w' & H). apply read_data_pure in H.
    destruct H as (a & x0 & x1 & x2 & rest & ta & va & vb &
                   Ht & Hr & _ & Ha & Hva & _).
    exists a, x0, x1, x2, rest, ta. repeat split; auto.
    eapply Trace_max_inr_nonempty; eassumption.
  - intros (a & x0 & x1 & x2 & rest & ta & Ht & Hr & Ha & Hd).
    destruct (Trace_max_total ta Hd) as [va Hva].
    destruct (Trace_max_total (Trace_integrate (scaled (1 # 10 ^ 9) x0))
                (Trace_integrate_nonempty _)) as [vb Hvb].
    destruct (read_data_run L tstart tend lo hi w a x0 x1 x2 rest ta va vb
                Ht Hr Ha Hva Hvb) as [n Hn].
    eauto.
Qed.

(** X2. When the sorted rotational stream has fewer than three traces,
    [read_data] stops with an [IndexError] at the unit conversion of the
    first trace that is missing, after everything else has been processed
    and the traces that are there have been converted. *)
Theorem read_data_needs_three_rotational_traces L tstart tend lo hi w a r :
  trans_stream L tstart tend lo hi = inr a ->
  rot_stream L tstart tend lo hi = inr r ->
  (List.length r < 3)%nat ->
  exists n w',
    read_data L tstart tend lo hi w = (inl IndexError, w') /\
    w' = logged w (trans_calls tstart tend lo hi n
                   ++ firstn (12 + List.length r)
                             (rot_calls tstart tend lo hi)).
Proof.
  intros Ht Hr Hlen.
  unfold trans_stream, trans_before_response in Ht. chain_result Ht.
  unfold rot_stream in Hr. chain_result Hr.
  injection Ht as <-. injection Hr as Hr.
  unfold read_data. read_data_literals.
  destruct r as [|y0 [|y1 [|y2 r]]]; [ | | | cbn in Hlen; lia ];
    (do 2 eexists; split;
     [ repeat (fwd_step; rewrite ?Hr);
       apply bind_fail; apply scale_fail; reflexivity
     | f_equal; unfold trans_calls, rot_calls;
       cbn [List.length Nat.add firstn];
       repeat rewrite <- app_assoc; cbn [app]; reflexivity ]).
Qed.

Lemma read_data_needs_three_rotational_traces_witness :
  exists n w',
    read_data fixture_two_rot fixture_tstart fixture_tend fmin fmax
      initial_world = (inl IndexError, w') /\
    w' = logged initial_world
           (trans_calls fixture_tstart fixture_tend fmin fmax n
            ++ firstn (12 + 2) (rot_calls fixture_tstart fixture_tend fmin fmax)).
Proof.
  eapply (read_data_needs_three_rotational_traces fixture_two_rot
            fixture_tstart fixture_tend fmin fmax initial_world _
            [fixture_trace "HJ1" [3; 3; 3]%Q; fixture_trace "HJ2" [4; 4]%Q]);
    [ vm_compute; reflexivity | vm_compute; reflexivity | cbn; lia ].
Defined.

(** X3. The amplitude scales are taken last: when the sorted translational
    stream is empty [read_data] stops with an [IndexError], and when its
    first trace has no sample with a [ValueError], in both cases only after
    both streams have been read and processed in full. *)
Theorem read_data_needs_a_translational_sample
  L tstart tend lo hi w a x0 x1 x2 rest :
  trans_stream L tstart tend lo hi = inr a ->
  rot_stream L tstart tend lo hi = inr (x0 :: x1 :: x2 :: rest) ->
  (forall ta, nth_error a 0 = Some ta -> data ta = []) ->
  exists n,
    read_data L tstart tend lo hi w
    = (inl (match a with [] => IndexError | _ :: _ => ValueError end),
       logged w (trans_calls tstart tend lo hi n
                 ++ rot_calls tstart tend lo hi)).
Proof.
  intros Ht Hr Ha.
  unfold trans_stream, trans_before_response in Ht. chain_result Ht.
  unfold rot_stream in Hr. chain_result Hr.
  injection Ht as Ht. injection Hr as Hr.
  eexists. unfold read_data. read_data_literals.
  do 29 (fwd_step; rewrite ?Hr, ?Ht).
  destruct a as [|ta a].
  - erewrite bind_fail by (apply index_fail; reflexivity).
    f_equal. f_equal. unfold trans_calls, rot_calls.
    repeat rewrite <- app_assoc. cbn [app]. reflexivity.
  - fwd_step.
    erewrite bind_fail
      by (apply lift_fail; apply Trace_max_empty; apply Ha; reflexivity).
    f_equal. f_equal. unfold trans_calls, rot_calls.
    repeat rewrite <- app_assoc. cbn [app]. reflexivity.
Qed.

Lemma read_data_needs_a_translational_sample_witness :
  exists n,
    read_data fixture_no_trans fixture_tstart fixture_tend fmin fmax
      initial_world
    = (inl IndexError,
       logged initial_world
         (trans_calls fixture_tstart fixture_tend fmin fmax n
          ++ rot_calls fixture_tstart fixture_tend fmin fmax)).
Proof.
  eapply (read_data_needs_a_translational_sample fixture_no_trans
            fixture_tstart fixture_tend fmin fmax initial_world []
            (fixture_trace "HJ1" [3; 3; 3]%Q) (fixture_trace "HJ2" [4; 4]%Q)
            (fixture_trace "HJ3" [9; -9]%Q) []);
    [ vm_compute; reflexivity | vm_compute; reflexivity
    | intros ta H; discriminate ].
Defined.

(** X4. Only the first three traces of the sorted rotational stream are
    converted from nrad/s to rad/s; every further trace is integrated as it
    is. *)
Theorem read_data_converts_three_traces_only
  L tstart tend lo hi w st trans_max rot_max filename w' :
  read_data L tstart tend lo hi w
  = (inr (st, trans_max, rot_max, filename), w') ->
  exists a x0 x1 x2 rest,
    trans_stream L tstart tend lo hi = inr a /\
    rot_stream L tstart tend lo hi = inr (x0 :: x1 :: x2 :: rest) /\
    st = a ++ map (fun x => Trace_integrate (scaled (1 # 10 ^ 9) x))
                  [x0; x1; x2]
           ++ map Trace_integrate rest.
Proof.
  intros H. apply read_data_pure in H.
  destruct H as (a & x0 & x1 & x2 & rest & ta & va & vb &
                 Ht & Hr & Hst & _).
  exists a, x0, x1, x2, rest. auto.
Qed.

Lemma read_data_converts_three_traces_only_witness :
  exists st trans_max rot_max filename w',
    read_data fixture_four_rot fixture_tstart fixture_tend fmin fmax
      initial_world = (inr (st, trans_max, rot_max, filename), w') /\
    exists a x0 x1 x2 rest,
      trans_stream fixture_four_rot fixture_tstart fixture_tend fmin fmax
        = inr a /\
      rot_stream fixture_four_rot fixture_tstart fixture_tend fmin fmax
        = inr (x0 :: x1 :: x2 :: rest) /\
      st = a ++ map (fun x => Trace_integrate (scaled (1 # 10 ^ 9) x))
                    [x0; x1; x2]
             ++ map Trace_integrate rest.
Proof.
  do 5 eexists.
  refine ((fun E => conj E
             (read_data_converts_three_traces_only fixture_four_rot
                fixture_tstart fixture_tend fmin fmax initial_world
                _ _ _ _ _ E)) _).
  vm_compute. reflexivity.
Defined.

Lemma filter_response_all p pf out n :
  List.filter (fun c => is_read_inventory c || is_remove_response c)
    (List.concat (repeat
       [Call_read_inventory p; Call_remove_response pf out] n))
  = List.concat (repeat
       [Call_read_inventory p; Call_remove_response pf out] n).
Proof.
  induction n as [|n IH]; cbn [repeat List.concat app List.filter];
    [reflexivity|].
  cbn [is_read_inventory is_remove_response orb]. now rewrite IH.
Qed.

(** X5. In a run of [read_data] that returns, the station inventory is read
    again for every trace of the translational stream, once before each
    removal of the response. *)
Theorem read_data_reads_inventory_per_trace
  L tstart tend lo hi w st trans_max rot_max filename w' :
  read_data L tstart tend lo hi w
  = (inr (st, trans_max, rot_max, filename), w') ->
  exists t_b cs,
    trans_before_response L tstart tend = inr t_b /\
    calls w' = calls w ++ cs /\
    count is_read_inventory cs = List.length t_b /\
    count is_remove_response cs = List.length t_b /\
    List.filter (fun c => is_read_inventory c || is_remove_response c) cs
    = List.concat (repeat
        [Call_read_inventory "2019_Etna/Stations_Etna_2019_seis.xml";
         Call_remove_response [8 # 1000; 1 # 100; 95; 99]%Q "VEL"]
        (List.length t_b)).
Proof.
  intros H. pose proof H as H'. apply read_data_pure in H'.
  destruct H' as (a & x0 & x1 & x2 & rest & ta & va & vb &
                  Ht & Hr & _ & Ha & Hva & _ & Hvb & _).
  unfold trans_stream in Ht.
  apply bind_result_inr in Ht. destruct Ht as (t_b & Hb & Ht).
  exists t_b,
    (trans_calls tstart tend lo hi (List.length t_b)
     ++ rot_calls tstart tend lo hi).
  split; [exact Hb|].
  assert (Hw : w' = logged w (trans_calls tstart tend lo hi (List.length t_b)
                              ++ rot_calls tstart tend lo hi)).
  { assert (Hfwd : exists r,
              read_data L tstart tend lo hi w
              = (inr r, logged w (trans_calls tstart tend lo hi
                                    (List.length t_b)
                                  ++ rot_calls tstart tend lo hi))).
    { unfold trans_before_response in Hb. chain_result Hb. chain_result Ht.
      unfold rot_stream in Hr. chain_result Hr.
      injection Ht as Ht. injection Hr as Hr.
      eexists. unfold read_data. read_data_literals.
      repeat (fwd_step; rewrite ?Hr, ?Ht).
      unfold ret. f_equal. f_equal. unfold trans_calls, rot_calls.
      repeat rewrite <- app_assoc. cbn [app]. reflexivity. }
    destruct Hfwd as [r Hfwd]. rewrite H in Hfwd.
    apply (f_equal snd) in Hfwd. exact Hfwd. }
  subst w'. split; [reflexivity|].
  assert (Hrep : forall (P : call -> bool) n,
            P (Call_read_inventory "2019_Etna/Stations_Etna_2019_seis.xml")
              = true ->
            P (Call_remove_response prefilt "VEL") = false ->
            List.length (List.filter P (List.concat (repeat
              [Call_read_inventory "2019_Etna/Stations_Etna_2019_seis.xml";
               Call_remove_response prefilt "VEL"] n))) = n).
  { intros P n H1 H2. induction n as [|n IH];
      cbn [repeat List.concat app List.filter]; [reflexivity|].
    rewrite H1, H2. cbn [List.length]. now rewrite IH. }
  assert (Hrep' : forall (P : call -> bool) n,
            P (Call_read_inventory "2019_Etna/Stations_Etna_2019_seis.xml")
              = false ->
            P (Call_remove_response prefilt "VEL") = true ->
            List.length (List.filter P (List.concat (repeat
              [Call_read_inventory "2019_Etna/Stations_Etna_2019_seis.xml";
               Call_remove_response prefilt "VEL"] n))) = n).
  { intros P n H1 H2. induction n as [|n IH];
      cbn [repeat List.concat app List.filter]; [reflexivity|].
    rewrite H1, H2. cbn [List.length]. now rewrite IH. }
  unfold count, trans_calls. rewrite !filter_app, !length_app.
  rewrite Hrep, Hrep' by reflexivity.
  split; [cbn; lia|]. split; [cbn; lia|].
  rewrite filter_response_all.
  cbn [List.filter is_read_inventory is_remove_response orb app rot_calls].
  rewrite ?app_nil_r. reflexivity.
Qed.

Lemma read_data_reads_inventory_per_trace_witness :
  read_data fixture fixture_tstart fixture_tend fmin fmax initial_world
  = (inr (fixture_st, fixture_trans_max, fixture_rot_max, fixture_filename),
     fixture_world1) /\
  exists t_b cs,
    trans_before_response fixture fixture_tstart fixture_tend = inr t_b /\
    calls fixture_world1 = calls initial_world ++ cs /\
    count is_read_inventory cs = List.length t_b /\
    count is_remove_response cs = List.length t_b /\
    List.filter (fun c => is_read_inventory c || is_remove_response c) cs
    = List.concat (repeat
        [Call_read_inventory "2019_Etna/Stations_Etna_2019_seis.xml";
         Call_remove_response [8 # 1000; 1 # 100; 95; 99]%Q "VEL"]
        (List.length t_b)).
Proof.
  assert (H : read_data fixture fixture_tstart fixture_tend fmin fmax
                initial_world
              = (inr (fixture_st, fixture_trans_max, fixture_rot_max,
                      fixture_filename), fixture_world1))
    by (vm_compute; reflexivity).
  split; [exact H|].
  exact (read_data_reads_inventory_per_trace _ _ _ _ _ _ _ _ _ _ _ H).
Defined.

(** ** What the functions leave alone *)

Lemma keeps_figure_ret {A} (a : A) : keeps_figure (ret a).
Proof. intros w. reflexivity. Qed.

Lemma keeps_figure_raise {A} e : keeps_figure (@raise A e).
Proof. intros w. reflexivity. Qed.

Lemma keeps_figure_lift {A} (r : result A) : keeps_figure (lift r).
Proof. destruct r; intros w; reflexivity. Qed.

Lemma keeps_figure_tell c : keeps_figure (tell c).
Proof. intros w. reflexivity. Qed.

Lemma keeps_figure_bind {A B} (m : M A) (k : A -> M B) :
  keeps_figure m -> (forall a, keeps_figure (k a)) -> keeps_figure (bind m k).
Proof.
  intros Hm Hk w. unfold bind. specialize (Hm w).
  destruct (m w) as [[e|a] w1]; cbn [snd] in *; [exact Hm|].
  now rewrite Hk.
Qed.

Lemma keeps_figure_index {A} (xs : list A) i : keeps_figure (index xs i).
Proof. unfold index. destruct (nth_error xs i); intros w; reflexivity. Qed.

Lemma keeps_figure_for_each_trace (body : Trace -> M Trace) st :
  (forall tr, keeps_figure (body tr)) -> keeps_figure (for_each_trace st body).
Proof.
  intros Hb. induction st as [|x xs IH]; cbn [for_each_trace].
  - apply keeps_figure_ret.
  - apply keeps_figure_bind; auto. intros tr'.
    apply keeps_figure_bind; auto. intros rest. apply keeps_figure_ret.
Qed.

Lemma calls_only_ret {A} P (a : A) : calls_only P (ret a).
Proof. intros w. exists []. cbn. now rewrite app_nil_r. Qed.

Lemma calls_only_raise {A} P e : calls_only P (@raise A e).
Proof. intros w. exists []. cbn. now rewrite app_nil_r. Qed.

Lemma calls_only_lift {A} P (r : result A) : calls_only P (lift r).
Proof. destruct r; [apply calls_only_raise | apply calls_only_ret]. Qed.

Lemma calls_only_tell (P : call -> bool) c :
  P c = true -> calls_only P (tell c).
Proof. intros H w. exists [c]. cbn. now rewrite H. Qed.

Lemma calls_only_get_figure P : calls_only P get_figure.
Proof. intros w. exists []. cbn. now rewrite app_nil_r. Qed.

Lemma calls_only_put_figure P f : calls_only P (put_figure f).
Proof. intros w. exists []. cbn. now rewrite app_nil_r. Qed.

Lemma calls_only_bind {A B} P (m : M A) (k : A -> M B) :
  calls_only P m -> (forall a, calls_only P (k a)) -> calls_only P (bind m k).
Proof.
  intros Hm Hk w. unfold bind. destruct (Hm w) as (cs & Hc & Hp).
  destruct (m w) as [[e|a] w1]; cbn [snd] in *; [eauto|].
  destruct (Hk a w1) as (cs' & Hc' & Hp').
  exists (cs ++ cs'). rewrite Hc', Hc, app_assoc. split; [reflexivity|].
  rewrite forallb_app. now rewrite Hp, Hp'.
Qed.

Lemma calls_only_index {A} P (xs : list A) i : calls_only P (index xs i).
Proof.
  unfold index. destruct (nth_error xs i);
    [apply calls_only_ret | apply calls_only_raise].
Qed.

Lemma calls_only_local {A} P name (v : option A) : calls_only P (local name v).
Proof. destruct v; [apply calls_only_ret | apply calls_only_raise]. Qed.

Lemma calls_only_if {A} P (b : bool) (m1 m2 : M A) :
  calls_only P m1 -> calls_only P m2 -> calls_only P (if b then m1 else m2).
Proof. now destruct b. Qed.

Lemma calls_only_for_each_acc {A S} P (body : A -> S -> M S) xs :
  (forall x s, calls_only P (body x s)) ->
  forall s, calls_only P (for_each_acc xs s body).
Proof.
  intros Hb. induction xs as [|x xs IH]; intros s; cbn [for_each_acc].
  - apply calls_only_ret.
  - apply calls_only_bind; auto.
Qed.

Lemma calls_only_for_each_trace P (body : Trace -> M Trace) st :
  (forall tr, calls_only P (body tr)) -> calls_only P (for_each_trace st body).
Proof.
  intros Hb. induction st as [|x xs IH]; cbn [for_each_trace].
  - apply calls_only_ret.
  - apply calls_only_bind; auto. intros tr'.
    apply calls_only_bind; auto. intros rest. apply calls_only_ret.
Qed.

Ltac keeps_figure_tac :=
  repeat first
    [ apply keeps_figure_ret | apply keeps_figure_raise
    | apply keeps_figure_lift | apply keeps_figure_tell
    | apply keeps_figure_index
    | apply keeps_figure_for_each_trace; intros
    | apply keeps_figure_bind; [|intros] ].

Ltac calls_only_tac :=
  repeat first
    [ apply calls_only_ret | apply calls_only_raise | apply calls_only_lift
    | apply calls_only_tell; reflexivity
    | apply calls_only_get_figure | apply calls_only_put_figure
    | apply calls_only_index | apply calls_only_local
    | apply calls_only_for_each_acc; intros
    | apply calls_only_for_each_trace; intros
    | apply calls_only_bind; [|intros]
    | apply calls_only_if
    | match goal with
      | |- calls_only _ (match ?x with _ => _ end) => destruct x
      end ].

(** X6. [read_data] never touches the figure and makes none of the calls of
    the plotting (no spectrogram, no savefig, no show, no close), whatever
    the library answers and whether it returns or fails. *)
Theorem read_data_never_plots L tstart tend lo hi :
  keeps_figure (read_data L tstart tend lo hi) /\
  calls_only is_processing_call (read_data L tstart tend lo hi).
Proof.
  split.
  - unfold read_data, read, print, detrend, taper, read_inventory,
      remove_response, filter, trim, sort, scale, integrate.
    keeps_figure_tac.
  - unfold read_data, read, print, detrend, taper, read_inventory,
      remove_response, filter, trim, sort, scale, integrate.
    calls_only_tac.
Qed.

(** X7. [plotting_6C] reads no file and processes no stream: whatever
    happens, the only calls it makes are spectrogram computations, savefig
    and show. *)
Theorem plotting_6C_only_plots L tstart st trans_max rot_max filename :
  calls_only is_plotting_call
    (plotting_6C L tstart st trans_max rot_max filename).
Proof.
  unfold plotting_6C, plt_figure, plt_savefig, plt_show, plotting_6C_body,
    plot_seismogram, plot_spectrogram, spectrogram, plt_pcolormesh, plt_gca,
    plt_subplot, plt_colorbar, fig_add_axes, update_axes.
  cbn [log]. calls_only_tac.
Qed.

(** * Further properties of [plotting_6C] *)

Ltac world_norm :=
  cbv beta; cbn [calls figure axes colorbars gca];
  rewrite <- ?app_assoc; cbn [app]; rewrite ?last_length.

Ltac one_pass Hc :=
  rewrite bind_assoc;
  erewrite bind_run by
    (apply plotting_6C_body_run;
     [ reflexivity | reflexivity | reflexivity | reflexivity | eassumption
     | first [exact Hc | apply label_channel_bound] ]);
  world_norm.

Ltac failing_pass :=
  rewrite ?bind_assoc; apply bind_fail;
  apply plotting_6C_body_index; reflexivity.

Ltac spectra H :=
  repeat match type of H with
  | Forall _ (_ :: _) =>
      let E := fresh "E" in
      let H' := fresh "H" in
      apply Forall_cons_iff in H; destruct H as [E H];
      destruct E as [? E]
  end.

(** X8. On a stream of fewer than six traces [plotting_6C] draws the panels
    of the traces that are there and then stops with an [IndexError];
    nothing is saved or shown. *)
Theorem plotting_6C_needs_six_traces
  L tstart st trans_max rot_max filename w :
  (List.length st < 6)%nat ->
  Forall (fun tr => exists sp,
            lib_spectrogram L (data tr) (sampling_rate (stats tr)) wlen overlap
            = inr sp) st ->
  (forall t0, nth_error st 0 = Some t0 ->
     label_channel (channel (stats t0)) None <> None) ->
  exists w',
    plotting_6C L tstart st trans_max rot_max filename w
    = (inl IndexError, w') /\
    calls w' = calls w ++ map spectrogram_call st /\
    List.length (colorbars (figure w')) = List.length st.
Proof.
  intros Hlen Hsp Hlab. destruct w as [cs f0]. cbn [calls].
  assert (Hc : forall t0, nth_error st 0 = Some t0 ->
            exists c0, label_channel (channel (stats t0)) None = Some c0).
  { intros t0 H0. specialize (Hlab t0 H0).
    destruct (label_channel (channel (stats t0)) None); [eauto|congruence]. }
  unfold plotting_6C, plt_figure.
  erewrite bind_run by reflexivity. world_norm.
  cbn [seq for_each_acc].
  change empty_figure with (mkFigure [] [] None).
  destruct st as [|t0 [|t1 [|t2 [|t3 [|t4 [|t5 st]]]]]];
    [ | | | | | | cbn in Hlen; lia ];
    try (destruct (Hc t0 eq_refl) as [c0 Hc0]); spectra Hsp;
    eexists; (split; [|split]).
  all: try (repeat one_pass Hc0; failing_pass).
  all: try (failing_pass).
  all: cbn [map app List.length calls figure colorbars];
    rewrite ?app_nil_r; reflexivity.
Qed.

Lemma plotting_6C_needs_six_traces_witness :
  exists w',
    plotting_6C fixture fixture_tstart (firstn 2 fixture_st) fixture_trans_max
      fixture_rot_max fixture_filename fixture_world1
    = (inl IndexError, w') /\
    calls w' = calls fixture_world1
               ++ map spectrogram_call (firstn 2 fixture_st) /\
    List.length (colorbars (figure w')) = List.length (firstn 2 fixture_st).
Proof.
  apply (plotting_6C_needs_six_traces fixture fixture_tstart
           (firstn 2 fixture_st) fixture_trans_max fixture_rot_max
           fixture_filename fixture_world1).
  - cbn. lia.
  - repeat constructor; eexists; reflexivity.
  - intros t0 H. cbn in H. injection H as <-. discriminate.
Defined.

(** X9. The time axis is labelled on the bottom row only: of the six
    panels, only panel 5 gets an x label, and only panel 5 keeps its x tick
    labels, and that only when the stream has exactly six traces; with a
    seventh trace in the stream no panel keeps them. *)
Theorem plotting_6C_time_axis_on_bottom_row
  L tstart st trans_max rot_max filename w
  t0 t1 t2 t3 t4 t5 rest s0 s1 s2 s3 s4 s5 c0 :
  st = t0 :: t1 :: t2 :: t3 :: t4 :: t5 :: rest ->
  lib_spectrogram L (data t0) (sampling_rate (stats t0)) wlen overlap = inr s0 ->
  lib_spectrogram L (data t1) (sampling_rate (stats t1)) wlen overlap = inr s1 ->
  lib_spectrogram L (data t2) (sampling_rate (stats t2)) wlen overlap = inr s2 ->
  lib_spectrogram L (data t3) (sampling_rate (stats t3)) wlen overlap = inr s3 ->
  lib_spectrogram L (data t4) (sampling_rate (stats t4)) wlen overlap = inr s4 ->
  lib_spectrogram L (data t5) (sampling_rate (stats t5)) wlen overlap = inr s5 ->
  label_channel (channel (stats t0)) None = Some c0 ->
  exists w',
    plotting_6C L tstart st trans_max rot_max filename w = (inr tt, w') /\
    forall i, (i < 6)%nat ->
      exists a b,
        nth_error (axes (figure w')) (3 * i) = Some a /\
        nth_error (axes (figure w')) (3 * i + 1) = Some b /\
        xlabel a = (if (i =? 5)%nat
                    then Some (TimeOn (starttime (stats t5))) else None) /\
        xlabel b = (if (i =? 5)%nat
                    then Some (TimeFrom (starttime (stats t5))) else None) /\
        xticklabels_visible a
        = match rest with [] => (i =? 5)%nat | _ :: _ => false end /\
        xticklabels_visible b
        = match rest with [] => (i =? 5)%nat | _ :: _ => false end.
Proof.
  intros Hst H0 H1 H2 H3 H4 H5 Hc. eexists.
  split; [eapply plotting_6C_run; eassumption|].
  cbn [figure]. intros i Hi.
  assert (Hv : forall j, (j < 6)%nat ->
            negb (negb (Z.of_nat j =? Z.of_nat (List.length st) - 1)%Z)
            = match rest with [] => (j =? 5)%nat | _ :: _ => false end).
  { intros j Hj. rewrite negb_involutive, Hst. destruct rest as [|x rest].
    - destruct j as [|[|[|[|[|[|j]]]]]]; [ reflexivity .. | lia ].
    - apply Z.eqb_neq. cbn [List.length]. lia. }
  six_cases i Hi; do 2 eexists; (split; [reflexivity|]);
    (split; [reflexivity|]); (split; [reflexivity|]);
    (split; [reflexivity|]);
    cbn [xticklabels_visible seismogram_panel spectrogram_panel p_index];
    split; apply Hv; lia.
Qed.

Lemma plotting_6C_time_axis_on_bottom_row_witness :
  exists w',
    plotting_6C fixture fixture_tstart fixture_st fixture_trans_max
      fixture_rot_max fixture_filename fixture_world1 = (inr tt, w') /\
    forall i, (i < 6)%nat ->
      exists a b,
        nth_error (axes (figure w')) (3 * i) = Some a /\
        nth_error (axes (figure w')) (3 * i + 1) = Some b /\
        xlabel a = (if (i =? 5)%nat
                    then Some (TimeOn (starttime
                                 (stats (nth 5 fixture_st
                                           (fixture_trace "HJ3" [])))))
                    else None) /\
        xlabel b = (if (i =? 5)%nat
                    then Some (TimeFrom (starttime
                                 (stats (nth 5 fixture_st
                                           (fixture_trace "HJ3" [])))))
                    else None) /\
        xticklabels_visible a = (i =? 5)%nat /\
        xticklabels_visible b = (i =? 5)%nat.
Proof.
  eapply (plotting_6C_time_axis_on_bottom_row fixture fixture_tstart
            fixture_st fixture_trans_max fixture_rot_max fixture_filename
            fixture_world1 _ _ _ _ _ _ []);
    reflexivity.
Defined.

(** X10. [plotting_6C] saves once, at the end: after the six spectrograms
    have been computed, one for each of the first six traces in their order,
    the finished figure is saved as PNG at 500 dpi under the name it was
    given, and then shown. *)
Theorem plotting_6C_saves_the_finished_figure
  L tstart st trans_max rot_max filename w
  t0 t1 t2 t3 t4 t5 rest s0 s1 s2 s3 s4 s5 c0 :
  st = t0 :: t1 :: t2 :: t3 :: t4 :: t5 :: rest ->
  lib_spectrogram L (data t0) (sampling_rate (stats t0)) wlen overlap = inr s0 ->
  lib_spectrogram L (data t1) (sampling_rate (stats t1)) wlen overlap = inr s1 ->
  lib_spectrogram L (data t2) (sampling_rate (stats t2)) wlen overlap = inr s2 ->
  lib_spectrogram L (data t3) (sampling_rate (stats t3)) wlen overlap = inr s3 ->
  lib_spectrogram L (data t4) (sampling_rate (stats t4)) wlen overlap = inr s4 ->
  lib_spectrogram L (data t5) (sampling_rate (stats t5)) wlen overlap = inr s5 ->
  label_channel (channel (stats t0)) None = Some c0 ->
  exists w',
    plotting_6C L tstart st trans_max rot_max filename w = (inr tt, w') /\
    calls w'
    = calls w
      ++ map (fun tr => Call_spectrogram (List.length (data tr))
                          (sampling_rate (stats tr)) 128 overlap)
             (firstn 6 st)
      ++ [Call_savefig filename "png" 500 (figure w'); Call_show].
Proof.
  intros Hst H0 H1 H2 H3 H4 H5 Hc. eexists.
  split; [eapply plotting_6C_run; eassumption|].
  rewrite Hst. reflexivity.
Qed.

Lemma plotting_6C_saves_the_finished_figure_witness :
  exists w',
    plotting_6C fixture fixture_tstart fixture_st fixture_trans_max
      fixture_rot_max fixture_filename fixture_world1 = (inr tt, w') /\
    calls w'
    = calls fixture_world1
      ++ map (fun tr => Call_spectrogram (List.length (data tr))
                          (sampling_rate (stats tr)) 128 overlap)
             (firstn 6 fixture_st)
      ++ [Call_savefig fixture_filename "png" 500 (figure w'); Call_show].
Proof.
  eapply (plotting_6C_saves_the_finished_figure fixture fixture_tstart
            fixture_st fixture_trans_max fixture_rot_max fixture_filename
            fixture_world1);
    reflexivity.
Defined.

(** X11. [chan] outlives a pass of the loop: a channel after the first whose
    name [plotting_6C] does not know gets the label of the panel above it,
    and a channel whose name it knows gets its own. *)
Theorem plotting_6C_reuses_the_label_above
  L tstart st trans_max rot_max filename w
  t0 t1 t2 t3 t4 t5 rest s0 s1 s2 s3 s4 s5 c0 :
  st = t0 :: t1 :: t2 :: t3 :: t4 :: t5 :: rest ->
  lib_spectrogram L (data t0) (sampling_rate (stats t0)) wlen overlap = inr s0 ->
  lib_spectrogram L (data t1) (sampling_rate (stats t1)) wlen overlap = inr s1 ->
  lib_spectrogram L (data t2) (sampling_rate (stats t2)) wlen overlap = inr s2 ->
  lib_spectrogram L (data t3) (sampling_rate (stats t3)) wlen overlap = inr s3 ->
  lib_spectrogram L (data t4) (sampling_rate (stats t4)) wlen overlap = inr s4 ->
  lib_spectrogram L (data t5) (sampling_rate (stats t5)) wlen overlap = inr s5 ->
  label_channel (channel (stats t0)) None = Some c0 ->
  exists w' labels,
    plotting_6C L tstart st trans_max rot_max filename w = (inr tt, w') /\
    List.length labels = 6%nat /\
    nth_error labels 0 = Some c0 /\
    forall i tr, (i < 6)%nat -> nth_error st i = Some tr ->
      exists a c,
        nth_error (axes (figure w')) (3 * i) = Some a /\
        nth_error labels i = Some c /\
        ylabel a = Some (station (stats tr) ++ ": " ++ c)%string /\
        (known_channel (channel (stats tr)) = true ->
         c = label_of (channel (stats tr))) /\
        (known_channel (channel (stats tr)) = false ->
         i = 0%nat \/ nth_error labels (i - 1) = Some c).
Proof.
  intros Hst H0 H1 H2 H3 H4 H5 Hc. eexists.
  exists (map p_label (panels_6C t0 t1 t2 t3 t4 t5 s0 s1 s2 s3 s4 s5 c0)).
  split; [eapply plotting_6C_run; eassumption|].
  split; [reflexivity|]. split; [reflexivity|].
  cbn [figure]. intros i tr Hi Htr. rewrite Hst in Htr.
  assert (Hk : forall name c, known_channel name = true ->
            relabel name c = label_of name)
    by (intros; now apply relabel_known).
  assert (Hu : forall name c, known_channel name = false ->
            relabel name c = c).
  { intros name c Hn. unfold relabel.
    now rewrite label_channel_unknown by exact Hn. }
  six_cases i Hi; cbn in Htr; injection Htr as <-;
    do 2 eexists; (split; [reflexivity|]); (split; [reflexivity|]);
    (split; [reflexivity|]); cbn [p_label]; split; intros Hkn;
    try (now apply Hk);
    try (right; cbn [Nat.sub nth_error map panels_6C p_label];
         rewrite (Hu _ _ Hkn); reflexivity).
  - rewrite label_channel_known in Hc by exact Hkn. now injection Hc.
  - now left.
Qed.

Lemma plotting_6C_reuses_the_label_above_witness :
  exists w' labels,
    plotting_6C fixture fixture_tstart
      (fixture_trace "HHE" [1; 2]%Q :: fixture_trace "BHZ" [1; 2]%Q
       :: skipn 2 fixture_st)
      fixture_trans_max fixture_rot_max fixture_filename fixture_world1
    = (inr tt, w') /\
    List.length labels = 6%nat /\
    nth_error labels 0 = Some "HHE (m/s)"%string /\
    forall i tr, (i < 6)%nat ->
      nth_error (fixture_trace "HHE" [1; 2]%Q :: fixture_trace "BHZ" [1; 2]%Q
                 :: skipn 2 fixture_st) i = Some tr ->
      exists a c,
        nth_error (axes (figure w')) (3 * i) = Some a /\
        nth_error labels i = Some c /\
        ylabel a = Some (station (stats tr) ++ ": " ++ c)%string /\
        (known_channel (channel (stats tr)) = true ->
         c = label_of (channel (stats tr))) /\
        (known_channel (channel (stats tr)) = false ->
         i = 0%nat \/ nth_error labels (i - 1) = Some c).
Proof.
  eapply (plotting_6C_reuses_the_label_above fixture fixture_tstart _
            fixture_trans_max fixture_rot_max fixture_filename fixture_world1);
    reflexivity.
Defined.

(** * Further properties of [plot_spectrogram] and of the cells around it *)

Lemma plt_pcolormesh_inr x y c lo hi w img w' :
  plt_pcolormesh x y c lo hi w = (inr img, w') -> img = mkMesh x y c lo hi.
Proof.
  unfold plt_pcolormesh. intros H.
  apply bind_inr in H. destruct H as (k & w1 & _ & H).
  apply bind_inr in H. destruct H as (u & w2 & _ & H).
  apply ret_inr in H. now destruct H as [<- _].
Qed.

Lemma Forall2_shift (f : Q -> Q) (d : Q) l :
  (forall x, f x == x + d)%Q ->
  Forall2 (fun y t => (y == t + d)%Q) (map f l) l.
Proof. intros Hf. induction l; cbn [map]; constructor; auto. Qed.

(** X12. The image that [plot_spectrogram] returns is the spectral density
    the library computed, drawn between the bounds it was given, with its
    time axis moved by the time from [tstart] to the start of the trace:
    multiplying by the sampling rate and dividing by it again cancels when
    the rate is not zero. *)
Theorem plot_spectrogram_shifts_time_axis
  L axis tr lo hi tstart wl ov w img w' :
  plot_spectrogram L axis tr lo hi tstart wl ov w = (inr img, w') ->
  ~ (sampling_rate (stats tr) == 0)%Q ->
  exists sp,
    lib_spectrogram L (data tr) (sampling_rate (stats tr)) wl ov = inr sp /\
    mesh_y img = sp_f sp /\
    mesh_c img = sp_Sxx sp /\
    mesh_vmin img = lo /\
    mesh_vmax img = hi /\
    Forall2 (fun x t => (x == t + UTC.diff (starttime (stats tr)) tstart)%Q)
            (mesh_x img) (sp_t sp).
Proof.
  unfold plot_spectrogram. intros H Hfs.
  apply bind_inr in H. destruct H as (sp & w1 & Hsp & H).
  apply call_inr in Hsp. destruct Hsp as [Hsp _].
  apply bind_inr in H. destruct H as (img0 & w2 & Himg & H).
  apply plt_pcolormesh_inr in Himg.
  apply bind_inr in H. destruct H as (u1 & w3 & _ & H).
  apply bind_inr in H. destruct H as (u2 & w4 & _ & H).
  apply bind_inr in H. destruct H as (u3 & w5 & _ & H).
  apply ret_inr in H. destruct H as [<- _]. subst img0.
  exists sp. cbn [mesh_x mesh_y mesh_c mesh_vmin mesh_vmax].
  repeat split; auto.
  apply Forall2_shift. intros x. field. exact Hfs.
Qed.

Lemma plot_spectrogram_shifts_time_axis_witness :
  exists img w',
    plot_spectrogram fixture 1 (fixture_trace "HHZ" [1; -1]%Q) vmin1 vmax1
      (UTC.sub fixture_tstart 2) wlen overlap
      (mkWorld [] (mkFigure [new_axes (SubplotPos 6 2 1);
                             new_axes (SubplotPos 6 2 2)] [] (Some 1%nat)))
    = (inr img, w') /\
    ~ (sampling_rate (stats (fixture_trace "HHZ" [1; -1]%Q)) == 0)%Q /\
    exists sp,
      lib_spectrogram fixture (data (fixture_trace "HHZ" [1; -1]%Q))
        (sampling_rate (stats (fixture_trace "HHZ" [1; -1]%Q))) wlen overlap
      = inr sp /\
      mesh_y img = sp_f sp /\
      mesh_c img = sp_Sxx sp /\
      mesh_vmin img = vmin1 /\
      mesh_vmax img = vmax1 /\
      Forall2 (fun x t =>
                 (x == t + UTC.diff
                            (starttime (stats (fixture_trace "HHZ" [1; -1]%Q)))
                            (UTC.sub fixture_tstart 2))%Q)
              (mesh_x img) (sp_t sp).
Proof.
  do 2 eexists.
  refine ((fun E N => conj E (conj N
             (plot_spectrogram_shifts_time_axis fixture 1
                (fixture_trace "HHZ" [1; -1]%Q) vmin1 vmax1
                (UTC.sub fixture_tstart 2) wlen overlap _ _ _ E N))) _ _).
  - vm_compute. reflexivity.
  - vm_compute. discriminate.
Defined.

Lemma plot_spectrogram_fail L axis tr lo hi tstart wl ov cs fig e :
  lib_spectrogram L (data tr) (sampling_rate (stats tr)) wl ov = inl e ->
  plot_spectrogram L axis tr lo hi tstart wl ov (mkWorld cs fig)
  = (inl e,
     mkWorld (cs ++ [Call_spectrogram (npts tr) (sampling_rate (stats tr))
                                      wl ov]) fig).
Proof.
  intros H. unfold plot_spectrogram. apply bind_fail.
  unfold spectrogram, bind, tell, lift. rewrite H. reflexivity.
Qed.

Ltac plot_step :=
  lazymatch goal with
  | |- bind (bind _ _) _ _ = _ => rewrite bind_assoc
  | |- bind (if ?b then _ else _) _ _ = _ => destruct b
  | |- bind (index _ _) _ _ = _ =>
      erewrite bind_run by (apply index_run; eassumption)
  | |- bind (update_axes _ _) _ _ = _ =>
      erewrite bind_run by
        (first [apply update_axes_at0 | apply update_axes_at1])
  | |- bind (plot_seismogram _ _) _ _ = _ =>
      erewrite bind_run by (unfold plot_seismogram; apply update_axes_at0)
  | |- bind plt_gca _ _ = _ => erewrite bind_run by apply plt_gca_run
  | |- bind (plt_subplot _ _ _) _ _ = _ =>
      erewrite bind_run by
        (apply plt_subplot_new;
         first [ assumption
               | apply find_axes_snoc_none;
                 [assumption | apply subplot_pos_distinct] ])
  | |- bind (local _ (Some _)) _ _ = _ => erewrite bind_run by reflexivity
  end; world_norm.

(** A pass of the loop whose spectrogram cannot be computed. *)
Lemma plotting_6C_body_spectrogram_fails
  L tstart st tm rm i chan cs axs cbs g tr c e :
  nth_error st i = Some tr ->
  find_axes (SubplotPos 6 2 (1 + 2 * i)) 0 axs = None ->
  find_axes (SubplotPos 6 2 (2 + 2 * i)) 0 axs = None ->
  label_channel (channel (stats tr)) chan = Some c ->
  lib_spectrogram L (data tr) (sampling_rate (stats tr)) wlen overlap = inl e ->
  plotting_6C_body L tstart st tm rm i chan (mkWorld cs (mkFigure axs cbs g))
  = (inl e,
     mkWorld (cs ++ [spectrogram_call tr])
       (mkFigure
          (axs ++ [ax_set_time_axis "%H:%M:%S" ticks
                     (ax_set_ylabel (station (stats tr) ++ ": " ++ c)
                        (ax_set_ylim (if (i <? 3)%nat then - tm else - rm)
                                     (if (i <? 3)%nat then tm else rm)
                           (ax_plot tr
                              (new_axes (SubplotPos 6 2 (1 + 2 * i))))));
                   new_axes (SubplotPos 6 2 (2 + 2 * i))])
          cbs (Some (S (List.length axs))))).
Proof.
  intros Hi Hf0 Hf1 Hc Hsp. unfold plotting_6C_body. cbv zeta.
  destruct (i <? 3)%nat.
  all: repeat (rewrite ?Hc; plot_step).
  all: apply bind_fail; apply plot_spectrogram_fail; exact Hsp.
Qed.

Ltac failing_spectrogram Hc Hsp :=
  rewrite ?bind_assoc; apply bind_fail;
  apply plotting_6C_body_spectrogram_fails;
  [ reflexivity | reflexivity | reflexivity
  | first [exact Hc | apply label_channel_bound] | exact Hsp ].

(** X13. When the spectrogram of one of the first six traces cannot be
    computed (a trace too short for the window, say), [plotting_6C] stops
    with the error of the library: the panels above are drawn, nothing is
    saved or shown. *)
Theorem plotting_6C_aborts_when_a_spectrogram_fails
  L tstart st trans_max rot_max filename w pre tr post e :
  st = pre ++ tr :: post ->
  (List.length pre < 6)%nat ->
  Forall (fun t => exists sp,
            lib_spectrogram L (data t) (sampling_rate (stats t)) wlen overlap
            = inr sp) pre ->
  (forall t0, nth_error st 0 = Some t0 ->
     label_channel (channel (stats t0)) None <> None) ->
  lib_spectrogram L (data tr) (sampling_rate (stats tr)) wlen overlap = inl e ->
  exists w',
    plotting_6C L tstart st trans_max rot_max filename w = (inl e, w') /\
    calls w' = calls w ++ map spectrogram_call (pre ++ [tr]) /\
    List.length (colorbars (figure w')) = List.length pre.
Proof.
  intros Hst Hlen Hpre Hlab Hsp. destruct w as [cs f0]. cbn [calls].
  assert (Hc : forall t0, nth_error st 0 = Some t0 ->
            exists c0, label_channel (channel (stats t0)) None = Some c0).
  { intros t0 H0. specialize (Hlab t0 H0).
    destruct (label_channel (channel (stats t0)) None); [eauto|congruence]. }
  unfold plotting_6C, plt_figure.
  erewrite bind_run by reflexivity. world_norm.
  cbn [seq for_each_acc].
  change empty_figure with (mkFigure [] [] None).
  subst st.
  destruct pre as [|t0 [|t1 [|t2 [|t3 [|t4 [|t5 pre]]]]]];
    [ | | | | | | cbn in Hlen; lia ];
    cbn [app] in *; spectra Hpre;
    match type of Hc with
    | forall t, nth_error (?x :: _) 0 = Some t -> _ =>
        destruct (Hc x eq_refl) as [c0 Hc0]
    end;
    eexists; (split; [|split]).
  all: try (repeat one_pass Hc0; failing_spectrogram Hc0 Hsp).
  all: try (failing_spectrogram Hc0 Hsp).
  all: cbn [map app List.length calls figure colorbars];
    rewrite <- ?app_assoc; reflexivity.
Qed.

Lemma plotting_6C_aborts_when_a_spectrogram_fails_witness :
  exists w',
    plotting_6C fixture_strict fixture_tstart fixture_st fixture_trans_max
      fixture_rot_max fixture_filename fixture_world1
    = (inl ValueError, w') /\
    calls w' = calls fixture_world1
               ++ map spectrogram_call ([] ++ [nth 0 fixture_st
                                                 (fixture_trace "" [])]) /\
    List.length (colorbars (figure w')) = List.length (@nil Trace).
Proof.
  eapply (plotting_6C_aborts_when_a_spectrogram_fails fixture_strict
            fixture_tstart fixture_st fixture_trans_max fixture_rot_max
            fixture_filename fixture_world1 []).
  - reflexivity.
  - cbn. lia.
  - constructor.
  - intros t0 H. cbn in H. injection H as <-. discriminate.
  - vm_compute. reflexivity.
Defined.

Lemma plt_subplots_run cs fig :
  plt_subplots (mkWorld cs fig)
  = (inr 0%nat,
     mkWorld cs (mkFigure [new_axes (SubplotPos 1 1 1)] [] (Some 0%nat))).
Proof. reflexivity. Qed.

Lemma plt_show_run cs fig :
  plt_show (mkWorld cs fig) = (inr tt, mkWorld (cs ++ [Call_show]) fig).
Proof. reflexivity. Qed.

Lemma plt_close_run cs fig :
  plt_close (mkWorld cs fig)
  = (inr tt, mkWorld (cs ++ [Call_close]) empty_figure).
Proof. reflexivity. Qed.

(** X14. Once [read_data] has returned for the first window, the cells that
    plot one seismogram and one spectrogram can fail only in the
    spectrogram: the stream has a first trace, and the cells run to the end,
    leaving no figure open, exactly when the library computes its
    spectrogram.  Their window is that of the first event of the loop, which
    reads the same data again. *)
Theorem demonstration_cells_fail_only_in_the_spectrogram
  L w st trans_max rot_max filename w1 :
  read_data L (UTC.make 2019 9 4 15 52 0) (UTC.make 2019 9 4 15 54 0)
            fmin fmax w
  = (inr (st, trans_max, rot_max, filename), w1) ->
  exists ta,
    nth_error st 0 = Some ta /\
    nth_error event_windows 0
    = Some (UTC.make 2019 9 4 15 52 0, UTC.make 2019 9 4 15 54 0) /\
    match lib_spectrogram L (data ta) (sampling_rate (stats ta)) wlen overlap
    with
    | inr _ =>
        third_and_fourth_cell L w
        = (inr (UTC.make 2019 9 4 15 52 0, UTC.make 2019 9 4 15 54 0),
           mkWorld (calls w1
                    ++ [Call_show; Call_close;
                        Call_spectrogram (npts ta) (sampling_rate (stats ta))
                                         128 overlap;
                        Call_show; Call_close])
                   empty_figure)
    | inl e =>
        third_and_fourth_cell L w
        = (inl e,
           mkWorld (calls w1
                    ++ [Call_show; Call_close;
                        Call_spectrogram (npts ta) (sampling_rate (stats ta))
                                         128 overlap])
                   (mkFigure [new_axes (SubplotPos 1 1 1)] [] (Some 0%nat)))
    end.
Proof.
  intros H. pose proof H as H'. apply read_data_pure in H'.
  destruct H' as (a & x0 & x1 & x2 & rest & ta & va & vb &
                  _ & _ & Hst & Ha & _).
  assert (Hta : nth_error st 0 = Some ta).
  { subst st. destruct a as [|t a]; [discriminate|]. exact Ha. }
  exists ta. split; [exact Hta|]. split; [reflexivity|].
  destruct w1 as [cs1 f1]. cbn [calls].
  unfold third_and_fourth_cell. cbv zeta.
  erewrite bind_run by exact H. cbv beta iota.
  erewrite bind_run by apply plt_subplots_run. cbv beta.
  erewrite bind_run by (apply index_run; exact Hta). cbv beta.
  erewrite bind_run
    by (unfold plot_seismogram; apply update_axes_run; reflexivity).
  erewrite bind_run by apply plt_show_run.
  erewrite bind_run by apply plt_close_run.
  erewrite bind_run by apply plt_subplots_run. cbv beta.
  erewrite bind_run by (apply index_run; exact Hta). cbv beta.
  destruct (lib_spectrogram L (data ta) (sampling_rate (stats ta)) wlen overlap)
    as [e|sp] eqn:Hsp.
  - erewrite bind_fail by (apply plot_spectrogram_fail; exact Hsp).
    rewrite <- !app_assoc. reflexivity.
  - erewrite bind_run
      by (apply (plot_spectrogram_last L ta vmin1 vmax1 _ wlen overlap sp
                   _ [] _ _ Hsp)).
    erewrite bind_run by apply plt_show_run.
    erewrite bind_run by apply plt_close_run.
    unfold ret. rewrite <- !app_assoc. reflexivity.
Qed.

Lemma demonstration_cells_fail_only_in_the_spectrogram_witness :
  read_data fixture (UTC.make 2019 9 4 15 52 0) (UTC.make 2019 9 4 15 54 0)
            fmin fmax initial_world
  = (inr (fixture_st, fixture_trans_max, fixture_rot_max, fixture_filename),
     fixture_world1) /\
  exists ta,
    nth_error fixture_st 0 = Some ta /\
    nth_error event_windows 0
    = Some (UTC.make 2019 9 4 15 52 0, UTC.make 2019 9 4 15 54 0) /\
    match lib_spectrogram fixture (data ta) (sampling_rate (stats ta))
                          wlen overlap
    with
    | inr _ =>
        third_and_fourth_cell fixture initial_world
        = (inr (UTC.make 2019 9 4 15 52 0, UTC.make 2019 9 4 15 54 0),
           mkWorld (calls fixture_world1
                    ++ [Call_show; Call_close;
                        Call_spectrogram (npts ta) (sampling_rate (stats ta))
                                         128 overlap;
                        Call_show; Call_close])
                   empty_figure)
    | inl e =>
        third_and_fourth_cell fixture initial_world
        = (inl e,
           mkWorld (calls fixture_world1
                    ++ [Call_show; Call_close;
                        Call_spectrogram (npts ta) (sampling_rate (stats ta))
                                         128 overlap])
                   (mkFigure [new_axes (SubplotPos 1 1 1)] [] (Some 0%nat)))
    end.
Proof.
  assert (H : read_data fixture (UTC.make 2019 9 4 15 52 0)
                (UTC.make 2019 9 4 15 54 0) fmin fmax initial_world
              = (inr (fixture_st, fixture_trans_max, fixture_rot_max,
                      fixture_filename), fixture_world1))
    by (vm_compute; reflexivity).
  split; [exact H|].
  exact (demonstration_cells_fail_only_in_the_spectrogram _ _ _ _ _ _ _ H).
Defined.

(** X15. The amplitude scales are never negative, so the y limits
    (-max, +max) are never inverted; the translational one is zero, and the
    limits collapse to a point, exactly when every sample of the first
    translational trace is zero. *)
Theorem amplitude_scales_are_not_negative
  L tstart tend lo hi w st trans_max rot_max filename w' :
  read_data L tstart tend lo hi w
  = (inr (st, trans_max, rot_max, filename), w') ->
  (0 <= trans_max)%Q /\ (0 <= rot_max)%Q /\
  exists ta,
    nth_error st 0 = Some ta /\
    ((trans_max == 0)%Q <-> Forall (fun x => (x == 0)%Q) (data ta)).
Proof.
  intros H. apply read_data_pure in H.
  destruct H as (a & x0 & x1 & x2 & rest & ta & va & vb &
                 _ & _ & Hst & Ha & Hva & -> & _ & -> & _).
  split; [apply Qabs_nonneg|]. split; [apply Qabs_nonneg|].
  exists ta. split.
  { subst st. destruct a as [|t a]; [discriminate|]. exact Ha. }
  apply Trace_max_is_max_abs in Hva. destruct Hva as [(x & Hx & Hm) Hle].
  split.
  - intros Hz. apply Forall_forall. intros y Hy.
    specialize (Hle y Hy). rewrite Hz in Hle.
    apply Qabs_Qle_condition in Hle. destruct Hle as [H1 H2].
    apply Qle_antisym; [exact H2 | exact H1].
  - intros Hall. rewrite Forall_forall in Hall.
    rewrite Hm, (Hall x Hx). reflexivity.
Qed.

Lemma amplitude_scales_are_not_negative_witness :
  read_data fixture fixture_tstart fixture_tend fmin fmax initial_world
  = (inr (fixture_st, fixture_trans_max, fixture_rot_max, fixture_filename),
     fixture_world1) /\
  (0 <= fixture_trans_max)%Q /\ (0 <= fixture_rot_max)%Q /\
  exists ta,
    nth_error fixture_st 0 = Some ta /\
    ((fixture_trans_max == 0)%Q <-> Forall (fun x => (x == 0)%Q) (data ta)).
Proof.
  assert (H : read_data fixture fixture_tstart fixture_tend fmin fmax
                initial_world
              = (inr (fixture_st, fixture_trans_max, fixture_rot_max,
                      fixture_filename), fixture_world1))
    by (vm_compute; reflexivity).
  split; [exact H|].
  exact (amplitude_scales_are_not_negative _ _ _ _ _ _ _ _ _ _ _ H).
Defined.

(** * Failures of the library *)

Lemma call_fail {A} c (r : result A) w e :
  r = inl e -> (tell c ;;; lift r) w = (inl e, logged w [c]).
Proof. intros ->. reflexivity. Qed.

(** X16. A file that cannot be read stops [read_data] with the error of the
    library: at once, after a single call, when it is a translational file;
    after the translational stream has been processed in full when it is a
    rotational one. *)
Theorem read_data_propagates_a_failed_read L tstart tend lo hi w e :
  (lib_read L "2019_Etna/ZR.RS1..HH*" (UTC.sub tstart 30) (UTC.add tend 30)
   = inl e ->
   read_data L tstart tend lo hi w
   = (inl e,
      logged w [Call_read "2019_Etna/ZR.RS1..HH*" (UTC.sub tstart 30)
                          (UTC.add tend 30)])) /\
  (forall a,
     trans_stream L tstart tend lo hi = inr a ->
     lib_read L "2019_Etna/ZR.RS1..HJ*" tstart tend = inl e ->
     exists n,
       read_data L tstart tend lo hi w
       = (inl e,
          logged w (trans_calls tstart tend lo hi n
                    ++ [Call_read "2019_Etna/ZR.RS1..HJ*" tstart tend]))).
Proof.
  split.
  - intros H. unfold read_data. read_data_literals.
    apply bind_fail. apply call_fail. exact H.
  - intros a Ht H.
    unfold trans_stream, trans_before_response in Ht. chain_result Ht.
    eexists. unfold read_data. read_data_literals.
    do 13 fwd_step.
    erewrite bind_fail by (apply call_fail; exact H).
    rewrite logged_logged. f_equal. f_equal. unfold trans_calls.
    repeat rewrite <- app_assoc. cbn [app]. reflexivity.
Qed.

(** X17. When the translational files of the first window cannot be read,
    the script stops in its third cell after that single call, before the
    loop over the events starts; the loop on its own would stop in its first
    event in the same way. *)
Theorem script_stops_at_the_first_failed_read L cur w e :
  lib_read L "2019_Etna/ZR.RS1..HH*"
    (UTC.sub (UTC.make 2019 9 4 15 52 0) 30)
    (UTC.add (UTC.make 2019 9 4 15 54 0) 30) = inl e ->
  main L w
  = (inl e,
     logged w [Call_read "2019_Etna/ZR.RS1..HH*"
                 (UTC.sub (UTC.make 2019 9 4 15 52 0) 30)
                 (UTC.add (UTC.make 2019 9 4 15 54 0) 30)]) /\
  event_loop L cur w
  = (inl e,
     logged w [Call_read "2019_Etna/ZR.RS1..HH*"
                 (UTC.sub (UTC.make 2019 9 4 15 52 0) 30)
                 (UTC.add (UTC.make 2019 9 4 15 54 0) 30)]).
Proof.
  intros H.
  pose proof (proj1 (read_data_propagates_a_failed_read L
                       (UTC.make 2019 9 4 15 52 0)
                       (UTC.make 2019 9 4 15 54 0) fmin fmax w e) H) as Hr.
  split.
  - unfold main. apply bind_fail. unfold third_and_fourth_cell. cbv zeta.
    apply bind_fail. exact Hr.
  - unfold event_loop. cbn [seq for_each_acc]. apply bind_fail.
    unfold event_body. cbn [event_window Nat.eqb].
    apply bind_fail. exact Hr.
Qed.

Lemma read_data_propagates_a_failed_read_witness :
  read_data fixture_missing fixture_tstart fixture_tend fmin fmax initial_world
  = (inl (LibraryError "No file matching file pattern"),
     logged initial_world
       [Call_read "2019_Etna/ZR.RS1..HH*" (UTC.sub fixture_tstart 30)
                  (UTC.add fixture_tend 30)]).
Proof.
  apply (proj1 (read_data_propagates_a_failed_read fixture_missing
                  fixture_tstart fixture_tend fmin fmax initial_world
                  (LibraryError "No file matching file pattern"))).
  reflexivity.
Defined.

Lemma script_stops_at_the_first_failed_read_witness :
  main fixture_missing initial_world
  = (inl (LibraryError "No file matching file pattern"),
     logged initial_world
       [Call_read "2019_Etna/ZR.RS1..HH*"
          (UTC.sub (UTC.make 2019 9 4 15 52 0) 30)
          (UTC.add (UTC.make 2019 9 4 15 54 0) 30)]) /\
  event_loop fixture_missing (fixture_tstart, fixture_tend) initial_world
  = (inl (LibraryError "No file matching file pattern"),
     logged initial_world
       [Call_read "2019_Etna/ZR.RS1..HH*"
          (UTC.sub (UTC.make 2019 9 4 15 52 0) 30)
          (UTC.add (UTC.make 2019 9 4 15 54 0) 30)]).
Proof.
  apply (script_stops_at_the_first_failed_read fixture_missing
           (fixture_tstart, fixture_tend) initial_world
           (LibraryError "No file matching file pattern")).
  reflexivity.
Defined.
